(** * Federation manager of slurmctld (src/slurmctld/fed_mgr.c)

    A shallow embedding of the federation manager: the federated job id
    codec, the sibling connection helpers, the membership update, and the
    state save / state load pair, followed by the properties that the
    specification states about them.

    Two revisions of fed_mgr.c are part of the sources.  The functions
    that are textually the same in both are embedded once, at the top
    level; the functions that differ live in [Module FedMgr] (the file
    src/slurmctld/fed_mgr.c) and in [Module FedMgrJoin] (the revision that
    factors the join and leave steps into _join_federation and
    _leave_federation).

    Conventions.  A [char *] is an [option string] ([None] is NULL); a
    [List] is an [option (list _)] ([None] is NULL); C integers are [Z],
    with the 32-bit wrap-around written out where the code computes on
    uint32_t.  The slurmctld read/write lock and the per-record mutexes
    are not represented: every function below is one critical section
    taken in isolation.  Debug logging is left out. *)

From Stdlib Require Import ZArith List String Ascii Bool Lia.
From stdpp Require Import base gmap strings list.
Import ListNotations.
Local Open Scope Z_scope.

(* ================================================================== *)
(** ** Return codes and constants *)

Definition SLURM_SUCCESS : Z := 0.
Definition SLURM_ERROR : Z := -1.
Definition EINTR : Z := 4.
Definition EFAULT : Z := 14.

Definition FED_MGR_STATE_FILE : string := "fed_mgr_state".
Definition FED_MGR_CLUSTER_ID_BEGIN : Z := 26.

(** Modelled from the spec: the macro MAX_JOB_ID comes from slurm.h, which
    is not among the sources; the spec gives the mask of the local id as
    (1<<26)-1. *)
Definition MAX_JOB_ID : Z := Z.shiftl 1 26 - 1.

(** Arithmetic on uint32_t is arithmetic modulo 2^32. *)
Definition uint32 (x : Z) : Z := x mod 2 ^ 32.

(* ================================================================== *)
(** ** Strings *)

Definition tolower (c : ascii) : ascii :=
  let n := N_of_ascii c in
  if ((65 <=? n) && (n <=? 90))%N then ascii_of_N (n + 32) else c.

Fixpoint lower (s : string) : string :=
  match s with
  | EmptyString => EmptyString
  | String c r => String (tolower c) (lower r)
  end.

Definition cmp_to_Z (c : comparison) : Z :=
  match c with Eq => 0 | Lt => -1 | Gt => 1 end.

(** Modelled from the spec: xstrcmp and xstrcasecmp (src/common/xstring.c)
    are not among the sources.  The spec only says that clusters are
    looked up by cluster name; they are taken to be what their names say,
    strcmp and strcasecmp extended to NULL arguments (NULL equals NULL and
    sorts before every string). *)
Definition xstrcmp (s1 s2 : option string) : Z :=
  match s1, s2 with
  | None, None => 0
  | None, Some _ => -1
  | Some _, None => 1
  | Some a, Some b => cmp_to_Z (String.compare a b)
  end.

(** Modelled from the spec: xstrcasecmp (src/common/xstring.c), not among
    the sources either; xstrcmp with the case of letters ignored. *)
Definition xstrcasecmp (s1 s2 : option string) : Z :=
  match s1, s2 with
  | None, None => 0
  | None, Some _ => -1
  | Some _, None => 1
  | Some a, Some b => cmp_to_Z (String.compare (lower a) (lower b))
  end.

(* ================================================================== *)
(** ** Records *)

(** fed_elem_t: the federation identity carried by a cluster record.  The
    code reads the fields [id] and [name]. *)
Module Fed.
Record t := mk { id : Z; name : option string }.
(** memset(&fed_mgr_fed_info, 0, sizeof(fed_mgr_fed_info)) *)
Definition zero : t := {| id := 0; name := None |}.
End Fed.

(** slurmdb_cluster_rec_t, restricted to the fields fed_mgr.c uses.
    [sockfd] is the connection handle; -1 is "not connected". *)
Module Cluster.
Record t := mk {
  name : option string;
  control_host : option string;
  control_port : Z;
  fed : Fed.t;
  sockfd : Z
}.
Definition set_sockfd (c : t) (fd : Z) : t :=
  {| name := name c; control_host := control_host c;
     control_port := control_port c; fed := fed c; sockfd := fd |}.
End Cluster.

Abbreviation fed_elem_t := Fed.t.
Abbreviation slurmdb_cluster_rec_t := Cluster.t.

(** slurmdb_federation_rec_t, as fed_mgr_get_fed_info fills it. *)
Module Federation.
Record t := mk {
  name : option string;
  cluster_list : option (list slurmdb_cluster_rec_t)
}.
End Federation.

Abbreviation slurmdb_federation_rec_t := Federation.t.

(** Modelled from the spec: slurmdb_init_cluster_rec followed by
    slurmdb_copy_cluster_rec (src/common/slurmdb_defs.c) are not among the
    sources.  The spec describes a sibling record as cluster name, control
    host and port, federation identity and a connection handle that is
    initially "not connected"; the copy carries the described attributes
    over and leaves the fresh handle. *)
Definition slurmdb_copy_cluster_rec (c : slurmdb_cluster_rec_t)
  : slurmdb_cluster_rec_t :=
  Cluster.set_sockfd c (-1).

(** Modelled from the spec: slurmdb_init_federation_rec and
    slurmdb_copy_federation_rec are not among the sources; the copy
    duplicates the name and, when there is a list, every record of it. *)
Definition slurmdb_init_federation_rec : slurmdb_federation_rec_t :=
  {| Federation.name := None; Federation.cluster_list := None |}.

(** Modelled from the spec: slurmdb_copy_federation_rec, see above. *)
Definition slurmdb_copy_federation_rec (f : slurmdb_federation_rec_t)
  : slurmdb_federation_rec_t :=
  {| Federation.name := Federation.name f;
     Federation.cluster_list :=
       option_map (map slurmdb_copy_cluster_rec) (Federation.cluster_list f) |}.

(* ================================================================== *)
(** ** Federated job ids *)

(** uint32_t fed_mgr_get_job_id(uint32_t orig): reads the global
    fed_mgr_fed_info, passed here as an argument. *)
Definition fed_mgr_get_job_id (fed_mgr_fed_info : fed_elem_t) (orig : Z) : Z :=
  uint32 (orig +
          uint32 (Z.shiftl (Fed.id fed_mgr_fed_info) FED_MGR_CLUSTER_ID_BEGIN)).

Definition fed_mgr_get_local_id (id : Z) : Z := Z.land id MAX_JOB_ID.

Definition fed_mgr_get_cluster_id (id : Z) : Z :=
  Z.shiftr id FED_MGR_CLUSTER_ID_BEGIN.

(* ================================================================== *)
(** ** Faults

    Where the C code would dereference NULL, read outside a buffer, or
    keep looping on system calls beyond the ones a scenario describes,
    the embedding stops with a [Fault]. *)

Inductive fault :=
| NullDereference
| OutOfBounds
| ScriptExhausted.

Inductive res (A : Type) :=
| Ret (a : A)
| Fault (why : fault).
Arguments Ret {A} a.
Arguments Fault {A} why.

Definition bind {A B : Type} (m : res A) (k : A -> res B) : res B :=
  match m with
  | Ret a => k a
  | Fault f => Fault f
  end.

Notation "'let!' p ':=' m 'in' k" := (bind m (fun p => k))
  (at level 10, p pattern, m at level 100, k at level 200).

(* ================================================================== *)
(** ** The transport: persistent connections to sibling controllers

    The wire transport is an external collaborator.  Every call is
    recorded as an [event]; the [world] is the history of the calls made
    so far, most recent first, and the result of a call may depend on
    all of it. *)

Inductive event :=
| EvOpen (host : option string) (port : Z) (fd : Z)
| EvClose (fd : Z) (rc : Z)
| EvSendRecv (fd : Z) (rc : Z)
| EvThreadCreate (tid : option Z)
| EvThreadCancel (tid : Z).

Definition world := list event.

(** *** The collaborators of the federation manager

    What fed_mgr.c calls and the sources do not contain: the cluster name
    of the configuration, the transport, thread creation, the protocol
    version constants, BUF_SIZE, and the codec of the list message
    (slurmdbd_pack_list_msg and slurmdbd_unpack_list_msg with
    DBD_ADD_CLUSTERS).

    - slurm_open_persist_controller_conn(host, port): the new descriptor,
      or -1 when the dial fails;
    - slurm_close_persist_controller_conn(fd): a return code;
    - slurm_send_recv_msg(fd, req, resp, 0) for a REQUEST_PING: the
      return code of the round trip, and the code that
      slurm_get_return_code reads out of the response (the spec:
      "expected response is a bare success/error code");
    - pthread_create: the new thread, or [None] when it fails;
    - the unpack answers [None] when it returns an error code, else the
      list of the message, which may be NULL. *)

Record env := mkenv {
  slurm_get_cluster_name : option string;
  slurm_open_persist_controller_conn : world -> option string -> Z -> Z;
  slurm_close_persist_controller_conn : world -> Z -> Z;
  slurm_send_recv_msg : world -> Z -> Z * Z;
  pthread_create : world -> option Z;
  SLURM_PROTOCOL_VERSION : Z;
  SLURM_MIN_PROTOCOL_VERSION : Z;
  BUF_SIZE : Z;
  slurmdbd_pack_list_msg :
    option (list slurmdb_cluster_rec_t) -> Z -> list Byte.byte;
  slurmdbd_unpack_list_msg :
    Z -> list Byte.byte -> option (option (list slurmdb_cluster_rec_t))
}.

Section Transport.

Variable E : env.

Definition _close_controller_conn (conn : slurmdb_cluster_rec_t) (w : world)
  : Z * slurmdb_cluster_rec_t * world :=
  let '(rc, w1) :=
    if 0 <=? Cluster.sockfd conn then
      let rc := slurm_close_persist_controller_conn E w (Cluster.sockfd conn) in
      (rc, EvClose (Cluster.sockfd conn) rc :: w)
    else (SLURM_SUCCESS, w) in
  (rc, Cluster.set_sockfd conn (-1), w1).

Definition _open_controller_conn (conn : slurmdb_cluster_rec_t) (w : world)
  : Z * slurmdb_cluster_rec_t * world :=
  match Cluster.control_host conn with
  | Some EmptyString => (-1, Cluster.set_sockfd conn (-1), w)
  | host =>
      let fd :=
        slurm_open_persist_controller_conn E w host
          (Cluster.control_port conn) in
      (fd, Cluster.set_sockfd conn fd,
       EvOpen host (Cluster.control_port conn) fd :: w)
  end.

Definition _send_recv_msg (conn : slurmdb_cluster_rec_t) (w : world)
  : Z * Z * world :=
  let '(rc, code) := slurm_send_recv_msg E w (Cluster.sockfd conn) in
  (rc, code, EvSendRecv (Cluster.sockfd conn) rc :: w).

Definition _ping_controller (conn : slurmdb_cluster_rec_t) (w : world)
  : Z * slurmdb_cluster_rec_t * world :=
  let '(rc, code, w1) := _send_recv_msg conn w in
  if negb (rc =? 0) then (rc, Cluster.set_sockfd conn (-1), w1)
  else (code, conn, w1).

End Transport.

(* ================================================================== *)
(** ** Buffers: the header of the state file

    pack16, pack_time, safe_unpack16 and safe_unpack_time
    (src/common/pack.c) are not among the sources.  The spec gives the
    layout "u16 version | time_t saved_at | serialized_sibling_list"; the
    version is taken as two bytes and the time as eight, most significant
    byte first. *)

Definition byte_of_Z (z : Z) : Byte.byte :=
  match Byte.of_N (Z.to_N (z mod 256)) with
  | Some b => b
  | None => Byte.x00
  end.

Definition Z_of_byte (b : Byte.byte) : Z := Z.of_N (Byte.to_N b).

Fixpoint pack_be (n : nat) (z : Z) : list Byte.byte :=
  match n with
  | O => []
  | S k => byte_of_Z (Z.shiftr z (8 * Z.of_nat k)) :: pack_be k z
  end.

Fixpoint unpack_be (acc : Z) (bs : list Byte.byte) : Z :=
  match bs with
  | [] => acc
  | b :: r => unpack_be (acc * 256 + Z_of_byte b) r
  end.

(** Modelled from the spec: pack16 (src/common/pack.c), the "u16 version"
    of the state file. *)
Definition pack16 (v : Z) : list Byte.byte := pack_be 2 v.

(** Modelled from the spec: pack_time (src/common/pack.c), the "time_t
    saved_at" of the state file. *)
Definition pack_time (t : Z) : list Byte.byte := pack_be 8 t.

Definition unpack_n (n : nat) (buf : list Byte.byte)
  : option (Z * list Byte.byte) :=
  if (n <=? length buf)%nat
  then Some (unpack_be 0 (firstn n buf), skipn n buf)
  else None.

(** Modelled from the spec: the macros safe_unpack16 and safe_unpack_time
    (src/common/pack.h), the inverses of the two above; [None] is their
    goto unpack_error when the buffer is too short. *)
Definition safe_unpack16 := unpack_n 2.
Definition safe_unpack_time := unpack_n 8.

(* ================================================================== *)
(** ** The file system under the state save location

    Names map to inodes and inodes to contents, so that link(2) gives two
    names to one file.  [calls] records the system calls issued, most
    recent first. *)

Inductive syscall :=
| SysCreat (path : string)
| SysWrite (bytes : list Byte.byte)
| SysFsync (rc : Z)
| SysClose
| SysUnlink (path : string)
| SysLink (oldpath newpath : string).

Record filesys := mkfs {
  dir : gmap string nat;
  inodes : gmap nat (list Byte.byte);
  calls : list syscall
}.

Definition called (c : syscall) (fs : filesys) : filesys :=
  {| dir := dir fs; inodes := inodes fs; calls := c :: calls fs |}.

(** The content of the file called [path], if there is one. *)
Definition content (fs : filesys) (path : string) : option (list Byte.byte) :=
  match dir fs !! path with
  | Some i => inodes fs !! i
  | None => None
  end.

(** Every system call below takes the errno the scenario injects into it,
    [None] when the call is left to succeed or fail on the state of the
    file system alone.  The integer result is the one of the C call. *)

(** creat(path, 0600): truncates an existing file, else makes a new one.
    The open file is identified by its inode. *)
Definition sys_creat (path : string) (inject : option Z) (fs : filesys)
  : (Z + nat) * filesys :=
  let fs := called (SysCreat path) fs in
  match inject with
  | Some e => (inl e, fs)
  | None =>
      match dir fs !! path with
      | Some i =>
          (inr i, {| dir := dir fs; inodes := <[i := []]> (inodes fs);
                     calls := calls fs |})
      | None =>
          let i := fresh (dom (inodes fs)) in
          (inr i, {| dir := <[path := i]> (dir fs);
                     inodes := <[i := []]> (inodes fs);
                     calls := calls fs |})
      end
  end.

(** The bytes a successful write(2) appends to the open file. *)
Definition sys_write (i : nat) (bytes : list Byte.byte) (fs : filesys)
  : filesys :=
  let fs := called (SysWrite bytes) fs in
  {| dir := dir fs;
     inodes := <[i := default [] (inodes fs !! i) ++ bytes]> (inodes fs);
     calls := calls fs |}.

(** fsync(fd): 0, or -1 with the injected errno. *)
Definition sys_fsync (inject : option Z) (fs : filesys) : Z * filesys :=
  let rc := match inject with Some _ => -1 | None => 0 end in
  (rc, called (SysFsync rc) fs).

Definition sys_unlink (path : string) (inject : option Z) (fs : filesys)
  : Z * filesys :=
  let fs := called (SysUnlink path) fs in
  match inject, dir fs !! path with
  | None, Some _ =>
      (0, {| dir := delete path (dir fs); inodes := inodes fs;
             calls := calls fs |})
  | _, _ => (-1, fs)
  end.

Definition sys_link (oldpath newpath : string) (inject : option Z)
  (fs : filesys) : Z * filesys :=
  let fs := called (SysLink oldpath newpath) fs in
  match inject, dir fs !! oldpath, dir fs !! newpath with
  | None, Some i, None =>
      (0, {| dir := <[newpath := i]> (dir fs); inodes := inodes fs;
             calls := calls fs |})
  | _, _, _ => (-1, fs)
  end.

(** open(path, O_RDONLY) followed by the reads: the bytes there are to
    read, or [None] when the open fails. *)
Definition sys_open (path : string) (inject : option Z) (fs : filesys)
  : option (list Byte.byte) :=
  match inject with
  | Some _ => None
  | None => content fs path
  end.

(* ================================================================== *)
(** ** Helpers of the state save and the state load *)

(** Modelled from the spec: slurmdb_find_cluster_in_list
    (src/common/slurmdb_defs.c) is not among the sources; the spec says
    "locate the self-entry by cluster name".  It answers 1 on the record
    whose name is the key and 0 otherwise. *)
Definition slurmdb_find_cluster_in_list (x : slurmdb_cluster_rec_t)
  (key : option string) : Z :=
  if xstrcmp (Cluster.name x) key =? 0 then 1 else 0.

(** list_find_first(l, f, key): the first element on which f is not 0. *)
Definition list_find_first {A K : Type} (l : list A) (f : A -> K -> Z)
  (key : K) : option A :=
  List.find (fun x => negb (f x key =? 0)) l.

(** What the scenario decides about the system calls of a save and of a
    load. *)
Inductive write_result :=
| Written (n : nat)
| WriteError (errno : Z).

Record save_io := mk_save_io {
  io_creat : option Z;
  io_writes : list write_result;
  io_fsync : option Z;
  io_unlink_failed : option Z;
  io_unlink_old : option Z;
  io_link_old : option Z;
  io_unlink_reg : option Z;
  io_link_new : option Z;
  io_unlink_new : option Z
}.

Inductive read_result :=
| ReadData (n : nat)
| ReadError (errno : Z).

Record load_io := mk_load_io {
  io_open : option Z;
  io_reads : list read_result
}.

Inductive decoded :=
| NoStateFile
| UnpackError
| IncompatibleVersion (ver : Z)
| Decoded (ver : Z) (buf_time : Z)
    (my_list : option (list slurmdb_cluster_rec_t)).

Section StateFile.

Variable E : env.

(** The buffer of fed_mgr_state_save: header, then the list message. *)
Definition save_buffer (my_list : option (list slurmdb_cluster_rec_t))
  (now : Z) : list Byte.byte :=
  pack16 (SLURM_PROTOCOL_VERSION E) ++ pack_time now ++
  slurmdbd_pack_list_msg E my_list (SLURM_PROTOCOL_VERSION E).

(** The loop
      while (nwrite > 0) {
        amount = write(log_fd, &data[pos], nwrite);
        if ((amount < 0) && (errno != EINTR)) { error_code = errno; break; }
        nwrite -= amount;  pos += amount;
      }
    A failed write returns -1, so that on EINTR the two updates run with
    amount = -1.  The result is error_code. *)
Fixpoint write_loop (ws : list write_result) (log_fd : nat)
  (data : list Byte.byte) (pos nwrite : Z) (fs : filesys)
  : res (Z * filesys) :=
  if nwrite <=? 0 then Ret (0, fs) else
  match ws with
  | [] => Fault ScriptExhausted
  | Written n :: ws' =>
      if pos <? 0 then Fault OutOfBounds else
      let amount := Z.min (Z.of_nat n) nwrite in
      let bytes := firstn (Z.to_nat amount) (skipn (Z.to_nat pos) data) in
      write_loop ws' log_fd data (pos + amount) (nwrite - amount)
        (sys_write log_fd bytes fs)
  | WriteError errno :: ws' =>
      if negb (errno =? EINTR) then Ret (errno, fs)
      else write_loop ws' log_fd data (pos + -1) (nwrite - -1) fs
  end.

(** fed_mgr_state_save from "write the buffer to file" on. *)
Definition write_state_file (state_save_location : string) (io : save_io)
  (buffer : list Byte.byte) (fs : filesys) : res (Z * filesys) :=
  let reg_file := (state_save_location ++ "/" ++ FED_MGR_STATE_FILE)%string in
  let old_file := (reg_file ++ ".old")%string in
  let new_file := (reg_file ++ ".new")%string in
  let! (error_code, fs) :=
    match sys_creat new_file (io_creat io) fs with
    | (inl errno, fs) => Ret (errno, fs)
    | (inr log_fd, fs) =>
        let! (error_code, fs) :=
          write_loop (io_writes io) log_fd buffer 0
            (Z.of_nat (length buffer)) fs in
        let fs := snd (sys_fsync (io_fsync io) fs) in
        Ret (error_code, called SysClose fs)
    end in
  if negb (error_code =? 0) then
    Ret (error_code, snd (sys_unlink new_file (io_unlink_failed io) fs))
  else
    let fs := snd (sys_unlink old_file (io_unlink_old io) fs) in
    let fs := snd (sys_link reg_file old_file (io_link_old io) fs) in
    let fs := snd (sys_unlink reg_file (io_unlink_reg io) fs) in
    let fs := snd (sys_link new_file reg_file (io_link_new io) fs) in
    let fs := snd (sys_unlink new_file (io_unlink_new io) fs) in
    Ret (error_code, fs).

(** The loop of fed_mgr_state_load that reads the whole file: a read of 0
    bytes ends it, EINTR repeats it, any other error ends it with what
    has been read so far. *)
Fixpoint read_loop (rs : list read_result) (rest data : list Byte.byte)
  : res (list Byte.byte) :=
  match rs with
  | [] => Fault ScriptExhausted
  | ReadError errno :: rs' =>
      if errno =? EINTR then read_loop rs' rest data else Ret data
  | ReadData n :: rs' =>
      let data_read :=
        Nat.min n (Nat.min (Z.to_nat (BUF_SIZE E)) (length rest)) in
      if (data_read =? 0)%nat then Ret data
      else read_loop rs' (skipn data_read rest) (data ++ firstn data_read rest)
  end.

(** fed_mgr_state_load up to and including slurmdbd_unpack_list_msg; the
    two revisions share it.  The outcomes are the four ways the code
    leaves this part: no file to open (return SLURM_SUCCESS), a goto
    unpack_error (return SLURM_ERROR), a version outside the supported
    range (return EFAULT), or a decoded list message. *)
Definition decode_state_file (state_save_location : string) (io : load_io)
  (fs : filesys) : res decoded :=
  let state_file := (state_save_location ++ "/" ++ FED_MGR_STATE_FILE)%string in
  match sys_open state_file (io_open io) fs with
  | None => Ret NoStateFile
  | Some bytes =>
  let! data := read_loop (io_reads io) bytes [] in
  match safe_unpack16 data with
  | None => Ret UnpackError
  | Some (ver, buffer) =>
  if (ver >? SLURM_PROTOCOL_VERSION E) || (ver <? SLURM_MIN_PROTOCOL_VERSION E)
  then Ret (IncompatibleVersion ver) else
  match safe_unpack_time buffer with
  | None => Ret UnpackError
  | Some (buf_time, buffer) =>
  match slurmdbd_unpack_list_msg E ver buffer with
  | None => Ret UnpackError
  | Some my_list => Ret (Decoded ver buf_time my_list)
  end end end end.

End StateFile.

(* ================================================================== *)
(** ** src/slurmctld/fed_mgr.c *)

Module FedMgr.

(** The globals of the file. [ping_thread] is 0 while no thread has been
    created. *)
Record state := mk {
  fed_mgr_cluster_name : option string;
  fed_mgr_fed_info : fed_elem_t;
  fed_mgr_siblings : option (list slurmdb_cluster_rec_t);
  ping_thread : Z;
  fed_mgr_inited : bool
}.

Definition initial : state :=
  {| fed_mgr_cluster_name := None; fed_mgr_fed_info := Fed.zero;
     fed_mgr_siblings := None; ping_thread := 0; fed_mgr_inited := false |}.

Definition set_siblings (st : state)
  (l : option (list slurmdb_cluster_rec_t)) : state :=
  {| fed_mgr_cluster_name := fed_mgr_cluster_name st;
     fed_mgr_fed_info := fed_mgr_fed_info st;
     fed_mgr_siblings := l;
     ping_thread := ping_thread st;
     fed_mgr_inited := fed_mgr_inited st |}.

Definition set_fed_info (st : state) (f : fed_elem_t) : state :=
  {| fed_mgr_cluster_name := fed_mgr_cluster_name st;
     fed_mgr_fed_info := f;
     fed_mgr_siblings := fed_mgr_siblings st;
     ping_thread := ping_thread st;
     fed_mgr_inited := fed_mgr_inited st |}.

Definition set_cluster_name (st : state) (n : option string) : state :=
  {| fed_mgr_cluster_name := n;
     fed_mgr_fed_info := fed_mgr_fed_info st;
     fed_mgr_siblings := fed_mgr_siblings st;
     ping_thread := ping_thread st;
     fed_mgr_inited := fed_mgr_inited st |}.

Section WithEnv.

Variable E : env.

(** The loop shared by _close_sibling_conns and by the roster
    replacement of fed_mgr_update_feds: every record but the one carrying
    the local cluster name is closed. *)
Fixpoint close_conns (cluster_name : option string)
  (l : list slurmdb_cluster_rec_t) (w : world)
  : list slurmdb_cluster_rec_t * world :=
  match l with
  | [] => ([], w)
  | conn :: rest =>
      if xstrcasecmp (Cluster.name conn) cluster_name =? 0 then
        let '(rest', w') := close_conns cluster_name rest w in
        (conn :: rest', w')
      else
        let '(_, conn', w1) := _close_controller_conn E conn w in
        let '(rest', w') := close_conns cluster_name rest w1 in
        (conn' :: rest', w')
  end.

Definition _close_sibling_conns (st : state) (w : world) : state * world :=
  match fed_mgr_siblings st with
  | None => (st, w)
  | Some l =>
      let '(l', w') := close_conns (fed_mgr_cluster_name st) l w in
      (set_siblings st (Some l'), w')
  end.

(** One pass of the loop of _ping_thread over the siblings, between
    lock_slurmctld and unlock_slurmctld. *)
Fixpoint ping_conns (cluster_name : option string)
  (l : list slurmdb_cluster_rec_t) (w : world)
  : list slurmdb_cluster_rec_t * world :=
  match l with
  | [] => ([], w)
  | conn :: rest =>
      let '(conn', w1) :=
        if xstrcasecmp (Cluster.name conn) cluster_name =? 0 then (conn, w)
        else
          let '(conn, w) :=
            if Cluster.sockfd conn =? -1
            then let '(_, c, w) := _open_controller_conn E conn w in (c, w)
            else (conn, w) in
          if Cluster.sockfd conn =? -1 then (conn, w)
          else let '(_, c, w) := _ping_controller E conn w in (c, w) in
      let '(rest', w') := ping_conns cluster_name rest w1 in
      (conn' :: rest', w')
  end.

Definition _ping_thread_pass (st : state) (w : world) : state * world :=
  match fed_mgr_siblings st with
  | None => (st, w)
  | Some l =>
      let '(l', w') := ping_conns (fed_mgr_cluster_name st) l w in
      (set_siblings st (Some l'), w')
  end.

Definition _create_ping_thread (st : state) (w : world) : state * world :=
  let r := pthread_create E w in
  let w := EvThreadCreate r :: w in
  match r with
  | Some tid =>
      ({| fed_mgr_cluster_name := fed_mgr_cluster_name st;
          fed_mgr_fed_info := fed_mgr_fed_info st;
          fed_mgr_siblings := fed_mgr_siblings st;
          ping_thread := tid;
          fed_mgr_inited := fed_mgr_inited st |}, w)
  | None => (st, w)
  end.

Definition fed_mgr_init (st : state) (w : world) : Z * state * world :=
  if negb (fed_mgr_inited st) then
    let '(st, w) := _create_ping_thread st w in
    (SLURM_SUCCESS,
     {| fed_mgr_cluster_name :=
          match fed_mgr_cluster_name st with
          | None => slurm_get_cluster_name E
          | n => n
          end;
        fed_mgr_fed_info := fed_mgr_fed_info st;
        fed_mgr_siblings := fed_mgr_siblings st;
        ping_thread := ping_thread st;
        fed_mgr_inited := true |}, w)
  else (SLURM_SUCCESS, st, w).

(** fed_mgr_fini(locked): the flag only decides who takes the write
    lock. *)
Definition fed_mgr_fini (locked : bool) (st : state) (w : world)
  : Z * state * world :=
  let '(st, w) := _close_sibling_conns st w in
  let w :=
    if negb (ping_thread st =? 0) then EvThreadCancel (ping_thread st) :: w
    else w in
  (SLURM_SUCCESS,
   {| fed_mgr_cluster_name := None;
      fed_mgr_fed_info := Fed.zero;
      fed_mgr_siblings := None;
      ping_thread := ping_thread st;
      fed_mgr_inited := false |}, w).

(** The second inner loop of fed_mgr_update_feds: every cluster of the
    federation is copied into the new list, and the ones whose name is
    not the local one are dialed. *)
Fixpoint add_clusters (cluster_name : option string)
  (l : list slurmdb_cluster_rec_t) (w : world)
  : list slurmdb_cluster_rec_t * world :=
  match l with
  | [] => ([], w)
  | cluster :: rest =>
      let conn := slurmdb_copy_cluster_rec cluster in
      let '(conn, w) :=
        if negb (xstrcmp (Cluster.name cluster) cluster_name =? 0)
        then let '(_, c, w) := _open_controller_conn E conn w in (c, w)
        else (conn, w) in
      let '(rest', w') := add_clusters cluster_name rest w in
      (conn :: rest', w')
  end.

(** The first inner loop: the first cluster whose name is the local one,
    case ignored. *)
Definition find_local (cluster_name : option string)
  (l : list slurmdb_cluster_rec_t) : option slurmdb_cluster_rec_t :=
  List.find (fun cluster => xstrcasecmp (Cluster.name cluster) cluster_name =? 0) l.

(** The loop over the federations of the update.  The result carries
    part_of_fed. *)
Fixpoint scan_feds (feds : list slurmdb_federation_rec_t) (st : state)
  (w : world) : res (bool * state * world) :=
  match feds with
  | [] => Ret (false, st, w)
  | fed :: rest =>
      match Federation.cluster_list fed with
      | None => Fault NullDereference
      | Some clusters =>
          match find_local (fed_mgr_cluster_name st) clusters with
          | None => scan_feds rest st w
          | Some cluster =>
              let st := set_fed_info st (Cluster.fed cluster) in
              let w :=
                match fed_mgr_siblings st with
                | Some old => snd (close_conns (fed_mgr_cluster_name st) old w)
                | None => w
                end in
              let '(l, w) := add_clusters (fed_mgr_cluster_name st) clusters w in
              Ret (true, set_siblings st (Some l), w)
          end
      end
  end.

(** fed_mgr_update_feds(update), on update->objects. *)
Definition fed_mgr_update_feds
  (objects : option (list slurmdb_federation_rec_t)) (st : state) (w : world)
  : res (Z * state * world) :=
  match objects with
  | None => Ret (SLURM_SUCCESS, st, w)
  | Some feds =>
      let '(_, st, w) := fed_mgr_init st w in
      let! (part_of_fed, st, w) := scan_feds feds st w in
      let '(st, w) :=
        if negb part_of_fed then
          match Fed.name (fed_mgr_fed_info st) with
          | Some _ => let '(_, st, w) := fed_mgr_fini true st w in (st, w)
          | None => (st, w)
          end
        else (st, w) in
      Ret (SLURM_SUCCESS, st, w)
  end.

Definition fed_mgr_get_fed_info (st : state) : Z * slurmdb_federation_rec_t :=
  let tmp_fed :=
    {| Federation.name := Fed.name (fed_mgr_fed_info st);
       Federation.cluster_list := fed_mgr_siblings st |} in
  (SLURM_SUCCESS, slurmdb_copy_federation_rec tmp_fed).

Definition fed_mgr_is_active (st : state) : bool :=
  match Fed.name (fed_mgr_fed_info st) with
  | Some _ => true
  | None => false
  end.

(** fed_mgr_state_save: the list message carries fed_mgr_siblings as it
    is.  [now] is time(NULL). *)
Definition fed_mgr_state_save (state_save_location : string) (now : Z)
  (io : save_io) (st : state) (fs : filesys) : res (Z * filesys) :=
  write_state_file state_save_location io
    (save_buffer E (fed_mgr_siblings st) now) fs.

Definition fed_mgr_state_load (state_save_location : string) (io : load_io)
  (st : state) (w : world) (fs : filesys) : res (Z * state * world) :=
  let! d := decode_state_file E state_save_location io fs in
  match d with
  | NoStateFile => Ret (SLURM_SUCCESS, st, w)
  | UnpackError => Ret (SLURM_ERROR, st, w)
  | IncompatibleVersion _ => Ret (EFAULT, st, w)
  | Decoded ver buf_time my_list =>
      let st := set_siblings st my_list in
      let st :=
        match fed_mgr_cluster_name st with
        | None => set_cluster_name st (slurm_get_cluster_name E)
        | Some _ => st
        end in
      let cluster :=
        match fed_mgr_siblings st with
        | Some l =>
            Some (list_find_first l slurmdb_find_cluster_in_list
                    (fed_mgr_cluster_name st))
        | None => None
        end in
      match cluster with
      | Some None => Ret (SLURM_ERROR, st, w)
      | Some (Some cluster) =>
          let st := set_fed_info st (Cluster.fed cluster) in
          let '(_, st, w) := fed_mgr_init st w in
          Ret (SLURM_SUCCESS, st, w)
      | None =>
          let '(_, st, w) := fed_mgr_init st w in
          Ret (SLURM_SUCCESS, st, w)
      end
  end.

End WithEnv.
End FedMgr.

(* ================================================================== *)
(** ** The revision of fed_mgr.c with _join_federation

    The local cluster is kept apart in fed_mgr_loc_cluster and is no
    longer a member of fed_mgr_siblings; the ping thread is started on a
    join and told to stop on a leave. *)

Module FedMgrJoin.

Record state := mk {
  fed_mgr_cluster_name : option string;
  fed_mgr_fed_info : fed_elem_t;
  fed_mgr_siblings : option (list slurmdb_cluster_rec_t);
  fed_mgr_loc_cluster : option slurmdb_cluster_rec_t;
  ping_thread : Z;
  stop_pinging : bool
}.

Definition initial : state :=
  {| fed_mgr_cluster_name := None; fed_mgr_fed_info := Fed.zero;
     fed_mgr_siblings := None; fed_mgr_loc_cluster := None;
     ping_thread := 0; stop_pinging := false |}.

Definition set_siblings (st : state)
  (l : option (list slurmdb_cluster_rec_t)) : state :=
  {| fed_mgr_cluster_name := fed_mgr_cluster_name st;
     fed_mgr_fed_info := fed_mgr_fed_info st;
     fed_mgr_siblings := l;
     fed_mgr_loc_cluster := fed_mgr_loc_cluster st;
     ping_thread := ping_thread st;
     stop_pinging := stop_pinging st |}.

Definition set_cluster_name (st : state) (n : option string) : state :=
  {| fed_mgr_cluster_name := n;
     fed_mgr_fed_info := fed_mgr_fed_info st;
     fed_mgr_siblings := fed_mgr_siblings st;
     fed_mgr_loc_cluster := fed_mgr_loc_cluster st;
     ping_thread := ping_thread st;
     stop_pinging := stop_pinging st |}.

Definition set_thread (st : state) (tid : Z) (stop : bool) : state :=
  {| fed_mgr_cluster_name := fed_mgr_cluster_name st;
     fed_mgr_fed_info := fed_mgr_fed_info st;
     fed_mgr_siblings := fed_mgr_siblings st;
     fed_mgr_loc_cluster := fed_mgr_loc_cluster st;
     ping_thread := tid;
     stop_pinging := stop |}.

Section WithEnv.

Variable E : env.

Fixpoint close_conns (l : list slurmdb_cluster_rec_t) (w : world)
  : list slurmdb_cluster_rec_t * world :=
  match l with
  | [] => ([], w)
  | conn :: rest =>
      let '(_, conn', w1) := _close_controller_conn E conn w in
      let '(rest', w') := close_conns rest w1 in
      (conn' :: rest', w')
  end.

Definition _close_sibling_conns (st : state) (w : world) : state * world :=
  match fed_mgr_siblings st with
  | None => (st, w)
  | Some l =>
      let '(l', w') := close_conns l w in
      (set_siblings st (Some l'), w')
  end.

(** One pass of the loop of _ping_thread over the siblings. *)
Fixpoint ping_conns (l : list slurmdb_cluster_rec_t) (w : world)
  : list slurmdb_cluster_rec_t * world :=
  match l with
  | [] => ([], w)
  | conn :: rest =>
      let '(conn, w) :=
        if Cluster.sockfd conn =? -1
        then let '(_, c, w) := _open_controller_conn E conn w in (c, w)
        else (conn, w) in
      let '(conn', w1) :=
        if Cluster.sockfd conn =? -1 then (conn, w)
        else let '(_, c, w) := _ping_controller E conn w in (c, w) in
      let '(rest', w') := ping_conns rest w1 in
      (conn' :: rest', w')
  end.

Definition _ping_thread_pass (st : state) (w : world) : state * world :=
  match fed_mgr_siblings st with
  | None => (st, w)
  | Some l =>
      let '(l', w') := ping_conns l w in
      (set_siblings st (Some l'), w')
  end.

Definition _create_ping_thread (st : state) (w : world) : state * world :=
  let st := set_thread st (ping_thread st) false in
  if ping_thread st =? 0 then
    let r := pthread_create E w in
    let w := EvThreadCreate r :: w in
    match r with
    | Some tid => (set_thread st tid false, w)
    | None => (set_thread st 0 false, w)
    end
  else (st, w).

Definition _destroy_ping_thread (st : state) : state :=
  set_thread st 0 true.

(** The loop of _join_federation: the local cluster is skipped, every
    other cluster is copied, dialed and appended. *)
Fixpoint add_siblings (cluster_name : option string)
  (l : list slurmdb_cluster_rec_t) (w : world)
  : list slurmdb_cluster_rec_t * world :=
  match l with
  | [] => ([], w)
  | tmp_cluster :: rest =>
      if xstrcmp (Cluster.name tmp_cluster) cluster_name =? 0
      then add_siblings cluster_name rest w
      else
        let sibling := slurmdb_copy_cluster_rec tmp_cluster in
        let '(_, sibling, w) := _open_controller_conn E sibling w in
        let '(rest', w') := add_siblings cluster_name rest w in
        (sibling :: rest', w')
  end.

Definition _join_federation (db_cluster : slurmdb_cluster_rec_t)
  (siblings : list slurmdb_cluster_rec_t) (st : state) (w : world)
  : state * world :=
  let w :=
    match fed_mgr_siblings st with
    | Some _ => snd (_close_sibling_conns st w)
    | None => w
    end in
  let '(l, w) := add_siblings (fed_mgr_cluster_name st) siblings w in
  _create_ping_thread
    {| fed_mgr_cluster_name := fed_mgr_cluster_name st;
       fed_mgr_fed_info := Cluster.fed db_cluster;
       fed_mgr_siblings := Some l;
       fed_mgr_loc_cluster := Some (slurmdb_copy_cluster_rec db_cluster);
       ping_thread := ping_thread st;
       stop_pinging := stop_pinging st |} w.

Definition _leave_federation (st : state) (w : world) : state * world :=
  match Fed.name (fed_mgr_fed_info st) with
  | None => (st, w)
  | Some _ =>
      let '(st, w) := _close_sibling_conns st w in
      let st := _destroy_ping_thread st in
      ({| fed_mgr_cluster_name := fed_mgr_cluster_name st;
          fed_mgr_fed_info := Fed.zero;
          fed_mgr_siblings := None;
          fed_mgr_loc_cluster := None;
          ping_thread := ping_thread st;
          stop_pinging := stop_pinging st |}, w)
  end.

Definition fed_mgr_init (st : state) : Z * state :=
  (SLURM_SUCCESS,
   match fed_mgr_cluster_name st with
   | None => set_cluster_name st (slurm_get_cluster_name E)
   | Some _ => st
   end).

Definition fed_mgr_fini (st : state) (w : world) : Z * state * world :=
  let '(st, w) := _leave_federation (set_cluster_name st None) w in
  (SLURM_SUCCESS, st, w).

Definition find_local (cluster_name : option string)
  (l : list slurmdb_cluster_rec_t) : option slurmdb_cluster_rec_t :=
  List.find (fun cluster => xstrcasecmp (Cluster.name cluster) cluster_name =? 0) l.

Fixpoint scan_feds (feds : list slurmdb_federation_rec_t) (st : state)
  (w : world) : res (bool * state * world) :=
  match feds with
  | [] => Ret (false, st, w)
  | fed :: rest =>
      match Federation.cluster_list fed with
      | None => Fault NullDereference
      | Some clusters =>
          match find_local (fed_mgr_cluster_name st) clusters with
          | None => scan_feds rest st w
          | Some cluster =>
              let '(st, w) := _join_federation cluster clusters st w in
              Ret (true, st, w)
          end
      end
  end.

Definition fed_mgr_update_feds
  (objects : option (list slurmdb_federation_rec_t)) (st : state) (w : world)
  : res (Z * state * world) :=
  match objects with
  | None => Ret (SLURM_SUCCESS, st, w)
  | Some feds =>
      let '(_, st) := fed_mgr_init st in
      let! (part_of_fed, st, w) := scan_feds feds st w in
      let '(st, w) :=
        if negb part_of_fed then _leave_federation st w else (st, w) in
      Ret (SLURM_SUCCESS, st, w)
  end.

Definition fed_mgr_get_fed_info (st : state)
  : res (Z * slurmdb_federation_rec_t) :=
  match Fed.name (fed_mgr_fed_info st) with
  | None => Ret (SLURM_SUCCESS, slurmdb_init_federation_rec)
  | Some _ =>
      let tmp_fed :=
        {| Federation.name := Fed.name (fed_mgr_fed_info st);
           Federation.cluster_list := fed_mgr_siblings st |} in
      let out_fed := slurmdb_copy_federation_rec tmp_fed in
      match fed_mgr_loc_cluster st, Federation.cluster_list out_fed with
      | Some loc, Some l =>
          Ret (SLURM_SUCCESS,
               {| Federation.name := Federation.name out_fed;
                  Federation.cluster_list :=
                    Some (l ++ [slurmdb_copy_cluster_rec loc]) |})
      | _, _ => Fault NullDereference
      end
  end.

Definition fed_mgr_is_active (st : state) : bool :=
  match Fed.name (fed_mgr_fed_info st) with
  | Some _ => true
  | None => false
  end.

Definition _make_state_save_siblings (st : state)
  : res (option (list slurmdb_cluster_rec_t)) :=
  match Fed.name (fed_mgr_fed_info st) with
  | None => Ret None
  | Some _ =>
      match fed_mgr_loc_cluster st, fed_mgr_siblings st with
      | Some loc, Some l =>
          Ret (Some (slurmdb_copy_cluster_rec loc ::
                     map slurmdb_copy_cluster_rec l))
      | _, _ => Fault NullDereference
      end
  end.

Definition fed_mgr_state_save (state_save_location : string) (now : Z)
  (io : save_io) (st : state) (fs : filesys) : res (Z * filesys) :=
  let! my_list := _make_state_save_siblings st in
  write_state_file state_save_location io (save_buffer E my_list now) fs.

Definition fed_mgr_state_load (state_save_location : string) (io : load_io)
  (st : state) (w : world) (fs : filesys) : res (Z * state * world) :=
  let! d := decode_state_file E state_save_location io fs in
  match d with
  | NoStateFile => Ret (SLURM_SUCCESS, st, w)
  | UnpackError => Ret (SLURM_ERROR, st, w)
  | IncompatibleVersion _ => Ret (EFAULT, st, w)
  | Decoded ver buf_time my_list =>
      let '(_, st) := fed_mgr_init st in
      match my_list with
      | Some l =>
          match list_find_first l slurmdb_find_cluster_in_list
                  (fed_mgr_cluster_name st) with
          | None => Ret (SLURM_ERROR, st, w)
          | Some cluster =>
              let '(st, w) := _join_federation cluster l st w in
              Ret (SLURM_SUCCESS, st, w)
          end
      | None => Ret (SLURM_SUCCESS, st, w)
      end
  end.

End WithEnv.
End FedMgrJoin.

(* ================================================================== *)
(** ** Vocabulary of the properties *)

(** A federation of an update lists the cluster called [cluster_name]
    when its member list has a record of that name, names being compared
    as fed_mgr_update_feds compares them (xstrcasecmp). *)
Definition lists_cluster (cluster_name : option string)
  (fed : slurmdb_federation_rec_t) : bool :=
  match Federation.cluster_list fed with
  | Some clusters =>
      existsb (fun c => xstrcasecmp (Cluster.name c) cluster_name =? 0) clusters
  | None => false
  end.

(** The update carries a member list for the federation. *)
Definition has_cluster_list (fed : slurmdb_federation_rec_t) : bool :=
  match Federation.cluster_list fed with
  | Some _ => true
  | None => false
  end.

(** What the state file keeps of a record: everything but the handle. *)
Definition persisted (c : slurmdb_cluster_rec_t)
  : option string * option string * Z * fed_elem_t :=
  (Cluster.name c, Cluster.control_host c, Cluster.control_port c,
   Cluster.fed c).

(** What the specification compares of a record after a round trip. *)
Definition endpoint (c : slurmdb_cluster_rec_t)
  : option string * option string * Z :=
  (Cluster.name c, Cluster.control_host c, Cluster.control_port c).

(** The cluster name a load works with: the one in memory, or else the
    one of the configuration. *)
Definition local_name (E : env) (fed_mgr_cluster_name : option string)
  : option string :=
  match fed_mgr_cluster_name with
  | None => slurm_get_cluster_name E
  | Some n => Some n
  end.

(** The three file names of a save. *)
Definition reg_file (state_save_location : string) : string :=
  (state_save_location ++ "/" ++ FED_MGR_STATE_FILE)%string.
Definition new_file (state_save_location : string) : string :=
  (reg_file state_save_location ++ ".new")%string.
Definition old_file (state_save_location : string) : string :=
  (reg_file state_save_location ++ ".old")%string.

(* ================================================================== *)
(** ** Lookup of a sibling by its control host

    _find_sibling_by_ip and fed_mgr_find_sibling_name_by_ip are the same
    in both revisions.  The second reads the global fed_mgr_siblings,
    passed here as an argument; its result is the xstrdup of the name of
    the sibling found, NULL when there is none. *)

Definition _find_sibling_by_ip (x : slurmdb_cluster_rec_t)
  (key : option string) : Z :=
  if xstrcmp (Cluster.control_host x) key =? 0 then 1 else 0.

Definition fed_mgr_find_sibling_name_by_ip
  (fed_mgr_siblings : option (list slurmdb_cluster_rec_t))
  (ip : option string) : option string :=
  match fed_mgr_siblings with
  | Some l =>
      match list_find_first l _find_sibling_by_ip ip with
      | Some sibling => Cluster.name sibling
      | None => None
      end
  | None => None
  end.

(* ================================================================== *)
(** ** Events, local records and the loop body of the ping thread *)

(** The kinds of events. *)
Definition is_thread_create (e : event) : bool :=
  match e with
  | EvThreadCreate _ => true
  | _ => false
  end.

Definition is_open (e : event) : bool :=
  match e with
  | EvOpen _ _ _ => true
  | _ => false
  end.

Definition is_close (e : event) : bool :=
  match e with
  | EvClose _ _ => true
  | _ => false
  end.

(** The record is the one of the local cluster for the loops that pass
    it over (xstrcasecmp against fed_mgr_cluster_name). *)
Definition is_local (cluster_name : option string)
  (c : slurmdb_cluster_rec_t) : bool :=
  xstrcasecmp (Cluster.name c) cluster_name =? 0.

(** The control host is the empty string, the case in which
    _open_controller_conn does not dial. *)
Definition has_empty_host (c : slurmdb_cluster_rec_t) : bool :=
  match Cluster.control_host c with
  | Some EmptyString => true
  | _ => false
  end.

(** The body of the loop of _ping_thread on one record, after the test
    for the local cluster:
      if (conn->sockfd == -1) _open_controller_conn(conn);
      if (conn->sockfd == -1) continue;
      _ping_controller(conn);
    The loops [FedMgr.ping_conns] and [FedMgrJoin.ping_conns] are this
    body, record after record. *)
Definition ping_one (E : env) (conn : slurmdb_cluster_rec_t) (w : world)
  : slurmdb_cluster_rec_t * world :=
  let '(conn, w) :=
    if Cluster.sockfd conn =? -1
    then let '(_, c, w) := _open_controller_conn E conn w in (c, w)
    else (conn, w) in
  if Cluster.sockfd conn =? -1 then (conn, w)
  else let '(_, c, w) := _ping_controller E conn w in (c, w).

(** In the revision with _join_federation, a state with an identity has
    a local cluster record and a sibling list: fed_mgr_get_fed_info and
    _make_state_save_siblings dereference both. *)
Definition join_consistent (st : FedMgrJoin.state) : bool :=
  match Fed.name (FedMgrJoin.fed_mgr_fed_info st) with
  | Some _ =>
      match FedMgrJoin.fed_mgr_loc_cluster st,
            FedMgrJoin.fed_mgr_siblings st with
      | Some _, Some _ => true
      | _, _ => false
      end
  | None => true
  end.

(* ================================================================== *)
(** ** A sample environment

    The theorems below hold for every [env].  To run the embedding on
    concrete inputs an environment is needed; this one has a small codec
    for the list message (a count, then per record: name, control host,
    control port, federation id, federation name), version constants, and
    a transport driven by three parameters. *)

Module Sample.

Definition pack32 (v : Z) : list Byte.byte := pack_be 4 v.

Definition packstr (s : option string) : list Byte.byte :=
  match s with
  | None => pack32 0
  | Some s =>
      pack32 (Z.of_nat (String.length s) + 1) ++
      list_byte_of_string s ++ [Byte.x00]
  end.

Definition pack_cluster_rec (c : slurmdb_cluster_rec_t) : list Byte.byte :=
  packstr (Cluster.name c) ++ packstr (Cluster.control_host c) ++
  pack32 (Cluster.control_port c) ++
  pack32 (Fed.id (Cluster.fed c)) ++ packstr (Fed.name (Cluster.fed c)).

Definition NO_VAL : Z := 2 ^ 32 - 1.

Definition pack_list_msg (my_list : option (list slurmdb_cluster_rec_t))
  (rpc_version : Z) : list Byte.byte :=
  match my_list with
  | None => pack32 NO_VAL
  | Some l => pack32 (Z.of_nat (length l)) ++ concat (map pack_cluster_rec l)
  end.

Definition unpackstr (buf : list Byte.byte)
  : option (option string * list Byte.byte) :=
  '(n, buf) ← unpack_n 4 buf;
  if n =? 0 then Some (None, buf)
  else if (Z.to_nat n <=? length buf)%nat
  then Some (Some (string_of_list_byte (firstn (Z.to_nat n - 1) buf)),
             skipn (Z.to_nat n) buf)
  else None.

Definition unpack_cluster_rec (buf : list Byte.byte)
  : option (slurmdb_cluster_rec_t * list Byte.byte) :=
  '(name, buf) ← unpackstr buf;
  '(host, buf) ← unpackstr buf;
  '(port, buf) ← unpack_n 4 buf;
  '(id, buf) ← unpack_n 4 buf;
  '(fname, buf) ← unpackstr buf;
  Some ({| Cluster.name := name; Cluster.control_host := host;
           Cluster.control_port := port;
           Cluster.fed := {| Fed.id := id; Fed.name := fname |};
           Cluster.sockfd := -1 |}, buf).

Fixpoint unpack_clusters (count : nat) (buf : list Byte.byte)
  : option (list slurmdb_cluster_rec_t) :=
  match count with
  | O => Some []
  | S k =>
      '(c, buf) ← unpack_cluster_rec buf;
      l ← unpack_clusters k buf;
      Some (c :: l)
  end.

Definition unpack_list_msg (rpc_version : Z) (buf : list Byte.byte)
  : option (option (list slurmdb_cluster_rec_t)) :=
  '(count, buf) ← unpack_n 4 buf;
  if count =? NO_VAL then Some None
  else l ← unpack_clusters (Z.to_nat count) buf; Some (Some l).

(** [dial]: the descriptor every dial returns; [ping]: the result of
    every round trip; the local cluster is called "local". *)
Definition E (dial : Z) (ping : Z * Z) : env :=
  {| slurm_get_cluster_name := Some "local"%string;
     slurm_open_persist_controller_conn := fun _ _ _ => dial;
     slurm_close_persist_controller_conn := fun _ _ => 0;
     slurm_send_recv_msg := fun _ _ => ping;
     pthread_create := fun _ => Some 1;
     SLURM_PROTOCOL_VERSION := 7936;
     SLURM_MIN_PROTOCOL_VERSION := 7424;
     BUF_SIZE := 16384;
     slurmdbd_pack_list_msg := pack_list_msg;
     slurmdbd_unpack_list_msg := unpack_list_msg |}.

Definition fedA : fed_elem_t := {| Fed.id := 7; Fed.name := Some "fedA"%string |}.

Definition local : slurmdb_cluster_rec_t :=
  {| Cluster.name := Some "local"%string;
     Cluster.control_host := Some "h0"%string;
     Cluster.control_port := 6817; Cluster.fed := fedA;
     Cluster.sockfd := -1 |}.

Definition sib1 : slurmdb_cluster_rec_t :=
  {| Cluster.name := Some "sib1"%string;
     Cluster.control_host := Some "h1"%string;
     Cluster.control_port := 100; Cluster.fed := fedA;
     Cluster.sockfd := -1 |}.

(** The sibling with a live connection on descriptor 5. *)
Definition sib1_connected : slurmdb_cluster_rec_t := Cluster.set_sockfd sib1 5.

(** A file system with nothing in it, and one holding a state file. *)
Definition empty_fs : filesys := {| dir := ∅; inodes := ∅; calls := [] |}.

Definition fs_with (path : string) (bytes : list Byte.byte) : filesys :=
  {| dir := {[ path := 0%nat ]}; inodes := {[ 0%nat := bytes ]}; calls := [] |}.

Definition state_file : string := "/var/spool/fed_mgr_state".

(** System calls that all succeed: one write takes the whole buffer, one
    read delivers the whole file and the next one reports its end. *)
Definition save_ok : save_io :=
  {| io_creat := None; io_writes := [Written 4096]; io_fsync := None;
     io_unlink_failed := None; io_unlink_old := None; io_link_old := None;
     io_unlink_reg := None; io_link_new := None; io_unlink_new := None |}.

Definition load_ok : load_io :=
  {| io_open := None; io_reads := [ReadData 4096; ReadData 4096] |}.

(** The states of the two revisions once "local" has joined fedA with
    sib1, and an update in which no federation lists "local". *)
Definition federated : FedMgr.state :=
  {| FedMgr.fed_mgr_cluster_name := Some "local"%string;
     FedMgr.fed_mgr_fed_info := fedA;
     FedMgr.fed_mgr_siblings := Some [local; sib1_connected];
     FedMgr.ping_thread := 1;
     FedMgr.fed_mgr_inited := true |}.

Definition federated_join : FedMgrJoin.state :=
  {| FedMgrJoin.fed_mgr_cluster_name := Some "local"%string;
     FedMgrJoin.fed_mgr_fed_info := fedA;
     FedMgrJoin.fed_mgr_siblings := Some [sib1_connected];
     FedMgrJoin.fed_mgr_loc_cluster := Some local;
     FedMgrJoin.ping_thread := 1;
     FedMgrJoin.stop_pinging := false |}.

Definition fedB_without_local : slurmdb_federation_rec_t :=
  {| Federation.name := Some "fedB"%string;
     Federation.cluster_list := Some [sib1] |}.

(** State files: one with a version the sample environment does not
    support, one written while not federated (the list message has no
    list), one whose list has sib1 only. *)
Definition fs_version_9999 : filesys :=
  fs_with state_file (pack16 9999 ++ pack_time 1000 ++ pack_list_msg None 9999).

Definition fs_unfederated : filesys :=
  fs_with state_file (save_buffer (E 9 (0, 0)) None 1000).

Definition fs_sib1_only : filesys :=
  fs_with state_file (save_buffer (E 9 (0, 0)) (Some [sib1]) 1000).

(** The state of fed_mgr.c after the update that lists "local" and sib1
    in fedA, every dial returning descriptor 9. *)
Definition fedA_update : list slurmdb_federation_rec_t :=
  [{| Federation.name := Some "fedA"%string;
      Federation.cluster_list := Some [local; sib1] |}].

Definition joined : FedMgr.state :=
  {| FedMgr.fed_mgr_cluster_name := Some "local"%string;
     FedMgr.fed_mgr_fed_info := fedA;
     FedMgr.fed_mgr_siblings := Some [local; Cluster.set_sockfd sib1 9];
     FedMgr.ping_thread := 1;
     FedMgr.fed_mgr_inited := true |}.

(** A save during which the disk fills up after four bytes (ENOSPC), and
    one during which only the fsync fails (EIO). *)
Definition save_disk_full : save_io :=
  {| io_creat := None; io_writes := [Written 4; WriteError 28];
     io_fsync := None;
     io_unlink_failed := None; io_unlink_old := None; io_link_old := None;
     io_unlink_reg := None; io_link_new := None; io_unlink_new := None |}.

Definition save_fsync_fails : save_io :=
  {| io_creat := None; io_writes := [Written 4096]; io_fsync := Some 5;
     io_unlink_failed := None; io_unlink_old := None; io_link_old := None;
     io_unlink_reg := None; io_link_new := None; io_unlink_new := None |}.

(** A save during which a write is interrupted after two bytes. *)
Definition save_interrupted : save_io :=
  {| io_creat := None;
     io_writes := [Written 2; WriteError EINTR; Written 4096];
     io_fsync := None;
     io_unlink_failed := None; io_unlink_old := None; io_link_old := None;
     io_unlink_reg := None; io_link_new := None; io_unlink_new := None |}.

(** A save during which the .new file cannot be created (EACCES), and a
    state file cut after the version. *)
Definition save_creat_fails : save_io :=
  {| io_creat := Some 13; io_writes := [Written 4096]; io_fsync := None;
     io_unlink_failed := None; io_unlink_old := None; io_link_old := None;
     io_unlink_reg := None; io_link_new := None; io_unlink_new := None |}.

Definition fs_short : filesys := fs_with state_file (pack16 7936).

End Sample.

(* ================================================================== *)
(** * Properties *)

(** ** Strings *)

Lemma string_compare_refl (s : string) : String.compare s s = Eq.
Proof.
  induction s as [|c s IH]; simpl; [reflexivity|].
  pose proof (Ascii.compare_antisym c c) as H.
  destruct (Ascii.compare c c); simpl in H; try discriminate. exact IH.
Qed.

Lemma xstrcmp_eq (a b : option string) : xstrcmp a b = 0 <-> a = b.
Proof.
  destruct a as [a|], b as [b|]; simpl; split; intros H;
    try discriminate; try reflexivity.
  - destruct (String.compare a b) eqn:Hc; try discriminate.
    apply String.compare_eq_iff in Hc. congruence.
  - injection H as ->. rewrite string_compare_refl. reflexivity.
Qed.

Lemma xstrcasecmp_eq (a b : option string) :
  xstrcasecmp a b = 0 <-> option_map lower a = option_map lower b.
Proof.
  destruct a as [a|], b as [b|]; simpl; split; intros H;
    try discriminate; try reflexivity.
  - destruct (String.compare (lower a) (lower b)) eqn:Hc; try discriminate.
    apply String.compare_eq_iff in Hc. congruence.
  - injection H as ->. rewrite string_compare_refl. reflexivity.
Qed.

(** An exact match is a match when case is ignored. *)
Lemma xstrcmp_xstrcasecmp (a b : option string) :
  xstrcmp a b = 0 -> xstrcasecmp a b = 0.
Proof.
  intros H. apply xstrcmp_eq in H. subst b. apply xstrcasecmp_eq. reflexivity.
Qed.

(* ------------------------------------------------------------------ *)
(** ** Federated job ids *)

(** C1.  For a local id below 2^26 and a federation id below 2^6, the
    local id and the cluster id read back from the federated job id are
    the ones it was composed from. *)
Theorem job_id_round_trip (info : fed_elem_t) (localId : Z) :
  0 <= localId < 2 ^ 26 ->
  0 <= Fed.id info < 2 ^ 6 ->
  fed_mgr_get_local_id (fed_mgr_get_job_id info localId) = localId /\
  fed_mgr_get_cluster_id (fed_mgr_get_job_id info localId) = Fed.id info.
Proof.
  intros Hl Hc.
  unfold fed_mgr_get_local_id, fed_mgr_get_cluster_id, fed_mgr_get_job_id,
    MAX_JOB_ID, FED_MGR_CLUSTER_ID_BEGIN, uint32.
  set (c := Fed.id info) in *.
  rewrite Z.shiftl_mul_pow2 by lia.
  assert (Hc' : 0 <= c * 2 ^ 26 < 2 ^ 32) by lia.
  rewrite (Z.mod_small (c * 2 ^ 26)) by lia.
  rewrite (Z.mod_small (localId + c * 2 ^ 26)) by lia.
  split.
  - change (Z.shiftl 1 26 - 1) with (Z.ones 26).
    rewrite Z.land_ones by lia.
    rewrite Z.mod_add by lia. apply Z.mod_small; lia.
  - rewrite Z.shiftr_div_pow2 by lia.
    rewrite Z.div_add by lia. rewrite Z.div_small by lia. lia.
Qed.

Lemma job_id_round_trip_witness :
  fed_mgr_get_local_id (fed_mgr_get_job_id Sample.fedA 1234) = 1234 /\
  fed_mgr_get_cluster_id (fed_mgr_get_job_id Sample.fedA 1234) = 7.
Proof.
  apply (job_id_round_trip Sample.fedA 1234); simpl; lia.
Defined.

(** The ceiling matters: a local id of 2^26 is read back as local id 0
    of the next cluster. *)
Example job_id_above_ceiling :
  fed_mgr_get_local_id (fed_mgr_get_job_id Sample.fedA (2 ^ 26)) = 0 /\
  fed_mgr_get_cluster_id (fed_mgr_get_job_id Sample.fedA (2 ^ 26)) = 8.
Proof. split; reflexivity. Qed.

(* ------------------------------------------------------------------ *)
(** ** The connection helpers *)

Lemma open_controller_conn_empty_host (E : env)
  (conn : slurmdb_cluster_rec_t) (w : world) :
  Cluster.control_host conn = Some EmptyString ->
  _open_controller_conn E conn w = (-1, Cluster.set_sockfd conn (-1), w).
Proof. intros H. unfold _open_controller_conn. rewrite H. reflexivity. Qed.

(** C6, as amended.  _open_controller_conn looks neither at the name of
    the record nor at its handle: unless the control host is the empty
    string it dials host and port, stores what the dial returns in the
    handle and returns it.  A dial that fails thus leaves the handle at
    -1, "not connected", and nothing but that handle tells the caller. *)
Theorem open_controller_conn_dials (E : env)
  (conn : slurmdb_cluster_rec_t) (w : world) :
  Cluster.control_host conn <> Some EmptyString ->
  let fd :=
    slurm_open_persist_controller_conn E w (Cluster.control_host conn)
      (Cluster.control_port conn) in
  _open_controller_conn E conn w =
    (fd, Cluster.set_sockfd conn fd,
     EvOpen (Cluster.control_host conn) (Cluster.control_port conn) fd :: w) /\
  (fd = -1 ->
   Cluster.sockfd (snd (fst (_open_controller_conn E conn w))) = -1).
Proof.
  intros H fd. unfold _open_controller_conn.
  destruct (Cluster.control_host conn) as [[|c s]|] eqn:Hh;
    try congruence; simpl; split; auto.
Qed.

Lemma open_controller_conn_dials_witness :
  _open_controller_conn (Sample.E (-1) (0, 0)) Sample.sib1 [] =
    (-1, Cluster.set_sockfd Sample.sib1 (-1), [EvOpen (Some "h1"%string) 100 (-1)]).
Proof.
  apply (open_controller_conn_dials (Sample.E (-1) (0, 0)) Sample.sib1 []).
  simpl. discriminate.
Defined.

(** C6, as stated, fails: on a record whose handle is connected (5) the
    open dials again and replaces the handle, and on the record of the
    local cluster it dials as well. *)
Lemma open_controller_conn_not_noop :
  Cluster.sockfd Sample.sib1_connected = 5 /\
  _open_controller_conn (Sample.E 9 (0, 0)) Sample.sib1_connected [] =
    (9, Cluster.set_sockfd Sample.sib1 9, [EvOpen (Some "h1"%string) 100 9]) /\
  _open_controller_conn (Sample.E 9 (0, 0)) Sample.sib1_connected [] <>
    (5, Sample.sib1_connected, []) /\
  xstrcmp (Cluster.name Sample.local)
    (slurm_get_cluster_name (Sample.E 9 (0, 0))) = 0 /\
  _open_controller_conn (Sample.E 9 (0, 0)) Sample.local [] =
    (9, Cluster.set_sockfd Sample.local 9, [EvOpen (Some "h0"%string) 6817 9]).
Proof. repeat split. discriminate. Qed.

(** C7, as amended.  A round trip that fails marks the handle -1 and its
    code is returned; a response with a return code other than 0 is
    returned as well, but the handle stays as it was. *)
Theorem ping_controller_spec (E : env) (conn : slurmdb_cluster_rec_t)
  (w : world) (rc code : Z) :
  slurm_send_recv_msg E w (Cluster.sockfd conn) = (rc, code) ->
  let w' := EvSendRecv (Cluster.sockfd conn) rc :: w in
  (rc <> 0 ->
   _ping_controller E conn w = (rc, Cluster.set_sockfd conn (-1), w')) /\
  (rc = 0 -> _ping_controller E conn w = (code, conn, w')).
Proof.
  intros H w'. unfold _ping_controller, _send_recv_msg. rewrite H.
  split; intros Hrc.
  - apply Z.eqb_neq in Hrc. rewrite Hrc. reflexivity.
  - subst rc. reflexivity.
Qed.

Lemma ping_controller_spec_witness :
  _ping_controller (Sample.E 9 (-1, 0)) Sample.sib1_connected [] =
    (-1, Cluster.set_sockfd Sample.sib1 (-1), [EvSendRecv 5 (-1)]).
Proof.
  apply (ping_controller_spec (Sample.E 9 (-1, 0)) Sample.sib1_connected
           [] (-1) 0); [reflexivity | discriminate].
Defined.

(** C7, as stated, fails: the round trip succeeds, the response carries
    the return code 1, the ping returns 1, and the handle is still 5. *)
Lemma ping_error_code_keeps_handle :
  _ping_controller (Sample.E 9 (0, 1)) Sample.sib1_connected [] =
    (1, Sample.sib1_connected, [EvSendRecv 5 0]) /\
  Cluster.sockfd
    (snd (fst (_ping_controller (Sample.E 9 (0, 1)) Sample.sib1_connected [])))
    = 5.
Proof. split; reflexivity. Qed.

(* ------------------------------------------------------------------ *)
(** ** The membership update *)

Lemma find_existsb_false {A : Type} (p : A -> bool) (l : list A) :
  existsb p l = false -> List.find p l = None.
Proof.
  induction l as [|x l IH]; simpl; [reflexivity|].
  destruct (p x); simpl; [discriminate | exact IH].
Qed.

Lemma FedMgr_init_keeps_identity (E : env) (st : FedMgr.state) (w : world) :
  FedMgr.fed_mgr_fed_info (snd (fst (FedMgr.fed_mgr_init E st w))) =
    FedMgr.fed_mgr_fed_info st /\
  FedMgr.fed_mgr_siblings (snd (fst (FedMgr.fed_mgr_init E st w))) =
    FedMgr.fed_mgr_siblings st.
Proof.
  unfold FedMgr.fed_mgr_init, FedMgr._create_ping_thread.
  destruct (FedMgr.fed_mgr_inited st); simpl; [tauto|].
  destruct (pthread_create E w); simpl; tauto.
Qed.

(** When no federation of the update lists the local cluster, the scan
    runs to the end and changes nothing. *)
Lemma FedMgr_scan_feds_not_listed (E : env)
  (feds : list slurmdb_federation_rec_t) (st : FedMgr.state) (w : world) :
  forallb has_cluster_list feds = true ->
  existsb (lists_cluster (FedMgr.fed_mgr_cluster_name st)) feds = false ->
  FedMgr.scan_feds E feds st w = Ret (false, st, w).
Proof.
  induction feds as [|fed feds IH]; simpl; intros Hl Hn; [reflexivity|].
  apply andb_prop in Hl as [Hl1 Hl2].
  apply orb_false_elim in Hn as [Hn1 Hn2].
  unfold has_cluster_list in Hl1. unfold lists_cluster in Hn1.
  destruct (Federation.cluster_list fed) as [clusters|]; [|discriminate].
  unfold FedMgr.find_local. rewrite (find_existsb_false _ _ Hn1).
  apply IH; assumption.
Qed.

Lemma FedMgrJoin_scan_feds_not_listed (E : env)
  (feds : list slurmdb_federation_rec_t) (st : FedMgrJoin.state) (w : world) :
  forallb has_cluster_list feds = true ->
  existsb (lists_cluster (FedMgrJoin.fed_mgr_cluster_name st)) feds = false ->
  FedMgrJoin.scan_feds E feds st w = Ret (false, st, w).
Proof.
  induction feds as [|fed feds IH]; simpl; intros Hl Hn; [reflexivity|].
  apply andb_prop in Hl as [Hl1 Hl2].
  apply orb_false_elim in Hn as [Hn1 Hn2].
  unfold has_cluster_list in Hl1. unfold lists_cluster in Hn1.
  destruct (Federation.cluster_list fed) as [clusters|]; [|discriminate].
  unfold FedMgrJoin.find_local. rewrite (find_existsb_false _ _ Hn1).
  apply IH; assumption.
Qed.

(** The leave of src/slurmctld/fed_mgr.c: fed_mgr_fini(true) empties the
    identity and the roster whatever the state. *)
Lemma FedMgr_fini_unfederated (E : env) (locked : bool) (st : FedMgr.state)
  (w : world) :
  exists w',
    FedMgr.fed_mgr_fini E locked st w =
      (SLURM_SUCCESS,
       {| FedMgr.fed_mgr_cluster_name := None;
          FedMgr.fed_mgr_fed_info := Fed.zero;
          FedMgr.fed_mgr_siblings := None;
          FedMgr.ping_thread := FedMgr.ping_thread st;
          FedMgr.fed_mgr_inited := false |}, w').
Proof.
  unfold FedMgr.fed_mgr_fini, FedMgr._close_sibling_conns.
  destruct (FedMgr.fed_mgr_siblings st) as [l|].
  - destruct (FedMgr.close_conns E (FedMgr.fed_mgr_cluster_name st) l w)
      as [l' w1]. simpl. eexists. reflexivity.
  - eexists. reflexivity.
Qed.

Lemma FedMgrJoin_leave_unfederated (E : env) (st : FedMgrJoin.state)
  (w : world) :
  FedMgrJoin.fed_mgr_is_active st = true ->
  exists w',
    FedMgrJoin._leave_federation E st w =
      ({| FedMgrJoin.fed_mgr_cluster_name := FedMgrJoin.fed_mgr_cluster_name st;
          FedMgrJoin.fed_mgr_fed_info := Fed.zero;
          FedMgrJoin.fed_mgr_siblings := None;
          FedMgrJoin.fed_mgr_loc_cluster := None;
          FedMgrJoin.ping_thread := 0;
          FedMgrJoin.stop_pinging := true |}, w').
Proof.
  unfold FedMgrJoin.fed_mgr_is_active, FedMgrJoin._leave_federation,
    FedMgrJoin._close_sibling_conns.
  destruct (Fed.name (FedMgrJoin.fed_mgr_fed_info st)); [|discriminate].
  intros _. destruct (FedMgrJoin.fed_mgr_siblings st) as [l|].
  - destruct (FedMgrJoin.close_conns E l w) as [l' w1]. simpl.
    eexists. reflexivity.
  - eexists. reflexivity.
Qed.

(** C5.  An update with a batch in which no federation lists the local
    cluster, received while federated, leaves the federation: the update
    succeeds, fed_mgr_is_active answers false, and the federation record
    of fed_mgr_get_fed_info has neither a name nor clusters.  This holds
    in both revisions.  The local cluster name is the one in force once
    fed_mgr_init has run, and names are compared as the update compares
    them. *)
Theorem update_leaves_federation (E : env)
  (feds : list slurmdb_federation_rec_t)
  (st1 : FedMgr.state) (st2 : FedMgrJoin.state) (w : world) :
  feds <> [] ->
  forallb has_cluster_list feds = true ->
  existsb (lists_cluster
             (FedMgr.fed_mgr_cluster_name
                (snd (fst (FedMgr.fed_mgr_init E st1 w))))) feds = false ->
  existsb (lists_cluster
             (FedMgrJoin.fed_mgr_cluster_name
                (snd (FedMgrJoin.fed_mgr_init E st2)))) feds = false ->
  FedMgr.fed_mgr_is_active st1 = true ->
  FedMgrJoin.fed_mgr_is_active st2 = true ->
  (exists st' w',
     FedMgr.fed_mgr_update_feds E (Some feds) st1 w =
       Ret (SLURM_SUCCESS, st', w') /\
     FedMgr.fed_mgr_is_active st' = false /\
     FedMgr.fed_mgr_get_fed_info st' =
       (SLURM_SUCCESS,
        {| Federation.name := None; Federation.cluster_list := None |})) /\
  (exists st' w',
     FedMgrJoin.fed_mgr_update_feds E (Some feds) st2 w =
       Ret (SLURM_SUCCESS, st', w') /\
     FedMgrJoin.fed_mgr_is_active st' = false /\
     FedMgrJoin.fed_mgr_get_fed_info st' =
       Ret (SLURM_SUCCESS,
            {| Federation.name := None; Federation.cluster_list := None |})).
Proof.
  intros _ Hlists Hn1 Hn2 Ha1 Ha2. split.
  - unfold FedMgr.fed_mgr_update_feds.
    pose proof (FedMgr_init_keeps_identity E st1 w) as [Hid _].
    destruct (FedMgr.fed_mgr_init E st1 w) as [[rc st0] w0]. simpl in *.
    rewrite (FedMgr_scan_feds_not_listed E feds st0 w0 Hlists Hn1). simpl.
    unfold FedMgr.fed_mgr_is_active in Ha1. rewrite Hid.
    destruct (Fed.name (FedMgr.fed_mgr_fed_info st1)); [|discriminate].
    destruct (FedMgr_fini_unfederated E true st0 w0) as [w' Hf].
    rewrite Hf. do 2 eexists. repeat split.
  - unfold FedMgrJoin.fed_mgr_update_feds.
    assert (Hact : FedMgrJoin.fed_mgr_is_active
                     (snd (FedMgrJoin.fed_mgr_init E st2)) = true).
    { unfold FedMgrJoin.fed_mgr_init. simpl.
      destruct (FedMgrJoin.fed_mgr_cluster_name st2); exact Ha2. }
    destruct (FedMgrJoin.fed_mgr_init E st2) as [rc st0]. simpl in *.
    rewrite (FedMgrJoin_scan_feds_not_listed E feds st0 w Hlists Hn2). simpl.
    destruct (FedMgrJoin_leave_unfederated E st0 w Hact) as [w' Hf].
    rewrite Hf. do 2 eexists. repeat split.
Qed.

Lemma update_leaves_federation_witness :
  (exists st' w',
     FedMgr.fed_mgr_update_feds (Sample.E 9 (0, 0))
       (Some [Sample.fedB_without_local]) Sample.federated [] =
       Ret (SLURM_SUCCESS, st', w') /\
     FedMgr.fed_mgr_is_active st' = false /\
     FedMgr.fed_mgr_get_fed_info st' =
       (SLURM_SUCCESS,
        {| Federation.name := None; Federation.cluster_list := None |})) /\
  (exists st' w',
     FedMgrJoin.fed_mgr_update_feds (Sample.E 9 (0, 0))
       (Some [Sample.fedB_without_local]) Sample.federated_join [] =
       Ret (SLURM_SUCCESS, st', w') /\
     FedMgrJoin.fed_mgr_is_active st' = false /\
     FedMgrJoin.fed_mgr_get_fed_info st' =
       Ret (SLURM_SUCCESS,
            {| Federation.name := None; Federation.cluster_list := None |})).
Proof.
  apply (update_leaves_federation (Sample.E 9 (0, 0))
           [Sample.fedB_without_local] Sample.federated
           Sample.federated_join []);
    solve [discriminate | reflexivity].
Defined.

(** What the leave does to the connections in that scenario: the handle
    of sib1 is closed, and the ping thread is cancelled (fed_mgr.c) or
    told to stop (the revision with _leave_federation). *)
Example update_leaves_federation_events :
  FedMgr.fed_mgr_update_feds (Sample.E 9 (0, 0))
    (Some [Sample.fedB_without_local]) Sample.federated [] =
    Ret (SLURM_SUCCESS,
         {| FedMgr.fed_mgr_cluster_name := None;
            FedMgr.fed_mgr_fed_info := Fed.zero;
            FedMgr.fed_mgr_siblings := None;
            FedMgr.ping_thread := 1;
            FedMgr.fed_mgr_inited := false |},
         [EvThreadCancel 1; EvClose 5 0]) /\
  FedMgrJoin.fed_mgr_update_feds (Sample.E 9 (0, 0))
    (Some [Sample.fedB_without_local]) Sample.federated_join [] =
    Ret (SLURM_SUCCESS,
         {| FedMgrJoin.fed_mgr_cluster_name := Some "local"%string;
            FedMgrJoin.fed_mgr_fed_info := Fed.zero;
            FedMgrJoin.fed_mgr_siblings := None;
            FedMgrJoin.fed_mgr_loc_cluster := None;
            FedMgrJoin.ping_thread := 0;
            FedMgrJoin.stop_pinging := true |},
         [EvClose 5 0]).
Proof. split; reflexivity. Qed.

(** C10.  An update whose objects list is NULL returns SLURM_SUCCESS and
    leaves the state and the world (connections, ping thread) as they
    were, in both revisions, federated or not; an update whose list is
    present and empty does run the leave, after which fed_mgr_is_active
    answers false. *)
Theorem update_without_objects (E : env)
  (st1 : FedMgr.state) (st2 : FedMgrJoin.state) (w : world) :
  FedMgr.fed_mgr_update_feds E None st1 w = Ret (SLURM_SUCCESS, st1, w) /\
  FedMgrJoin.fed_mgr_update_feds E None st2 w = Ret (SLURM_SUCCESS, st2, w) /\
  (exists st' w',
     FedMgr.fed_mgr_update_feds E (Some []) st1 w =
       Ret (SLURM_SUCCESS, st', w') /\
     FedMgr.fed_mgr_is_active st' = false) /\
  (exists st' w',
     FedMgrJoin.fed_mgr_update_feds E (Some []) st2 w =
       Ret (SLURM_SUCCESS, st', w') /\
     FedMgrJoin.fed_mgr_is_active st' = false).
Proof.
  split; [reflexivity|]. split; [reflexivity|]. split.
  - unfold FedMgr.fed_mgr_update_feds.
    destruct (FedMgr.fed_mgr_init E st1 w) as [[rc st0] w0]. simpl.
    destruct (Fed.name (FedMgr.fed_mgr_fed_info st0)) eqn:Hn.
    + destruct (FedMgr_fini_unfederated E true st0 w0) as [w' Hf].
      rewrite Hf. do 2 eexists. split; reflexivity.
    + do 2 eexists. split; [reflexivity|].
      unfold FedMgr.fed_mgr_is_active. rewrite Hn. reflexivity.
  - unfold FedMgrJoin.fed_mgr_update_feds.
    destruct (FedMgrJoin.fed_mgr_init E st2) as [rc st0]. simpl.
    destruct (FedMgrJoin.fed_mgr_is_active st0) eqn:Ha.
    + destruct (FedMgrJoin_leave_unfederated E st0 w Ha) as [w' Hf].
      rewrite Hf. do 2 eexists. split; reflexivity.
    + unfold FedMgrJoin.fed_mgr_is_active in Ha.
      unfold FedMgrJoin._leave_federation.
      destruct (Fed.name (FedMgrJoin.fed_mgr_fed_info st0)) eqn:Hn;
        [discriminate|].
      do 2 eexists. split; [reflexivity|].
      unfold FedMgrJoin.fed_mgr_is_active. rewrite Hn. reflexivity.
Qed.

(* ------------------------------------------------------------------ *)
(** ** The state load *)

Lemma list_find_first_absent (l : list slurmdb_cluster_rec_t)
  (key : option string) :
  (forall c, In c l -> Cluster.name c <> key) ->
  list_find_first l slurmdb_find_cluster_in_list key = None.
Proof.
  unfold list_find_first, slurmdb_find_cluster_in_list.
  induction l as [|c l IH]; simpl; intros H; [reflexivity|].
  destruct (xstrcmp (Cluster.name c) key =? 0) eqn:Hc.
  - apply Z.eqb_eq, xstrcmp_eq in Hc. exfalso. apply (H c); auto.
  - simpl. apply IH. intros c' Hin. apply H. auto.
Qed.

Lemma list_find_first_present (l : list slurmdb_cluster_rec_t)
  (key : option string) (c : slurmdb_cluster_rec_t) :
  list_find_first l slurmdb_find_cluster_in_list key = Some c ->
  In c l /\ Cluster.name c = key.
Proof.
  unfold list_find_first, slurmdb_find_cluster_in_list. intros H.
  apply find_some in H as [Hin Hc]. split; [exact Hin|].
  destruct (xstrcmp (Cluster.name c) key =? 0) eqn:Hx; [|discriminate].
  apply Z.eqb_eq, xstrcmp_eq in Hx. exact Hx.
Qed.

(** The decoding part, step by step. *)
Lemma decode_state_file_version (E : env) (loc : string) (io : load_io)
  (fs : filesys) (bytes data buffer : list Byte.byte) (ver : Z) :
  sys_open (loc ++ "/" ++ FED_MGR_STATE_FILE)%string (io_open io) fs
    = Some bytes ->
  read_loop E (io_reads io) bytes [] = Ret data ->
  safe_unpack16 data = Some (ver, buffer) ->
  ver > SLURM_PROTOCOL_VERSION E \/ ver < SLURM_MIN_PROTOCOL_VERSION E ->
  decode_state_file E loc io fs = Ret (IncompatibleVersion ver).
Proof.
  intros Ho Hr Hu Hv. unfold decode_state_file. rewrite Ho, Hr. simpl.
  rewrite Hu.
  assert (Hb : (ver >? SLURM_PROTOCOL_VERSION E)
               || (ver <? SLURM_MIN_PROTOCOL_VERSION E) = true).
  { apply orb_true_iff. destruct Hv as [Hv|Hv]; [left|right]; lia. }
  rewrite Hb. reflexivity.
Qed.

(** C3.  A state file whose version tag is above SLURM_PROTOCOL_VERSION
    or below SLURM_MIN_PROTOCOL_VERSION makes the load return EFAULT, and
    neither the state (identity and sibling list included) nor the world
    changes; this holds in both revisions. *)
Theorem load_rejects_version (E : env) (loc : string) (io : load_io)
  (fs : filesys) (bytes data buffer : list Byte.byte) (ver : Z)
  (st1 : FedMgr.state) (st2 : FedMgrJoin.state) (w : world) :
  sys_open (loc ++ "/" ++ FED_MGR_STATE_FILE)%string (io_open io) fs
    = Some bytes ->
  read_loop E (io_reads io) bytes [] = Ret data ->
  safe_unpack16 data = Some (ver, buffer) ->
  ver > SLURM_PROTOCOL_VERSION E \/ ver < SLURM_MIN_PROTOCOL_VERSION E ->
  FedMgr.fed_mgr_state_load E loc io st1 w fs = Ret (EFAULT, st1, w) /\
  FedMgrJoin.fed_mgr_state_load E loc io st2 w fs = Ret (EFAULT, st2, w).
Proof.
  intros Ho Hr Hu Hv.
  pose proof (decode_state_file_version E loc io fs bytes data buffer ver
                Ho Hr Hu Hv) as Hd.
  unfold FedMgr.fed_mgr_state_load, FedMgrJoin.fed_mgr_state_load.
  rewrite Hd. split; reflexivity.
Qed.

Lemma load_rejects_version_witness :
  FedMgr.fed_mgr_state_load (Sample.E 9 (0, 0)) "/var/spool" Sample.load_ok
    Sample.federated [] Sample.fs_version_9999 =
    Ret (EFAULT, Sample.federated, []) /\
  FedMgrJoin.fed_mgr_state_load (Sample.E 9 (0, 0)) "/var/spool" Sample.load_ok
    Sample.federated_join [] Sample.fs_version_9999 =
    Ret (EFAULT, Sample.federated_join, []).
Proof.
  apply (load_rejects_version (Sample.E 9 (0, 0)) "/var/spool" Sample.load_ok
           Sample.fs_version_9999
           (pack16 9999 ++ pack_time 1000 ++ Sample.pack_list_msg None 9999)
           (pack16 9999 ++ pack_time 1000 ++ Sample.pack_list_msg None 9999)
           (pack_time 1000 ++ Sample.pack_list_msg None 9999) 9999);
    [reflexivity | reflexivity | reflexivity | left; reflexivity].
Defined.

(** C4, as amended.  When the state file decodes and its list message
    carries a list (empty or not) in which no record is named as the
    local cluster, the load returns SLURM_ERROR, in both revisions. *)
Theorem load_without_self_entry (E : env) (loc : string) (io : load_io)
  (fs : filesys) (ver buf_time : Z) (l : list slurmdb_cluster_rec_t)
  (st1 : FedMgr.state) (st2 : FedMgrJoin.state) (w : world) :
  decode_state_file E loc io fs = Ret (Decoded ver buf_time (Some l)) ->
  (forall c, In c l ->
     Cluster.name c <> local_name E (FedMgr.fed_mgr_cluster_name st1)) ->
  (forall c, In c l ->
     Cluster.name c <> local_name E (FedMgrJoin.fed_mgr_cluster_name st2)) ->
  (exists st',
     FedMgr.fed_mgr_state_load E loc io st1 w fs = Ret (SLURM_ERROR, st', w)) /\
  (exists st',
     FedMgrJoin.fed_mgr_state_load E loc io st2 w fs =
       Ret (SLURM_ERROR, st', w)).
Proof.
  intros Hd H1 H2.
  unfold FedMgr.fed_mgr_state_load, FedMgrJoin.fed_mgr_state_load.
  rewrite Hd. simpl. split.
  - apply list_find_first_absent in H1. unfold local_name in H1.
    destruct (FedMgr.fed_mgr_cluster_name st1) eqn:Hn; simpl;
      rewrite ?Hn; simpl; rewrite H1; eexists; reflexivity.
  - apply list_find_first_absent in H2. unfold local_name in H2.
    unfold FedMgrJoin.fed_mgr_init.
    destruct (FedMgrJoin.fed_mgr_cluster_name st2) eqn:Hn; simpl.
    + rewrite Hn, H2. eexists; reflexivity.
    + rewrite H2. eexists; reflexivity.
Qed.

Lemma load_without_self_entry_witness :
  (exists st',
     FedMgr.fed_mgr_state_load (Sample.E 9 (0, 0)) "/var/spool" Sample.load_ok
       FedMgr.initial [] Sample.fs_sib1_only = Ret (SLURM_ERROR, st', [])) /\
  (exists st',
     FedMgrJoin.fed_mgr_state_load (Sample.E 9 (0, 0)) "/var/spool"
       Sample.load_ok FedMgrJoin.initial [] Sample.fs_sib1_only =
       Ret (SLURM_ERROR, st', [])).
Proof.
  apply (load_without_self_entry (Sample.E 9 (0, 0)) "/var/spool"
           Sample.load_ok Sample.fs_sib1_only 7936 1000 [Sample.sib1]).
  - reflexivity.
  - intros c [<-|[]]. discriminate.
  - intros c [<-|[]]. discriminate.
Defined.

(** C4, as stated, fails: a state file written while not federated
    decodes, its list message has no list, hence no record named "local",
    and the load returns SLURM_SUCCESS in both revisions. *)
Lemma load_without_list_succeeds :
  decode_state_file (Sample.E 9 (0, 0)) "/var/spool" Sample.load_ok
    Sample.fs_unfederated = Ret (Decoded 7936 1000 None) /\
  FedMgr.fed_mgr_state_load (Sample.E 9 (0, 0)) "/var/spool" Sample.load_ok
    FedMgr.initial [] Sample.fs_unfederated =
    Ret (SLURM_SUCCESS,
         {| FedMgr.fed_mgr_cluster_name := Some "local"%string;
            FedMgr.fed_mgr_fed_info := Fed.zero;
            FedMgr.fed_mgr_siblings := None;
            FedMgr.ping_thread := 1;
            FedMgr.fed_mgr_inited := true |},
         [EvThreadCreate (Some 1)]) /\
  FedMgrJoin.fed_mgr_state_load (Sample.E 9 (0, 0)) "/var/spool" Sample.load_ok
    FedMgrJoin.initial [] Sample.fs_unfederated =
    Ret (SLURM_SUCCESS,
         FedMgrJoin.set_cluster_name FedMgrJoin.initial (Some "local"%string),
         []).
Proof. repeat split. Qed.

(** C9.  In src/slurmctld/fed_mgr.c the load that fails for want of a
    record named as the local cluster returns SLURM_ERROR after it has
    installed the decoded list: the sibling list in memory is the list of
    the file, whatever it was before, while the identity is the previous
    one. *)
Theorem load_failure_replaces_roster (E : env) (loc : string) (io : load_io)
  (fs : filesys) (ver buf_time : Z) (l : list slurmdb_cluster_rec_t)
  (st : FedMgr.state) (w : world) :
  decode_state_file E loc io fs = Ret (Decoded ver buf_time (Some l)) ->
  (forall c, In c l ->
     Cluster.name c <> local_name E (FedMgr.fed_mgr_cluster_name st)) ->
  exists st',
    FedMgr.fed_mgr_state_load E loc io st w fs = Ret (SLURM_ERROR, st', w) /\
    FedMgr.fed_mgr_siblings st' = Some l /\
    FedMgr.fed_mgr_fed_info st' = FedMgr.fed_mgr_fed_info st.
Proof.
  intros Hd H1. unfold FedMgr.fed_mgr_state_load. rewrite Hd. simpl.
  apply list_find_first_absent in H1. unfold local_name in H1.
  destruct (FedMgr.fed_mgr_cluster_name st) eqn:Hn; simpl;
    rewrite ?Hn; simpl; rewrite H1; eexists; repeat split.
Qed.

Lemma load_failure_replaces_roster_witness :
  exists st',
    FedMgr.fed_mgr_state_load (Sample.E 9 (0, 0)) "/var/spool" Sample.load_ok
      Sample.federated [] Sample.fs_sib1_only = Ret (SLURM_ERROR, st', []) /\
    FedMgr.fed_mgr_siblings st' = Some [Sample.sib1] /\
    FedMgr.fed_mgr_fed_info st' = Sample.fedA.
Proof.
  apply (load_failure_replaces_roster (Sample.E 9 (0, 0)) "/var/spool"
           Sample.load_ok Sample.fs_sib1_only 7936 1000 [Sample.sib1]
           Sample.federated []).
  - reflexivity.
  - intros c [<-|[]]. discriminate.
Defined.

(** The same load in the two revisions: fed_mgr.c has lost the roster
    [local; sib1] it had, the revision with _join_federation looks the
    local cluster up in the decoded list before it installs anything and
    keeps its state. *)
Example load_failure_in_both_revisions :
  FedMgr.fed_mgr_state_load (Sample.E 9 (0, 0)) "/var/spool" Sample.load_ok
    Sample.federated [] Sample.fs_sib1_only =
    Ret (SLURM_ERROR,
         FedMgr.set_siblings Sample.federated (Some [Sample.sib1]), []) /\
  FedMgrJoin.fed_mgr_state_load (Sample.E 9 (0, 0)) "/var/spool" Sample.load_ok
    Sample.federated_join [] Sample.fs_sib1_only =
    Ret (SLURM_ERROR, Sample.federated_join, []).
Proof. split; reflexivity. Qed.
(* ------------------------------------------------------------------ *)
(** ** The file system *)

Lemma string_app_empty_r (s : string) : (s ++ EmptyString)%string = s.
Proof.
  induction s as [|c s IH]; [reflexivity|].
  change (String c (s ++ EmptyString)%string = String c s). rewrite IH. reflexivity.
Qed.

Lemma string_app_inj (s a b : string) : (s ++ a)%string = (s ++ b)%string -> a = b.
Proof.
  induction s as [|c s IH]; intros H; [exact H|].
  change (String c (s ++ a)%string = String c (s ++ b)%string) in H.
  injection H as H. exact (IH H).
Qed.

(** The three names of a save are distinct. *)
Lemma state_file_names (reg : string) :
  (reg ++ ".new")%string <> reg /\ (reg ++ ".old")%string <> reg /\
  (reg ++ ".new")%string <> (reg ++ ".old")%string.
Proof.
  repeat split; intros H.
  - rewrite <- (string_app_empty_r reg) in H at 2.
    apply string_app_inj in H. discriminate.
  - rewrite <- (string_app_empty_r reg) in H at 2.
    apply string_app_inj in H. discriminate.
  - apply string_app_inj in H. discriminate.
Qed.

Lemma sys_unlink_inodes (p : string) (inject : option Z) (fs : filesys) :
  inodes (snd (sys_unlink p inject fs)) = inodes fs.
Proof.
  unfold sys_unlink. simpl.
  destruct inject; [reflexivity|]. destruct (dir fs !! p); reflexivity.
Qed.

Lemma sys_unlink_other (p q : string) (inject : option Z) (fs : filesys) :
  q <> p -> dir (snd (sys_unlink p inject fs)) !! q = dir fs !! q.
Proof.
  intros Hne. unfold sys_unlink. simpl.
  destruct inject; [reflexivity|].
  destruct (dir fs !! p); simpl; [|reflexivity].
  apply lookup_delete_ne. congruence.
Qed.

Lemma sys_unlink_gone (p : string) (fs : filesys) :
  dir (snd (sys_unlink p None fs)) !! p = None.
Proof.
  unfold sys_unlink. simpl.
  destruct (dir fs !! p) eqn:Hp; simpl; [apply lookup_delete_eq | exact Hp].
Qed.

Lemma sys_unlink_calls (p : string) (inject : option Z) (fs : filesys) :
  calls (snd (sys_unlink p inject fs)) = SysUnlink p :: calls fs.
Proof.
  unfold sys_unlink. simpl.
  destruct inject; [reflexivity|]. destruct (dir fs !! p); reflexivity.
Qed.

Lemma sys_link_inodes (p q : string) (inject : option Z) (fs : filesys) :
  inodes (snd (sys_link p q inject fs)) = inodes fs.
Proof.
  unfold sys_link. simpl.
  destruct inject; [reflexivity|].
  destruct (dir fs !! p); [|reflexivity]. destruct (dir fs !! q); reflexivity.
Qed.

Lemma sys_link_other (p q r : string) (inject : option Z) (fs : filesys) :
  r <> q -> dir (snd (sys_link p q inject fs)) !! r = dir fs !! r.
Proof.
  intros Hne. unfold sys_link. simpl.
  destruct inject; [reflexivity|].
  destruct (dir fs !! p); [|reflexivity].
  destruct (dir fs !! q); simpl; [reflexivity|].
  apply lookup_insert_ne. congruence.
Qed.

Lemma sys_link_done (p q : string) (i : nat) (fs : filesys) :
  dir fs !! p = Some i -> dir fs !! q = None ->
  dir (snd (sys_link p q None fs)) !! q = Some i.
Proof.
  intros Hp Hq. unfold sys_link. simpl. rewrite Hp, Hq. simpl.
  apply lookup_insert_eq.
Qed.

(** creat leaves every other name alone, and every inode but the one it
    opens; the opened file is empty. *)
Lemma sys_creat_ok (p : string) (fs : filesys) :
  exists i,
    fst (sys_creat p None fs) = inr i /\
    dir (snd (sys_creat p None fs)) !! p = Some i /\
    inodes (snd (sys_creat p None fs)) !! i = Some [] /\
    (forall q, q <> p -> dir (snd (sys_creat p None fs)) !! q = dir fs !! q) /\
    (forall j, j <> i ->
       inodes (snd (sys_creat p None fs)) !! j = inodes fs !! j) /\
    (forall j, is_Some (inodes fs !! j) -> dir fs !! p <> Some j -> j <> i) /\
    calls (snd (sys_creat p None fs)) = SysCreat p :: calls fs.
Proof.
  unfold sys_creat. simpl. destruct (dir fs !! p) as [i|] eqn:Hp; simpl.
  - exists i. split; [reflexivity|]. split; [exact Hp|].
    split; [apply lookup_insert_eq|]. split; [reflexivity|].
    split; [intros j Hj; apply lookup_insert_ne; congruence|].
    split; [congruence | reflexivity].
  - exists (fresh (dom (inodes fs))). split; [reflexivity|].
    split; [apply lookup_insert_eq|]. split; [apply lookup_insert_eq|].
    split; [intros q Hq; apply lookup_insert_ne; congruence|].
    split; [intros j Hj; apply lookup_insert_ne; congruence|].
    split; [|reflexivity].
    intros j Hj _ ->. apply elem_of_dom in Hj.
    exact (is_fresh (dom (inodes fs)) Hj).
Qed.

Lemma write_loop_fails (ns : list nat) (errno : Z) (post : list write_result)
  (i : nat) (data : list Byte.byte) :
  errno <> EINTR ->
  forall (pos nwrite : Z) (fs : filesys),
    0 <= pos -> Z.of_nat (sum_list ns) < nwrite ->
    exists fs1 ws,
      write_loop (map Written ns ++ WriteError errno :: post) i data pos
        nwrite fs = Ret (errno, fs1) /\
      dir fs1 = dir fs /\
      (forall j, j <> i -> inodes fs1 !! j = inodes fs !! j) /\
      calls fs1 = map SysWrite ws ++ calls fs.
Proof.
  intros He. induction ns as [|n ns IH]; intros pos nwrite fs Hpos Hsum.
  - simpl in *. exists fs, [].
    assert (Hn : (nwrite <=? 0) = false) by lia. rewrite Hn.
    apply Z.eqb_neq in He. rewrite He. simpl. auto.
  - simpl in Hsum. simpl.
    assert (Hn : (nwrite <=? 0) = false) by lia. rewrite Hn.
    assert (Hp : (pos <? 0) = false) by lia. rewrite Hp.
    rewrite (Z.min_l (Z.of_nat n) nwrite) by lia.
    set (bytes := firstn (Z.to_nat (Z.of_nat n)) (skipn (Z.to_nat pos) data)).
    destruct (IH (pos + Z.of_nat n) (nwrite - Z.of_nat n)
                 (sys_write i bytes fs)) as (fs1 & ws & Hw & Hd & Hi & Hc);
      [lia | lia |].
    exists fs1, (ws ++ [bytes]). rewrite Hw. repeat split; auto.
    + intros j Hj. rewrite (Hi j Hj). simpl. apply lookup_insert_ne. congruence.
    + rewrite Hc. simpl. rewrite map_app, <- app_assoc. reflexivity.
Qed.


(* ------------------------------------------------------------------ *)
(** ** The state save *)

(** The save of each revision is write_state_file on its buffer. *)
Lemma FedMgr_state_save_buffer (E : env) (loc : string) (now : Z)
  (io : save_io) (st : FedMgr.state) (fs : filesys) :
  FedMgr.fed_mgr_state_save E loc now io st fs =
    write_state_file loc io (save_buffer E (FedMgr.fed_mgr_siblings st) now) fs.
Proof. reflexivity. Qed.

Lemma FedMgrJoin_state_save_buffer (E : env) (loc : string) (now : Z)
  (io : save_io) (st : FedMgrJoin.state) (fs : filesys)
  (my_list : option (list slurmdb_cluster_rec_t)) :
  FedMgrJoin._make_state_save_siblings st = Ret my_list ->
  FedMgrJoin.fed_mgr_state_save E loc now io st fs =
    write_state_file loc io (save_buffer E my_list now) fs.
Proof.
  intros H. unfold FedMgrJoin.fed_mgr_state_save. rewrite H. reflexivity.
Qed.

Lemma write_state_file_write_failure (loc : string) (io : save_io)
  (buffer : list Byte.byte) (fs : filesys) (ns : list nat) (errno : Z)
  (post : list write_result) (old_bytes : list Byte.byte) :
  io_creat io = None ->
  io_writes io = map Written ns ++ WriteError errno :: post ->
  (sum_list ns < length buffer)%nat ->
  errno <> EINTR ->
  errno <> 0 ->
  content fs (reg_file loc) = Some old_bytes ->
  dir fs !! new_file loc <> dir fs !! reg_file loc ->
  exists fs' ws rc,
    write_state_file loc io buffer fs = Ret (errno, fs') /\
    calls fs' =
      SysUnlink (new_file loc) :: SysClose :: SysFsync rc ::
      map SysWrite ws ++ SysCreat (new_file loc) :: calls fs /\
    dir fs' !! reg_file loc = dir fs !! reg_file loc /\
    dir fs' !! old_file loc = dir fs !! old_file loc /\
    content fs' (reg_file loc) = Some old_bytes /\
    (io_unlink_failed io = None -> dir fs' !! new_file loc = None).
Proof.
  intros Hcreat Hwrites Hsum He H0 Hold Halias.
  destruct (state_file_names (reg_file loc)) as (Hnr & Hor & Hno).
  fold (new_file loc) in Hnr, Hno. fold (old_file loc) in Hor, Hno.
  unfold write_state_file.
  fold (reg_file loc). fold (new_file loc). fold (old_file loc).
  rewrite Hcreat, Hwrites.
  destruct (sys_creat_ok (new_file loc) fs)
    as (i & Hfst & Hdi & Hii & Hdo & Hio & Hfresh & Hcalls).
  destruct (sys_creat (new_file loc) None fs) as [r fs0]. simpl in *. subst r.
  destruct (write_loop_fails ns errno post i buffer He 0
              (Z.of_nat (length buffer)) fs0)
    as (fs1 & ws & Hw & Hd1 & Hi1 & Hc1); [lia | lia |].
  rewrite Hw. simpl.
  apply Z.eqb_neq in H0. rewrite H0. simpl.
  set (fs2 := called SysClose (snd (sys_fsync (io_fsync io) fs1))).
  assert (Hd2 : dir fs2 = dir fs0) by (rewrite <- Hd1; reflexivity).
  assert (Hi2 : inodes fs2 = inodes fs1) by reflexivity.
  exists (snd (sys_unlink (new_file loc) (io_unlink_failed io) fs2)), ws,
    (fst (sys_fsync (io_fsync io) fs1)).
  split; [reflexivity|].
  split.
  { rewrite sys_unlink_calls. unfold fs2. simpl. rewrite Hc1, Hcalls.
    reflexivity. }
  assert (Hreg : dir (snd (sys_unlink (new_file loc) (io_unlink_failed io) fs2))
                   !! reg_file loc = dir fs !! reg_file loc).
  { rewrite sys_unlink_other by congruence. rewrite Hd2. apply Hdo. congruence. }
  split; [exact Hreg|].
  split.
  { rewrite sys_unlink_other by congruence. rewrite Hd2. apply Hdo. congruence. }
  split.
  { unfold content in *. rewrite Hreg.
    destruct (dir fs !! reg_file loc) as [j|] eqn:Hj; [|discriminate].
    rewrite sys_unlink_inodes, Hi2.
    assert (Hji : j <> i).
    { apply Hfresh; [rewrite Hold; eauto | exact Halias]. }
    rewrite (Hi1 j Hji), (Hio j Hji). exact Hold. }
  intros Hu. rewrite Hu. apply sys_unlink_gone.
Qed.

(** C2, as amended.  When, after writes that succeeded, a write of the
    .new file fails with an errno other than EINTR, the save of either
    revision returns that errno; the system calls it issues are the
    creat, the writes, the fsync, the close and the unlink of the .new
    file, and no link or unlink of the canonical or the .old name; both
    names are bound as before and the canonical file has the bytes it
    had, provided the .new name was not another name of the canonical
    file; the .new name is gone unless its unlink fails.  The result of
    fsync is not looked at. *)
Theorem save_write_failure (E : env) (loc : string) (now : Z) (io : save_io)
  (my_list : option (list slurmdb_cluster_rec_t)) (fs : filesys)
  (ns : list nat) (errno : Z) (post : list write_result)
  (old_bytes : list Byte.byte) :
  io_creat io = None ->
  io_writes io = map Written ns ++ WriteError errno :: post ->
  (sum_list ns < length (save_buffer E my_list now))%nat ->
  errno <> EINTR ->
  errno <> 0 ->
  content fs (reg_file loc) = Some old_bytes ->
  dir fs !! new_file loc <> dir fs !! reg_file loc ->
  exists fs' ws rc,
    (forall st, FedMgr.fed_mgr_siblings st = my_list ->
       FedMgr.fed_mgr_state_save E loc now io st fs = Ret (errno, fs')) /\
    (forall st, FedMgrJoin._make_state_save_siblings st = Ret my_list ->
       FedMgrJoin.fed_mgr_state_save E loc now io st fs = Ret (errno, fs')) /\
    calls fs' =
      SysUnlink (new_file loc) :: SysClose :: SysFsync rc ::
      map SysWrite ws ++ SysCreat (new_file loc) :: calls fs /\
    dir fs' !! reg_file loc = dir fs !! reg_file loc /\
    dir fs' !! old_file loc = dir fs !! old_file loc /\
    content fs' (reg_file loc) = Some old_bytes /\
    (io_unlink_failed io = None -> dir fs' !! new_file loc = None).
Proof.
  intros Hcreat Hwrites Hsum He H0 Hold Halias.
  destruct (write_state_file_write_failure loc io (save_buffer E my_list now)
              fs ns errno post old_bytes Hcreat Hwrites Hsum He H0 Hold Halias)
    as (fs' & ws & rc & Hsave & Hrest).
  exists fs', ws, rc. split; [|split; [|exact Hrest]].
  - intros st Hst. rewrite FedMgr_state_save_buffer, Hst. exact Hsave.
  - intros st Hst. rewrite (FedMgrJoin_state_save_buffer E loc now io st fs
                              my_list Hst). exact Hsave.
Qed.

Lemma save_write_failure_witness :
  exists fs',
    FedMgr.fed_mgr_state_save (Sample.E 9 (0, 0)) "/var/spool" 2000
      Sample.save_disk_full Sample.federated Sample.fs_unfederated =
      Ret (28, fs') /\
    content fs' Sample.state_file =
      content Sample.fs_unfederated Sample.state_file /\
    dir fs' !! new_file "/var/spool" = None.
Proof.
  destruct (save_write_failure (Sample.E 9 (0, 0)) "/var/spool" 2000
              Sample.save_disk_full
              (Some [Sample.local; Sample.sib1_connected])
              Sample.fs_unfederated [4%nat] 28 []
              (save_buffer (Sample.E 9 (0, 0)) None 1000))
    as (fs' & ws & rc & H1 & _ & _ & _ & _ & Hc & Hn);
    [reflexivity | reflexivity | vm_compute; lia | discriminate
    | discriminate | reflexivity | vm_compute; discriminate |].
  exists fs'. split; [apply H1; reflexivity|]. split; [exact Hc|].
  apply Hn. reflexivity.
Defined.

(** C2, as stated, fails on the fsync: the writes succeed, the fsync
    fails, and the save returns 0 after the whole file shuffle, so that
    the canonical name now holds the new buffer. *)
Lemma save_ignores_fsync_failure :
  exists fs',
    FedMgr.fed_mgr_state_save (Sample.E 9 (0, 0)) "/var/spool" 2000
      Sample.save_fsync_fails Sample.federated Sample.fs_unfederated =
      Ret (0, fs') /\
    In (SysFsync (-1)) (calls fs') /\
    In (SysUnlink (reg_file "/var/spool")) (calls fs') /\
    In (SysLink (new_file "/var/spool") (reg_file "/var/spool")) (calls fs') /\
    content fs' Sample.state_file =
      Some (save_buffer (Sample.E 9 (0, 0))
              (Some [Sample.local; Sample.sib1_connected]) 2000) /\
    content fs' Sample.state_file <>
      content Sample.fs_unfederated Sample.state_file.
Proof.
  eexists. split; [reflexivity|].
  split; [vm_compute; tauto|]. split; [vm_compute; tauto|].
  split; [vm_compute; tauto|]. split; [reflexivity|].
  vm_compute. discriminate.
Qed.

(** The write loop on EINTR: the failed write returned -1, and the loop
    goes on one byte back.  Interrupted after two bytes, the save returns
    0 and the file has one byte more than the buffer; interrupted on the
    first write, the next write starts before the buffer. *)
Example save_interrupted_repeats_a_byte :
  exists fs',
    FedMgr.fed_mgr_state_save (Sample.E 9 (0, 0)) "/var/spool" 2000
      Sample.save_interrupted FedMgr.initial Sample.empty_fs = Ret (0, fs') /\
    content fs' Sample.state_file =
      Some (firstn 2 (save_buffer (Sample.E 9 (0, 0)) None 2000) ++
            skipn 1 (save_buffer (Sample.E 9 (0, 0)) None 2000)).
Proof. eexists. split; reflexivity. Qed.

Example write_loop_interrupted_at_start :
  write_loop [WriteError EINTR; Written 4096] 0
    (save_buffer (Sample.E 9 (0, 0)) None 2000) 0 14 Sample.empty_fs =
    Fault OutOfBounds.
Proof. reflexivity. Qed.

(* ------------------------------------------------------------------ *)
(** ** Save, then load *)

Lemma Z_of_byte_of_Z (z : Z) : Z_of_byte (byte_of_Z z) = z mod 256.
Proof.
  unfold Z_of_byte, byte_of_Z.
  assert (Hr : 0 <= z mod 256 < 256) by (apply Z.mod_pos_bound; lia).
  destruct (Byte.of_N (Z.to_N (z mod 256))) as [b|] eqn:Hb.
  - apply Byte.to_of_N in Hb. rewrite Hb. lia.
  - apply Byte.of_N_None_iff in Hb. lia.
Qed.

Lemma length_pack_be (n : nat) (z : Z) : length (pack_be n z) = n.
Proof. induction n as [|n IH]; simpl; [reflexivity | rewrite IH; reflexivity]. Qed.

Lemma unpack_n_pack_be (n : nat) (z : Z) (rest : list Byte.byte) :
  unpack_n n (pack_be n z ++ rest) = Some (unpack_be 0 (pack_be n z), rest).
Proof.
  unfold unpack_n.
  assert (Hl : (n <=? length (pack_be n z ++ rest))%nat = true).
  { apply Nat.leb_le. rewrite length_app, length_pack_be. lia. }
  rewrite Hl.
  rewrite <- (length_pack_be n z) at 1 3.
  rewrite take_app_length, drop_app_length. reflexivity.
Qed.

Lemma unpack16_pack16 (v : Z) :
  0 <= v < 2 ^ 16 -> unpack_be 0 (pack16 v) = v.
Proof.
  intros Hv. unfold pack16. simpl.
  rewrite !Z_of_byte_of_Z. rewrite Z.shiftr_div_pow2 by lia.
  rewrite Z.shiftr_0_r.
  change (2 ^ 8) with 256.
  rewrite (Z.mod_small (v / 256)) by (split; [apply Z.div_pos; lia | apply Z.div_lt_upper_bound; lia]).
  pose proof (Z.div_mod v 256). lia.
Qed.

Lemma write_loop_done (ws : list write_result) (i : nat)
  (data : list Byte.byte) (pos nwrite : Z) (fs : filesys) :
  nwrite <= 0 -> write_loop ws i data pos nwrite fs = Ret (0, fs).
Proof.
  intros H. assert (Hn : (nwrite <=? 0) = true) by lia.
  destruct ws; simpl; rewrite Hn; reflexivity.
Qed.

(** Writes that all succeed and together take the whole buffer append to
    the open file the bytes from [pos] on. *)
Lemma write_loop_completes (ns : list nat) (rest : list write_result)
  (i : nat) (data : list Byte.byte) :
  forall (pos nwrite : Z) (fs : filesys) (c : list Byte.byte),
    0 <= pos -> 0 <= nwrite -> nwrite <= Z.of_nat (sum_list ns) ->
    inodes fs !! i = Some c ->
    exists fs1,
      write_loop (map Written ns ++ rest) i data pos nwrite fs = Ret (0, fs1) /\
      dir fs1 = dir fs /\
      inodes fs1 !! i =
        Some (c ++ firstn (Z.to_nat nwrite) (skipn (Z.to_nat pos) data)).
Proof.
  induction ns as [|n ns IH]; intros pos nwrite fs c Hpos Hn Hsum Hc.
  - simpl in Hsum. exists fs. rewrite write_loop_done by lia.
    replace nwrite with 0 by lia. simpl. rewrite app_nil_r. auto.
  - destruct (Z.eq_dec nwrite 0) as [->|Hnz].
    + exists fs. rewrite write_loop_done by lia. simpl.
      rewrite app_nil_r. auto.
    + simpl in Hsum. simpl.
      assert (H1 : (nwrite <=? 0) = false) by lia. rewrite H1.
      assert (H2 : (pos <? 0) = false) by lia. rewrite H2.
      set (amount := Z.min (Z.of_nat n) nwrite).
      set (bytes := firstn (Z.to_nat amount) (skipn (Z.to_nat pos) data)).
      assert (Ha : 0 <= amount <= nwrite) by (unfold amount; lia).
      destruct (IH (pos + amount) (nwrite - amount) (sys_write i bytes fs)
                   (c ++ bytes)) as (fs1 & Hw & Hd & Hi);
        [lia | lia | unfold amount; lia | |].
      { simpl. rewrite Hc. simpl. apply lookup_insert_eq. }
      exists fs1. rewrite Hw. split; [reflexivity|]. split; [exact Hd|].
      rewrite Hi. f_equal. rewrite <- app_assoc. f_equal. unfold bytes.
      replace (Z.to_nat (pos + amount))
        with (Z.to_nat pos + Z.to_nat amount)%nat by lia.
      rewrite <- drop_drop, take_take_drop. f_equal. lia.
Qed.

(** The file shuffle, when unlinking the canonical name and linking the
    new file to it go through: the canonical name is the new file. *)
Lemma file_shuffle (loc : string) (io : save_io) (fs : filesys) (i : nat) :
  io_unlink_reg io = None -> io_link_new io = None ->
  dir fs !! new_file loc = Some i ->
  let fs1 := snd (sys_unlink (old_file loc) (io_unlink_old io) fs) in
  let fs2 := snd (sys_link (reg_file loc) (old_file loc) (io_link_old io) fs1) in
  let fs3 := snd (sys_unlink (reg_file loc) (io_unlink_reg io) fs2) in
  let fs4 := snd (sys_link (new_file loc) (reg_file loc) (io_link_new io) fs3) in
  let fs5 := snd (sys_unlink (new_file loc) (io_unlink_new io) fs4) in
  dir fs5 !! reg_file loc = Some i /\ inodes fs5 = inodes fs.
Proof.
  intros Hu Hl Hnew fs1 fs2 fs3 fs4 fs5.
  destruct (state_file_names (reg_file loc)) as (Hnr & Hor & Hno).
  fold (new_file loc) in Hnr, Hno. fold (old_file loc) in Hor, Hno.
  assert (H3n : dir fs3 !! new_file loc = Some i).
  { unfold fs3, fs2, fs1.
    rewrite sys_unlink_other, sys_link_other, sys_unlink_other by congruence.
    exact Hnew. }
  assert (H3r : dir fs3 !! reg_file loc = None).
  { unfold fs3. rewrite Hu. apply sys_unlink_gone. }
  split.
  - unfold fs5. rewrite sys_unlink_other by congruence.
    unfold fs4. rewrite Hl. apply sys_link_done; assumption.
  - unfold fs5, fs4, fs3, fs2, fs1.
    rewrite sys_unlink_inodes, sys_link_inodes, sys_unlink_inodes,
      sys_link_inodes, sys_unlink_inodes. reflexivity.
Qed.

(** A save whose creat and writes succeed, and whose unlink of the
    canonical name and link of the new file to it go through, returns 0
    and leaves the buffer under the canonical name, whatever the fsync
    and the calls on the .old name return. *)
Lemma write_state_file_ok (loc : string) (io : save_io)
  (buffer : list Byte.byte) (fs : filesys) (ns : list nat)
  (rest : list write_result) :
  io_creat io = None ->
  io_writes io = map Written ns ++ rest ->
  (length buffer <= sum_list ns)%nat ->
  io_unlink_reg io = None ->
  io_link_new io = None ->
  exists fs',
    write_state_file loc io buffer fs = Ret (0, fs') /\
    content fs' (reg_file loc) = Some buffer.
Proof.
  intros Hcreat Hwrites Hsum Hu Hl.
  unfold write_state_file.
  fold (reg_file loc). fold (new_file loc). fold (old_file loc).
  rewrite Hcreat, Hwrites.
  destruct (sys_creat_ok (new_file loc) fs)
    as (i & Hfst & Hdi & Hii & _).
  destruct (sys_creat (new_file loc) None fs) as [r fs0]. simpl in *. subst r.
  destruct (write_loop_completes ns rest i buffer 0
              (Z.of_nat (length buffer)) fs0 [] ) as (fs1 & Hw & Hd & Hi);
    [lia | lia | lia | exact Hii |].
  rewrite Hw. cbn [bind]. change (negb (0 =? 0)) with false. cbv iota.
  set (fs2 := called SysClose _).
  assert (Hn2 : dir fs2 !! new_file loc = Some i)
    by (unfold fs2; simpl; rewrite Hd; exact Hdi).
  destruct (file_shuffle loc io fs2 i Hu Hl Hn2) as [Hreg Hino].
  eexists. split; [reflexivity|].
  unfold content. rewrite Hreg, Hino. unfold fs2. simpl. rewrite Hi.
  rewrite Nat2Z.id. change (Z.to_nat 0) with 0%nat.
  rewrite drop_0, firstn_all. reflexivity.
Qed.

(** Decoding the buffer of a save. *)
Lemma decode_saved_file (E : env) (loc : string) (io : load_io) (fs : filesys)
  (my_list my_list' : option (list slurmdb_cluster_rec_t)) (now : Z) :
  content fs (reg_file loc) = Some (save_buffer E my_list now) ->
  io_open io = None ->
  read_loop E (io_reads io) (save_buffer E my_list now) [] =
    Ret (save_buffer E my_list now) ->
  0 <= SLURM_PROTOCOL_VERSION E < 2 ^ 16 ->
  SLURM_MIN_PROTOCOL_VERSION E <= SLURM_PROTOCOL_VERSION E ->
  slurmdbd_unpack_list_msg E (SLURM_PROTOCOL_VERSION E)
    (slurmdbd_pack_list_msg E my_list (SLURM_PROTOCOL_VERSION E)) =
    Some my_list' ->
  exists buf_time,
    decode_state_file E loc io fs =
      Ret (Decoded (SLURM_PROTOCOL_VERSION E) buf_time my_list').
Proof.
  intros Hc Ho Hr Hv Hmin Hu. unfold decode_state_file, sys_open.
  fold (reg_file loc). rewrite Ho, Hc, Hr. cbn [bind].
  unfold save_buffer, safe_unpack16, safe_unpack_time, pack16, pack_time.
  rewrite unpack_n_pack_be. fold (pack16 (SLURM_PROTOCOL_VERSION E)).
  rewrite unpack16_pack16 by exact Hv.
  assert (Hb : (SLURM_PROTOCOL_VERSION E >? SLURM_PROTOCOL_VERSION E)
               || (SLURM_PROTOCOL_VERSION E <? SLURM_MIN_PROTOCOL_VERSION E)
               = false).
  { apply orb_false_iff. split; lia. }
  rewrite Hb, unpack_n_pack_be, Hu. eexists. reflexivity.
Qed.

(** Lists that agree on what is persisted agree on the lookup of a
    cluster by name. *)
Lemma list_find_first_persisted (key : option string)
  (l l' : list slurmdb_cluster_rec_t) (c : slurmdb_cluster_rec_t) :
  map persisted l' = map persisted l ->
  list_find_first l slurmdb_find_cluster_in_list key = Some c ->
  exists c',
    list_find_first l' slurmdb_find_cluster_in_list key = Some c' /\
    persisted c' = persisted c.
Proof.
  unfold list_find_first, slurmdb_find_cluster_in_list.
  revert l'. induction l as [|x l IH]; intros [|x' l'] Hm Hf;
    try discriminate.
  cbn [map] in Hm.
  assert (Hx : persisted x' = persisted x) by congruence.
  assert (Hm' : map persisted l' = map persisted l) by congruence.
  assert (Hn : Cluster.name x' = Cluster.name x)
    by (unfold persisted in Hx; congruence).
  cbn [List.find] in *. rewrite Hn.
  destruct (xstrcmp (Cluster.name x) key =? 0); cbn [negb Z.eqb] in *.
  - injection Hf as Hf. subst c. exists x'. split; [reflexivity | exact Hx].
  - apply IH; assumption.
Qed.

Lemma persisted_endpoint (l l' : list slurmdb_cluster_rec_t) :
  map persisted l' = map persisted l -> map endpoint l' = map endpoint l.
Proof.
  revert l'. induction l as [|x l IH]; intros [|x' l'] Hm;
    try discriminate; [reflexivity|].
  cbn [map] in *.
  assert (Hx : persisted x' = persisted x) by congruence.
  assert (Hm' : map persisted l' = map persisted l) by congruence.
  rewrite (IH l' Hm'). f_equal.
  unfold persisted, endpoint in *. congruence.
Qed.

(** The installing part of the load of fed_mgr.c, on a list that has a
    record named as the local cluster. *)
Lemma FedMgr_load_installs (E : env) (loc : string) (io : load_io)
  (fs : filesys) (ver buf_time : Z) (l : list slurmdb_cluster_rec_t)
  (cluster : slurmdb_cluster_rec_t) (st : FedMgr.state) (w : world) :
  decode_state_file E loc io fs = Ret (Decoded ver buf_time (Some l)) ->
  list_find_first l slurmdb_find_cluster_in_list
    (local_name E (FedMgr.fed_mgr_cluster_name st)) = Some cluster ->
  exists st' w',
    FedMgr.fed_mgr_state_load E loc io st w fs = Ret (SLURM_SUCCESS, st', w') /\
    FedMgr.fed_mgr_siblings st' = Some l /\
    FedMgr.fed_mgr_fed_info st' = Cluster.fed cluster.
Proof.
  intros Hd Hf. unfold FedMgr.fed_mgr_state_load. rewrite Hd. cbn [bind].
  unfold local_name in Hf.
  set (st1 := match FedMgr.fed_mgr_cluster_name (FedMgr.set_siblings st (Some l)) with
              | None => _ | Some _ => _ end).
  assert (Hs1 : FedMgr.fed_mgr_siblings st1 = Some l)
    by (unfold st1; simpl; destruct (FedMgr.fed_mgr_cluster_name st); reflexivity).
  assert (Hn1 : FedMgr.fed_mgr_cluster_name st1 =
                match FedMgr.fed_mgr_cluster_name st with
                | None => slurm_get_cluster_name E
                | Some n => Some n
                end)
    by (unfold st1; simpl; destruct (FedMgr.fed_mgr_cluster_name st) eqn:Hn;
        simpl; [exact Hn | reflexivity]).
  cbv zeta. rewrite Hs1, Hn1, Hf.
  pose proof (FedMgr_init_keeps_identity E
                (FedMgr.set_fed_info st1 (Cluster.fed cluster)) w) as [Hi Hl].
  destruct (FedMgr.fed_mgr_init E
              (FedMgr.set_fed_info st1 (Cluster.fed cluster)) w)
    as [[rc st2] w2].
  simpl in Hi, Hl. exists st2, w2. repeat split; [rewrite Hl; exact Hs1 | exact Hi].
Qed.

(** Reads that each deliver something reach the end of the file: [k]
    reads of up to [n] bytes return a file of fewer than [k] bytes
    whole. *)
Lemma read_loop_whole_file (E : env) (n : nat) :
  (0 < n)%nat -> 0 < BUF_SIZE E ->
  forall (k : nat) (rest data : list Byte.byte),
    (length rest < k)%nat ->
    read_loop E (repeat (ReadData n) k) rest data = Ret (data ++ rest).
Proof.
  intros Hn Hb. induction k as [|k IH]; intros rest data Hk; [lia|].
  simpl.
  set (a := Nat.min n (Nat.min (Z.to_nat (BUF_SIZE E)) (length rest))).
  destruct rest as [|b rest].
  - simpl in a. assert (Ha : a = 0%nat) by (unfold a; lia).
    rewrite Ha. simpl. rewrite app_nil_r. reflexivity.
  - assert (Ha : (1 <= a <= length (b :: rest))%nat)
      by (unfold a; simpl; lia).
    destruct a as [|a']; [lia|]. cbn [Nat.eqb].
    rewrite IH.
    + rewrite <- app_assoc, take_drop. reflexivity.
    + rewrite length_drop. simpl in *. lia.
Qed.

(** The join of fed_mgr.c installs a roster that has, for every cluster
    of the federation, a record with the same name, host, port and
    identity, and takes the identity in memory from the record it
    matched. *)
Lemma FedMgr_add_clusters_persisted (E : env) (cluster_name : option string)
  (l : list slurmdb_cluster_rec_t) (w : world) :
  map persisted (fst (FedMgr.add_clusters E cluster_name l w)) =
    map persisted l.
Proof.
  revert w. induction l as [|c l IH]; intros w; [reflexivity|].
  cbn [FedMgr.add_clusters].
  destruct (negb (xstrcmp (Cluster.name c) cluster_name =? 0)).
  - unfold _open_controller_conn, slurmdb_copy_cluster_rec.
    destruct (Cluster.control_host (Cluster.set_sockfd c (-1)))
      as [[|a s]|];
      match goal with
      | |- context [FedMgr.add_clusters E cluster_name l ?w'] =>
          specialize (IH w');
          destruct (FedMgr.add_clusters E cluster_name l w') as [r w2]
      end; simpl in *; rewrite IH; reflexivity.
  - specialize (IH w).
    destruct (FedMgr.add_clusters E cluster_name l w) as [r w2].
    simpl in *. rewrite IH. reflexivity.
Qed.

Lemma FedMgr_scan_feds_joined (E : env)
  (feds : list slurmdb_federation_rec_t) (st st' : FedMgr.state)
  (w w' : world) :
  FedMgr.scan_feds E feds st w = Ret (true, st', w') ->
  exists clusters cluster L,
    FedMgr.find_local (FedMgr.fed_mgr_cluster_name st) clusters
      = Some cluster /\
    FedMgr.fed_mgr_siblings st' = Some L /\
    map persisted L = map persisted clusters /\
    FedMgr.fed_mgr_fed_info st' = Cluster.fed cluster /\
    FedMgr.fed_mgr_cluster_name st' = FedMgr.fed_mgr_cluster_name st.
Proof.
  induction feds as [|fed feds IH]; simpl; intros H; [discriminate|].
  destruct (Federation.cluster_list fed) as [clusters|]; [|discriminate].
  destruct (FedMgr.find_local (FedMgr.fed_mgr_cluster_name st) clusters)
    as [cluster|] eqn:Hf; [|exact (IH H)].
  match type of H with
  | context [FedMgr.add_clusters E ?cn clusters ?w0] =>
      pose proof (FedMgr_add_clusters_persisted E cn clusters w0) as Hp;
      destruct (FedMgr.add_clusters E cn clusters w0) as [L w2]
  end.
  injection H as <- <-. exists clusters, cluster, L.
  repeat split; [exact Hf | exact Hp].
Qed.

(** A match of the update on a record that carries the local name
    exactly is the record the load looks up. *)
Lemma find_local_exact (cluster_name : option string)
  (l : list slurmdb_cluster_rec_t) (c : slurmdb_cluster_rec_t) :
  FedMgr.find_local cluster_name l = Some c ->
  Cluster.name c = cluster_name ->
  list_find_first l slurmdb_find_cluster_in_list cluster_name = Some c.
Proof.
  unfold FedMgr.find_local, list_find_first, slurmdb_find_cluster_in_list.
  induction l as [|x l IH]; cbn [List.find]; intros Hf Hn; [discriminate|].
  destruct (xstrcasecmp (Cluster.name x) cluster_name =? 0) eqn:Hc.
  - injection Hf as ->. apply xstrcmp_eq in Hn. rewrite Hn. reflexivity.
  - destruct (xstrcmp (Cluster.name x) cluster_name =? 0) eqn:Hx.
    + apply Z.eqb_eq, xstrcmp_xstrcasecmp in Hx. apply Z.eqb_neq in Hc.
      contradiction.
    + cbn [negb Z.eqb]. apply IH; assumption.
Qed.

(** Hence the states the update installs meet the premises of the round
    trip below, when the matched record is named as the local cluster. *)
Lemma FedMgr_joined_has_self (E : env)
  (feds : list slurmdb_federation_rec_t) (st st' : FedMgr.state)
  (w w' : world) :
  FedMgr.scan_feds E feds st w = Ret (true, st', w') ->
  (forall clusters cluster,
     FedMgr.find_local (FedMgr.fed_mgr_cluster_name st) clusters
       = Some cluster ->
     Cluster.name cluster = FedMgr.fed_mgr_cluster_name st) ->
  exists L self,
    FedMgr.fed_mgr_siblings st' = Some L /\
    list_find_first L slurmdb_find_cluster_in_list
      (FedMgr.fed_mgr_cluster_name st') = Some self /\
    Cluster.fed self = FedMgr.fed_mgr_fed_info st'.
Proof.
  intros Hs Hexact.
  destruct (FedMgr_scan_feds_joined E feds st st' w w' Hs)
    as (clusters & cluster & L & Hf & HL & Hp & Hid & Hn).
  pose proof (find_local_exact _ _ _ Hf (Hexact _ _ Hf)) as Hfirst.
  destruct (list_find_first_persisted _ clusters L cluster Hp Hfirst)
    as (self & Hself & Hps).
  exists L, self. rewrite Hn, Hid. repeat split; try assumption.
  unfold persisted in Hps. congruence.
Qed.

(** C8.  In src/slurmctld/fed_mgr.c, a save followed by a load brings
    back a sibling list with the same cluster names, control hosts and
    control ports, record by record, and the same federation identity.
    The roster [L] in memory includes the self-entry, which carries the
    identity in memory, as the join installs them; the identity is not
    written on its own, the load reads it back from the self-entry.  The
    codec of the list message gives [L] back up to the handles; the
    system calls of the save succeed (the fsync apart, whose result is
    ignored) and the reads of the load deliver the file.  The load may
    start from any memory [st0] in which the local cluster goes by the
    same name, the one of a fresh process included. *)
Theorem save_load_round_trip (E : env) (loc : string) (now : Z)
  (io_s : save_io) (io_l : load_io) (fs : filesys)
  (st st0 : FedMgr.state) (w0 : world)
  (L L' : list slurmdb_cluster_rec_t) (self : slurmdb_cluster_rec_t)
  (ns : list nat) (rest : list write_result) :
  FedMgr.fed_mgr_siblings st = Some L ->
  list_find_first L slurmdb_find_cluster_in_list
    (local_name E (FedMgr.fed_mgr_cluster_name st0)) = Some self ->
  Cluster.fed self = FedMgr.fed_mgr_fed_info st ->
  0 <= SLURM_PROTOCOL_VERSION E < 2 ^ 16 ->
  SLURM_MIN_PROTOCOL_VERSION E <= SLURM_PROTOCOL_VERSION E ->
  slurmdbd_unpack_list_msg E (SLURM_PROTOCOL_VERSION E)
    (slurmdbd_pack_list_msg E (Some L) (SLURM_PROTOCOL_VERSION E)) =
    Some (Some L') ->
  map persisted L' = map persisted L ->
  io_creat io_s = None ->
  io_writes io_s = map Written ns ++ rest ->
  (length (save_buffer E (Some L) now) <= sum_list ns)%nat ->
  io_unlink_reg io_s = None ->
  io_link_new io_s = None ->
  io_open io_l = None ->
  read_loop E (io_reads io_l) (save_buffer E (Some L) now) [] =
    Ret (save_buffer E (Some L) now) ->
  exists fs' st' w',
    FedMgr.fed_mgr_state_save E loc now io_s st fs = Ret (0, fs') /\
    FedMgr.fed_mgr_state_load E loc io_l st0 w0 fs' =
      Ret (SLURM_SUCCESS, st', w') /\
    FedMgr.fed_mgr_siblings st' = Some L' /\
    map endpoint L' = map endpoint L /\
    FedMgr.fed_mgr_fed_info st' = FedMgr.fed_mgr_fed_info st.
Proof.
  intros HL Hself Hfed Hv Hmin Hcodec Hper Hcreat Hwrites Hsum Hu Hl Ho Hr.
  unfold FedMgr.fed_mgr_state_save. rewrite HL.
  destruct (write_state_file_ok loc io_s (save_buffer E (Some L) now) fs ns
              rest Hcreat Hwrites Hsum Hu Hl) as (fs' & Hsave & Hcontent).
  destruct (decode_saved_file E loc io_l fs' (Some L) (Some L') now
              Hcontent Ho Hr Hv Hmin Hcodec) as (buf_time & Hdec).
  destruct (list_find_first_persisted _ L L' self Hper Hself)
    as (self' & Hself' & Hp).
  destruct (FedMgr_load_installs E loc io_l fs' _ buf_time L' self' st0 w0
              Hdec Hself') as (st' & w' & Hload & Hsib & Hid).
  exists fs', st', w'. split; [exact Hsave|]. split; [exact Hload|].
  split; [exact Hsib|]. split; [apply persisted_endpoint; exact Hper|].
  rewrite Hid, <- Hfed. unfold persisted in Hp. congruence.
Qed.

Lemma save_load_round_trip_witness :
  exists fs' st' w',
    FedMgr.fed_mgr_state_save (Sample.E 9 (0, 0)) "/var/spool" 1000
      Sample.save_ok Sample.joined Sample.empty_fs = Ret (0, fs') /\
    FedMgr.fed_mgr_state_load (Sample.E 9 (0, 0)) "/var/spool" Sample.load_ok
      FedMgr.initial [] fs' = Ret (SLURM_SUCCESS, st', w') /\
    FedMgr.fed_mgr_siblings st' = Some [Sample.local; Sample.sib1] /\
    map endpoint [Sample.local; Sample.sib1] =
      map endpoint [Sample.local; Cluster.set_sockfd Sample.sib1 9] /\
    FedMgr.fed_mgr_fed_info st' = FedMgr.fed_mgr_fed_info Sample.joined.
Proof.
  apply (save_load_round_trip (Sample.E 9 (0, 0)) "/var/spool" 1000
           Sample.save_ok Sample.load_ok Sample.empty_fs Sample.joined
           FedMgr.initial []
           [Sample.local; Cluster.set_sockfd Sample.sib1 9]
           [Sample.local; Sample.sib1] Sample.local [4096%nat] []);
    try reflexivity.
  - simpl. lia.
  - simpl. lia.
  - apply Nat.leb_le. vm_compute. reflexivity.
Defined.

(** The state of that round trip is the one the update installs in a
    fresh process. *)
Example update_installs_joined :
  FedMgr.fed_mgr_update_feds (Sample.E 9 (0, 0)) (Some Sample.fedA_update)
    FedMgr.initial [] =
    Ret (SLURM_SUCCESS, Sample.joined,
         [EvOpen (Some "h1"%string) 100 9; EvThreadCreate (Some 1)]).
Proof. reflexivity. Qed.

(** The revision with _join_federation on the same file: the local
    cluster goes to fed_mgr_loc_cluster, sib1 is dialed again. *)
Example join_revision_loads_the_same_file :
  exists fs',
    FedMgr.fed_mgr_state_save (Sample.E 9 (0, 0)) "/var/spool" 1000
      Sample.save_ok Sample.joined Sample.empty_fs = Ret (0, fs') /\
    FedMgrJoin.fed_mgr_state_load (Sample.E 9 (0, 0)) "/var/spool"
      Sample.load_ok FedMgrJoin.initial [] fs' =
      Ret (SLURM_SUCCESS,
           {| FedMgrJoin.fed_mgr_cluster_name := Some "local"%string;
              FedMgrJoin.fed_mgr_fed_info := Sample.fedA;
              FedMgrJoin.fed_mgr_siblings :=
                Some [Cluster.set_sockfd Sample.sib1 9];
              FedMgrJoin.fed_mgr_loc_cluster := Some Sample.local;
              FedMgrJoin.ping_thread := 1;
              FedMgrJoin.stop_pinging := false |},
           [EvThreadCreate (Some 1); EvOpen (Some "h1"%string) 100 9]).
Proof. eexists. split; reflexivity. Qed.

(* ------------------------------------------------------------------ *)
(** ** The callers of _open_controller_conn

    The guards that C6 attributes to the open are in the loop of the
    ping thread: the record of the local cluster is passed over
    (fed_mgr.c), and a record is opened only when its handle is -1. *)

Lemma FedMgr_ping_skips_self (E : env) (cluster_name : option string)
  (conn : slurmdb_cluster_rec_t) (w : world) :
  xstrcasecmp (Cluster.name conn) cluster_name = 0 ->
  FedMgr.ping_conns E cluster_name [conn] w = ([conn], w).
Proof. intros H. simpl. rewrite H. reflexivity. Qed.

Lemma FedMgr_ping_connected_without_dial (E : env)
  (cluster_name : option string) (conn : slurmdb_cluster_rec_t) (w : world) :
  xstrcasecmp (Cluster.name conn) cluster_name <> 0 ->
  Cluster.sockfd conn <> -1 ->
  FedMgr.ping_conns E cluster_name [conn] w =
    ([snd (fst (_ping_controller E conn w))], snd (_ping_controller E conn w)).
Proof.
  intros Hn Hs. simpl.
  apply Z.eqb_neq in Hn. apply Z.eqb_neq in Hs. rewrite Hn, Hs.
  cbv beta iota zeta. rewrite Hs.
  destruct (_ping_controller E conn w) as [[rc c] w']. reflexivity.
Qed.

Lemma FedMgrJoin_ping_connected_without_dial (E : env)
  (conn : slurmdb_cluster_rec_t) (w : world) :
  Cluster.sockfd conn <> -1 ->
  FedMgrJoin.ping_conns E [conn] w =
    ([snd (fst (_ping_controller E conn w))], snd (_ping_controller E conn w)).
Proof.
  intros Hs. simpl. apply Z.eqb_neq in Hs. rewrite Hs.
  cbv beta iota zeta. rewrite Hs.
  destruct (_ping_controller E conn w) as [[rc c] w']. reflexivity.
Qed.

(* ================================================================== *)
(** * Further properties *)

(* ------------------------------------------------------------------ *)
(** ** Federated job ids, both directions *)

(** X1.  Every 32-bit job id splits into a local id below 2^26 and a
    cluster id below 2^6, and composing the two gives the job id back:
    the decomposition loses nothing. *)
Theorem job_id_decompose_compose (id : Z) (name : option string) :
  0 <= id < 2 ^ 32 ->
  0 <= fed_mgr_get_local_id id < 2 ^ 26 /\
  0 <= fed_mgr_get_cluster_id id < 2 ^ 6 /\
  fed_mgr_get_job_id
    {| Fed.id := fed_mgr_get_cluster_id id; Fed.name := name |}
    (fed_mgr_get_local_id id) = id.
Proof.
  intros Hid.
  unfold fed_mgr_get_local_id, fed_mgr_get_cluster_id, fed_mgr_get_job_id,
    MAX_JOB_ID, FED_MGR_CLUSTER_ID_BEGIN, uint32. cbn [Fed.id].
  change (Z.shiftl 1 26 - 1) with (Z.ones 26).
  rewrite Z.land_ones by lia. rewrite Z.shiftr_div_pow2 by lia.
  rewrite Z.shiftl_mul_pow2 by lia.
  assert (Hl : 0 <= id mod 2 ^ 26 < 2 ^ 26) by (apply Z.mod_pos_bound; lia).
  assert (Hc : 0 <= id / 2 ^ 26 < 2 ^ 6).
  { split; [apply Z.div_pos; lia | apply Z.div_lt_upper_bound; lia]. }
  split; [exact Hl|]. split; [exact Hc|].
  rewrite (Z.mod_small (id / 2 ^ 26 * 2 ^ 26)) by lia.
  pose proof (Z.div_mod id (2 ^ 26)) as Hdm.
  rewrite Z.mod_small by lia. lia.
Qed.

Lemma job_id_decompose_compose_witness :
  0 <= fed_mgr_get_local_id 469763282 < 2 ^ 26 /\
  0 <= fed_mgr_get_cluster_id 469763282 < 2 ^ 6 /\
  fed_mgr_get_job_id
    {| Fed.id := fed_mgr_get_cluster_id 469763282; Fed.name := None |}
    (fed_mgr_get_local_id 469763282) = 469763282.
Proof. apply (job_id_decompose_compose 469763282 None). simpl. lia. Defined.

(** X2.  Only the six low bits of the federation id reach the job id:
    for a federation id of up to 32 bits the cluster id read back is the
    federation id modulo 64, the shift having pushed the rest out of the
    uint32_t; the local id is read back unchanged. *)
Theorem job_id_keeps_six_bits_of_cluster (info : fed_elem_t) (localId : Z) :
  0 <= localId < 2 ^ 26 ->
  0 <= Fed.id info < 2 ^ 32 ->
  fed_mgr_get_local_id (fed_mgr_get_job_id info localId) = localId /\
  fed_mgr_get_cluster_id (fed_mgr_get_job_id info localId) =
    Fed.id info mod 2 ^ 6.
Proof.
  intros Hl Hc.
  unfold fed_mgr_get_local_id, fed_mgr_get_cluster_id, fed_mgr_get_job_id,
    MAX_JOB_ID, FED_MGR_CLUSTER_ID_BEGIN, uint32.
  set (c := Fed.id info) in *.
  rewrite Z.shiftl_mul_pow2 by lia.
  assert (Hm : (c * 2 ^ 26) mod 2 ^ 32 = (c mod 2 ^ 6) * 2 ^ 26).
  { change (2 ^ 32) with (2 ^ 6 * 2 ^ 26).
    rewrite Z.mul_mod_distr_r by lia. reflexivity. }
  rewrite Hm.
  assert (Hk : 0 <= c mod 2 ^ 6 < 2 ^ 6) by (apply Z.mod_pos_bound; lia).
  rewrite (Z.mod_small (localId + c mod 2 ^ 6 * 2 ^ 26)) by lia.
  split.
  - change (Z.shiftl 1 26 - 1) with (Z.ones 26).
    rewrite Z.land_ones by lia.
    rewrite Z.mod_add by lia. apply Z.mod_small; lia.
  - rewrite Z.shiftr_div_pow2 by lia.
    rewrite Z.div_add by lia. rewrite Z.div_small by lia. lia.
Qed.

Lemma job_id_keeps_six_bits_of_cluster_witness :
  fed_mgr_get_local_id
    (fed_mgr_get_job_id {| Fed.id := 70; Fed.name := None |} 5) = 5 /\
  fed_mgr_get_cluster_id
    (fed_mgr_get_job_id {| Fed.id := 70; Fed.name := None |} 5) = 70 mod 2 ^ 6.
Proof.
  apply (job_id_keeps_six_bits_of_cluster {| Fed.id := 70; Fed.name := None |} 5);
    simpl; lia.
Defined.

(* ------------------------------------------------------------------ *)
(** ** Closing and reopening a connection; fed_mgr_init *)

(** X3.  _close_controller_conn leaves the handle at -1 whatever it
    was, calls the transport only when the handle was a descriptor, and
    is idempotent: closing again issues no call and returns
    SLURM_SUCCESS. *)
Theorem close_controller_conn_idempotent (E : env)
  (conn : slurmdb_cluster_rec_t) (w : world) :
  let r := _close_controller_conn E conn w in
  snd (fst r) = Cluster.set_sockfd conn (-1) /\
  snd r =
    (if 0 <=? Cluster.sockfd conn
     then [EvClose (Cluster.sockfd conn) (fst (fst r))] else []) ++ w /\
  _close_controller_conn E (snd (fst r)) (snd r) =
    (SLURM_SUCCESS, snd (fst r), snd r).
Proof.
  unfold _close_controller_conn.
  destruct (0 <=? Cluster.sockfd conn) eqn:Hs; cbn; repeat split.
Qed.

(** X4.  A close followed by an open on the same record dials the host
    and port of the record and leaves in the handle what the dial
    returned, whatever the handle was before the close. *)
Theorem close_then_open (E : env) (conn : slurmdb_cluster_rec_t) (w : world) :
  Cluster.control_host conn <> Some EmptyString ->
  let closed := _close_controller_conn E conn w in
  let fd :=
    slurm_open_persist_controller_conn E (snd closed)
      (Cluster.control_host conn) (Cluster.control_port conn) in
  _open_controller_conn E (snd (fst closed)) (snd closed) =
    (fd, Cluster.set_sockfd conn fd,
     EvOpen (Cluster.control_host conn) (Cluster.control_port conn) fd
       :: snd closed).
Proof.
  intros Hh closed fd. subst closed fd.
  unfold _open_controller_conn, _close_controller_conn, Cluster.set_sockfd.
  destruct conn as [name host port fed sockfd]. cbn in *.
  destruct (0 <=? sockfd); cbn;
    destruct host as [[|a s]|]; try congruence; reflexivity.
Qed.

Lemma close_then_open_witness :
  _open_controller_conn (Sample.E 9 (0, 0))
    (snd (fst (_close_controller_conn (Sample.E 9 (0, 0))
                 Sample.sib1_connected [])))
    (snd (_close_controller_conn (Sample.E 9 (0, 0))
            Sample.sib1_connected [])) =
    (9, Cluster.set_sockfd Sample.sib1_connected 9,
     [EvOpen (Some "h1"%string) 100 9; EvClose 5 0]).
Proof.
  apply (close_then_open (Sample.E 9 (0, 0)) Sample.sib1_connected []).
  discriminate.
Defined.


(* ------------------------------------------------------------------ *)
(** ** Lookup of a sibling by control host *)

Lemma find_sibling_by_ip_hit (c : slurmdb_cluster_rec_t) (ip : option string) :
  negb (_find_sibling_by_ip c ip =? 0) = true <-> Cluster.control_host c = ip.
Proof.
  unfold _find_sibling_by_ip.
  destruct (xstrcmp (Cluster.control_host c) ip =? 0) eqn:Hx; cbn.
  - apply Z.eqb_eq, xstrcmp_eq in Hx. tauto.
  - apply Z.eqb_neq in Hx. split; [discriminate|].
    intros H. apply xstrcmp_eq in H. contradiction.
Qed.

(** X6.  fed_mgr_find_sibling_name_by_ip answers with the name of the
    first sibling whose control host is the address asked for. *)
Theorem find_sibling_name_by_ip_first_match
  (l1 l2 : list slurmdb_cluster_rec_t) (c : slurmdb_cluster_rec_t)
  (ip : option string) :
  Forall (fun c' => Cluster.control_host c' <> ip) l1 ->
  Cluster.control_host c = ip ->
  fed_mgr_find_sibling_name_by_ip (Some (l1 ++ c :: l2)) ip = Cluster.name c.
Proof.
  intros Hl1 Hc. unfold fed_mgr_find_sibling_name_by_ip, list_find_first.
  induction Hl1 as [|c' l1 Hc' Hl1 IH]; cbn [app List.find].
  - apply find_sibling_by_ip_hit in Hc. rewrite Hc. reflexivity.
  - destruct (negb (_find_sibling_by_ip c' ip =? 0)) eqn:Hh; [|exact IH].
    apply find_sibling_by_ip_hit in Hh. contradiction.
Qed.

Lemma find_sibling_name_by_ip_first_match_witness :
  fed_mgr_find_sibling_name_by_ip
    (Some ([Sample.local] ++ Sample.sib1 :: [Sample.sib1_connected]))
    (Some "h1"%string) = Some "sib1"%string.
Proof.
  apply (find_sibling_name_by_ip_first_match [Sample.local]
           [Sample.sib1_connected] Sample.sib1 (Some "h1"%string)).
  - repeat constructor. discriminate.
  - reflexivity.
Defined.

(** X7.  A name that fed_mgr_find_sibling_name_by_ip returns is the
    name of a sibling of the list whose control host is the address
    asked for. *)
Theorem find_sibling_name_by_ip_sound
  (siblings : option (list slurmdb_cluster_rec_t)) (ip : option string)
  (name : string) :
  fed_mgr_find_sibling_name_by_ip siblings ip = Some name ->
  exists l c,
    siblings = Some l /\ In c l /\
    Cluster.control_host c = ip /\ Cluster.name c = Some name.
Proof.
  unfold fed_mgr_find_sibling_name_by_ip, list_find_first.
  destruct siblings as [l|]; [|discriminate].
  destruct (List.find _ l) as [c|] eqn:Hf; [|discriminate].
  intros Hn. apply find_some in Hf as [Hin Hh].
  apply find_sibling_by_ip_hit in Hh. exists l, c. auto.
Qed.

Lemma find_sibling_name_by_ip_sound_witness :
  exists l c,
    Some [Sample.local; Sample.sib1] = Some l /\ In c l /\
    Cluster.control_host c = Some "h1"%string /\
    Cluster.name c = Some "sib1"%string.
Proof.
  apply (find_sibling_name_by_ip_sound (Some [Sample.local; Sample.sib1])
           (Some "h1"%string) "sib1"%string).
  reflexivity.
Defined.

(** X8.  When no sibling has the address as its control host,
    fed_mgr_find_sibling_name_by_ip returns NULL. *)
Theorem find_sibling_name_by_ip_absent
  (l : list slurmdb_cluster_rec_t) (ip : option string) :
  Forall (fun c => Cluster.control_host c <> ip) l ->
  fed_mgr_find_sibling_name_by_ip (Some l) ip = None.
Proof.
  intros Hl. unfold fed_mgr_find_sibling_name_by_ip, list_find_first.
  induction Hl as [|c l Hc Hl IH]; cbn [List.find]; [reflexivity|].
  destruct (negb (_find_sibling_by_ip c ip =? 0)) eqn:Hh; [|exact IH].
  apply find_sibling_by_ip_hit in Hh. contradiction.
Qed.

Lemma find_sibling_name_by_ip_absent_witness :
  fed_mgr_find_sibling_name_by_ip (Some [Sample.local; Sample.sib1])
    (Some "h2"%string) = None.
Proof.
  apply (find_sibling_name_by_ip_absent [Sample.local; Sample.sib1]
           (Some "h2"%string)).
  repeat constructor; discriminate.
Defined.

(** The lookup depends on names and hosts only. *)
Lemma find_sibling_name_by_ip_persisted
  (l l' : list slurmdb_cluster_rec_t) (ip : option string) :
  map persisted l' = map persisted l ->
  fed_mgr_find_sibling_name_by_ip (Some l') ip =
    fed_mgr_find_sibling_name_by_ip (Some l) ip.
Proof.
  unfold fed_mgr_find_sibling_name_by_ip, list_find_first.
  revert l'. induction l as [|x l IH]; intros [|x' l'] Hm;
    try discriminate; [reflexivity|].
  cbn [map] in Hm.
  assert (Hx : persisted x' = persisted x) by congruence.
  assert (Hm' : map persisted l' = map persisted l) by congruence.
  cbn [List.find]. unfold _find_sibling_by_ip at 1 3.
  assert (Hh : Cluster.control_host x' = Cluster.control_host x)
    by (unfold persisted in Hx; congruence).
  assert (Hn : Cluster.name x' = Cluster.name x)
    by (unfold persisted in Hx; congruence).
  rewrite Hh.
  destruct (xstrcmp (Cluster.control_host x) ip =? 0); cbn;
    [exact Hn | apply IH; exact Hm'].
Qed.

(* ------------------------------------------------------------------ *)
(** ** The update that joins *)

Lemma open_controller_conn_handle_only (E : env)
  (c : slurmdb_cluster_rec_t) (w : world) :
  snd (fst (_open_controller_conn E c w)) =
    Cluster.set_sockfd c (fst (fst (_open_controller_conn E c w))).
Proof.
  unfold _open_controller_conn.
  destruct (Cluster.control_host c) as [[|a s]|]; reflexivity.
Qed.

Lemma open_controller_conn_persisted (E : env)
  (c : slurmdb_cluster_rec_t) (w : world) :
  persisted (snd (fst (_open_controller_conn E c w))) = persisted c.
Proof. rewrite open_controller_conn_handle_only. reflexivity. Qed.

(** Federations that do not list the local cluster are passed over. *)
Lemma FedMgr_scan_feds_skip (E : env)
  (before rest : list slurmdb_federation_rec_t) (st : FedMgr.state)
  (w : world) :
  forallb has_cluster_list before = true ->
  existsb (lists_cluster (FedMgr.fed_mgr_cluster_name st)) before = false ->
  FedMgr.scan_feds E (before ++ rest) st w = FedMgr.scan_feds E rest st w.
Proof.
  induction before as [|fed before IH]; cbn [app forallb existsb];
    intros Hl Hn; [reflexivity|].
  apply andb_prop in Hl as [Hl1 Hl2].
  apply orb_false_elim in Hn as [Hn1 Hn2].
  unfold has_cluster_list in Hl1. unfold lists_cluster in Hn1.
  cbn [FedMgr.scan_feds].
  destruct (Federation.cluster_list fed) as [clusters|]; [|discriminate].
  unfold FedMgr.find_local. rewrite (find_existsb_false _ _ Hn1).
  apply IH; assumption.
Qed.

Lemma FedMgrJoin_scan_feds_skip (E : env)
  (before rest : list slurmdb_federation_rec_t) (st : FedMgrJoin.state)
  (w : world) :
  forallb has_cluster_list before = true ->
  existsb (lists_cluster (FedMgrJoin.fed_mgr_cluster_name st)) before = false ->
  FedMgrJoin.scan_feds E (before ++ rest) st w =
    FedMgrJoin.scan_feds E rest st w.
Proof.
  induction before as [|fed before IH]; cbn [app forallb existsb];
    intros Hl Hn; [reflexivity|].
  apply andb_prop in Hl as [Hl1 Hl2].
  apply orb_false_elim in Hn as [Hn1 Hn2].
  unfold has_cluster_list in Hl1. unfold lists_cluster in Hn1.
  cbn [FedMgrJoin.scan_feds].
  destruct (Federation.cluster_list fed) as [clusters|]; [|discriminate].
  unfold FedMgrJoin.find_local. rewrite (find_existsb_false _ _ Hn1).
  apply IH; assumption.
Qed.

(** The roster of a join of fed_mgr.c: the records named exactly as the
    local cluster are not dialed. *)
Lemma FedMgr_add_clusters_self (E : env) (cluster_name : option string)
  (l : list slurmdb_cluster_rec_t) (w : world) :
  Forall (fun c => Cluster.name c = cluster_name -> Cluster.sockfd c = -1)
    (fst (FedMgr.add_clusters E cluster_name l w)).
Proof.
  revert w. induction l as [|c l IH]; intros w; [constructor|].
  cbn [FedMgr.add_clusters].
  destruct (xstrcmp (Cluster.name c) cluster_name =? 0) eqn:Hx; cbn [negb].
  - specialize (IH w).
    destruct (FedMgr.add_clusters E cluster_name l w) as [r w2].
    cbn. constructor; [reflexivity | exact IH].
  - pose proof (open_controller_conn_handle_only E
                  (slurmdb_copy_cluster_rec c) w) as Ho.
    destruct (_open_controller_conn E (slurmdb_copy_cluster_rec c) w)
      as [[rc c'] w1]. cbn in Ho. subst c'.
    specialize (IH w1).
    destruct (FedMgr.add_clusters E cluster_name l w1) as [r w2].
    cbn. constructor; [|exact IH].
    intros Hn. cbn in Hn. apply xstrcmp_eq in Hn.
    apply Z.eqb_neq in Hx. contradiction.
Qed.

(** The roster of a join of the other revision: the clusters that are
    not named exactly as the local cluster, in order. *)
Lemma FedMgrJoin_add_siblings_persisted (E : env)
  (cluster_name : option string) (l : list slurmdb_cluster_rec_t)
  (w : world) :
  map persisted (fst (FedMgrJoin.add_siblings E cluster_name l w)) =
    map persisted
      (List.filter
         (fun c => negb (xstrcmp (Cluster.name c) cluster_name =? 0)) l).
Proof.
  revert w. induction l as [|c l IH]; intros w; [reflexivity|].
  cbn [FedMgrJoin.add_siblings List.filter].
  destruct (xstrcmp (Cluster.name c) cluster_name =? 0) eqn:Hx; cbn [negb].
  - apply IH.
  - pose proof (open_controller_conn_persisted E
                  (slurmdb_copy_cluster_rec c) w) as Ho.
    destruct (_open_controller_conn E (slurmdb_copy_cluster_rec c) w)
      as [[rc c'] w1]. cbn in Ho.
    specialize (IH w1).
    destruct (FedMgrJoin.add_siblings E cluster_name l w1) as [r w2].
    cbn in *. rewrite IH, Ho. reflexivity.
Qed.

Lemma filter_not_named (cluster_name : option string)
  (l : list slurmdb_cluster_rec_t) :
  Forall (fun p => fst (fst (fst p)) <> cluster_name)
    (map persisted
       (List.filter
          (fun c => negb (xstrcmp (Cluster.name c) cluster_name =? 0)) l)).
Proof.
  induction l as [|c l IH]; cbn [List.filter]; [constructor|].
  destruct (xstrcmp (Cluster.name c) cluster_name =? 0) eqn:Hx; cbn [negb];
    [exact IH|].
  cbn. constructor; [|exact IH].
  cbn. intros Hn. apply xstrcmp_eq in Hn. apply Z.eqb_neq in Hx.
  contradiction.
Qed.

(** X9.  fed_mgr_update_feds of fed_mgr.c joins the first federation
    of the batch that lists the local cluster: the federations before
    it are passed over and the ones after it are not looked at.  The
    identity in memory becomes the one of the matched record, the roster
    gets one record per member with the same name, host, port and
    identity, the records named exactly as the local cluster are not
    dialed, and a lookup by control host answers as on the member
    list. *)
Theorem update_joins_first_listing_federation (E : env)
  (before after : list slurmdb_federation_rec_t)
  (fed : slurmdb_federation_rec_t)
  (clusters : list slurmdb_cluster_rec_t) (cluster : slurmdb_cluster_rec_t)
  (st : FedMgr.state) (w : world) :
  forallb has_cluster_list before = true ->
  existsb (lists_cluster
             (FedMgr.fed_mgr_cluster_name
                (snd (fst (FedMgr.fed_mgr_init E st w))))) before = false ->
  Federation.cluster_list fed = Some clusters ->
  FedMgr.find_local
    (FedMgr.fed_mgr_cluster_name (snd (fst (FedMgr.fed_mgr_init E st w))))
    clusters = Some cluster ->
  exists st' w' L,
    FedMgr.fed_mgr_update_feds E (Some (before ++ fed :: after)) st w =
      Ret (SLURM_SUCCESS, st', w') /\
    FedMgr.fed_mgr_cluster_name st' =
      FedMgr.fed_mgr_cluster_name (snd (fst (FedMgr.fed_mgr_init E st w))) /\
    FedMgr.fed_mgr_fed_info st' = Cluster.fed cluster /\
    FedMgr.fed_mgr_siblings st' = Some L /\
    map persisted L = map persisted clusters /\
    Forall (fun c => Cluster.name c = FedMgr.fed_mgr_cluster_name st' ->
                     Cluster.sockfd c = -1) L /\
    (forall ip,
       fed_mgr_find_sibling_name_by_ip (FedMgr.fed_mgr_siblings st') ip =
         fed_mgr_find_sibling_name_by_ip (Some clusters) ip).
Proof.
  intros Hl Hn Hc Hf. unfold FedMgr.fed_mgr_update_feds.
  destruct (FedMgr.fed_mgr_init E st w) as [[rc st0] w0]. cbn in Hn, Hf |- *.
  rewrite (FedMgr_scan_feds_skip E before (fed :: after) st0 w0 Hl Hn).
  cbn [FedMgr.scan_feds]. rewrite Hc, Hf.
  set (cn := FedMgr.fed_mgr_cluster_name
               (FedMgr.set_fed_info st0 (Cluster.fed cluster))).
  set (w1 := match FedMgr.fed_mgr_siblings
                     (FedMgr.set_fed_info st0 (Cluster.fed cluster)) with
             | Some old => _ | None => _ end).
  pose proof (FedMgr_add_clusters_persisted E cn clusters w1) as Hp.
  pose proof (FedMgr_add_clusters_self E cn clusters w1) as Hs.
  destruct (FedMgr.add_clusters E cn clusters w1) as [L w2].
  cbn in Hp, Hs |- *.
  exists (FedMgr.set_siblings (FedMgr.set_fed_info st0 (Cluster.fed cluster))
            (Some L)), w2, L.
  repeat split; try assumption.
  intros ip. cbn. apply find_sibling_name_by_ip_persisted. exact Hp.
Qed.

Lemma update_joins_first_listing_federation_witness :
  exists st' w' L,
    FedMgr.fed_mgr_update_feds (Sample.E 9 (0, 0))
      (Some ([Sample.fedB_without_local] ++
             {| Federation.name := Some "fedA"%string;
                Federation.cluster_list := Some [Sample.local; Sample.sib1] |}
             :: [])) FedMgr.initial [] =
      Ret (SLURM_SUCCESS, st', w') /\
    FedMgr.fed_mgr_cluster_name st' = Some "local"%string /\
    FedMgr.fed_mgr_fed_info st' = Sample.fedA /\
    FedMgr.fed_mgr_siblings st' = Some L /\
    map persisted L = map persisted [Sample.local; Sample.sib1] /\
    Forall (fun c => Cluster.name c = FedMgr.fed_mgr_cluster_name st' ->
                     Cluster.sockfd c = -1) L /\
    (forall ip,
       fed_mgr_find_sibling_name_by_ip (FedMgr.fed_mgr_siblings st') ip =
         fed_mgr_find_sibling_name_by_ip
           (Some [Sample.local; Sample.sib1]) ip).
Proof.
  apply (update_joins_first_listing_federation (Sample.E 9 (0, 0))
           [Sample.fedB_without_local] []
           {| Federation.name := Some "fedA"%string;
              Federation.cluster_list := Some [Sample.local; Sample.sib1] |}
           [Sample.local; Sample.sib1] Sample.local FedMgr.initial []);
    reflexivity.
Defined.

Lemma FedMgrJoin_join_installs (E : env) (db_cluster : slurmdb_cluster_rec_t)
  (siblings : list slurmdb_cluster_rec_t) (st : FedMgrJoin.state) (w : world) :
  let st' := fst (FedMgrJoin._join_federation E db_cluster siblings st w) in
  FedMgrJoin.fed_mgr_cluster_name st' = FedMgrJoin.fed_mgr_cluster_name st /\
  FedMgrJoin.fed_mgr_fed_info st' = Cluster.fed db_cluster /\
  FedMgrJoin.fed_mgr_loc_cluster st' =
    Some (slurmdb_copy_cluster_rec db_cluster) /\
  FedMgrJoin.stop_pinging st' = false /\
  exists L,
    FedMgrJoin.fed_mgr_siblings st' = Some L /\
    map persisted L =
      map persisted
        (List.filter
           (fun c => negb (xstrcmp (Cluster.name c)
                             (FedMgrJoin.fed_mgr_cluster_name st) =? 0))
           siblings).
Proof.
  unfold FedMgrJoin._join_federation.
  set (w1 := match FedMgrJoin.fed_mgr_siblings st with
             | Some _ => _ | None => _ end).
  pose proof (FedMgrJoin_add_siblings_persisted E
                (FedMgrJoin.fed_mgr_cluster_name st) siblings w1) as Hp.
  destruct (FedMgrJoin.add_siblings E (FedMgrJoin.fed_mgr_cluster_name st)
              siblings w1) as [L w2].
  unfold FedMgrJoin._create_ping_thread. cbn [fst] in Hp.
  cbn -[Z.eqb]. destruct (FedMgrJoin.ping_thread st =? 0);
    [destruct (pthread_create E w2)|]; cbn; repeat split; eauto.
Qed.

(** X10.  In the revision with _join_federation the same update keeps
    the matched record, copied, in fed_mgr_loc_cluster, and installs as
    siblings the members that are not named exactly as the local
    cluster, in order; no sibling carries the local name, and the ping
    thread is not told to stop. *)
Theorem join_revision_update_joins (E : env)
  (before after : list slurmdb_federation_rec_t)
  (fed : slurmdb_federation_rec_t)
  (clusters : list slurmdb_cluster_rec_t) (cluster : slurmdb_cluster_rec_t)
  (st : FedMgrJoin.state) (w : world) :
  forallb has_cluster_list before = true ->
  existsb (lists_cluster
             (FedMgrJoin.fed_mgr_cluster_name
                (snd (FedMgrJoin.fed_mgr_init E st)))) before = false ->
  Federation.cluster_list fed = Some clusters ->
  FedMgrJoin.find_local
    (FedMgrJoin.fed_mgr_cluster_name (snd (FedMgrJoin.fed_mgr_init E st)))
    clusters = Some cluster ->
  exists st' w' L,
    FedMgrJoin.fed_mgr_update_feds E (Some (before ++ fed :: after)) st w =
      Ret (SLURM_SUCCESS, st', w') /\
    FedMgrJoin.fed_mgr_cluster_name st' =
      FedMgrJoin.fed_mgr_cluster_name (snd (FedMgrJoin.fed_mgr_init E st)) /\
    FedMgrJoin.fed_mgr_fed_info st' = Cluster.fed cluster /\
    FedMgrJoin.fed_mgr_loc_cluster st' =
      Some (slurmdb_copy_cluster_rec cluster) /\
    FedMgrJoin.stop_pinging st' = false /\
    FedMgrJoin.fed_mgr_siblings st' = Some L /\
    map persisted L =
      map persisted
        (List.filter
           (fun c => negb (xstrcmp (Cluster.name c)
                             (FedMgrJoin.fed_mgr_cluster_name st') =? 0))
           clusters) /\
    Forall (fun c => Cluster.name c <> FedMgrJoin.fed_mgr_cluster_name st') L.
Proof.
  intros Hl Hn Hc Hf. unfold FedMgrJoin.fed_mgr_update_feds.
  destruct (FedMgrJoin.fed_mgr_init E st) as [rc st0]. cbn in Hn, Hf |- *.
  rewrite (FedMgrJoin_scan_feds_skip E before (fed :: after) st0 w Hl Hn).
  cbn [FedMgrJoin.scan_feds]. rewrite Hc, Hf.
  pose proof (FedMgrJoin_join_installs E cluster clusters st0 w)
    as (Hcn & Hid & Hloc & Hstop & L & HL & Hp).
  destruct (FedMgrJoin._join_federation E cluster clusters st0 w)
    as [st' w']. cbn in *.
  exists st', w', L. rewrite Hcn. repeat split; try assumption.
  pose proof (filter_not_named (FedMgrJoin.fed_mgr_cluster_name st0) clusters)
    as Hnn.
  rewrite <- Hp in Hnn. clear -Hnn.
  induction L as [|c L IH]; [constructor|].
  inversion Hnn; subst. constructor; [assumption | apply IH; assumption].
Qed.

Lemma join_revision_update_joins_witness :
  exists st' w' L,
    FedMgrJoin.fed_mgr_update_feds (Sample.E 9 (0, 0))
      (Some ([Sample.fedB_without_local] ++
             {| Federation.name := Some "fedA"%string;
                Federation.cluster_list := Some [Sample.local; Sample.sib1] |}
             :: [])) FedMgrJoin.initial [] =
      Ret (SLURM_SUCCESS, st', w') /\
    FedMgrJoin.fed_mgr_cluster_name st' = Some "local"%string /\
    FedMgrJoin.fed_mgr_fed_info st' = Sample.fedA /\
    FedMgrJoin.fed_mgr_loc_cluster st' =
      Some (slurmdb_copy_cluster_rec Sample.local) /\
    FedMgrJoin.stop_pinging st' = false /\
    FedMgrJoin.fed_mgr_siblings st' = Some L /\
    map persisted L =
      map persisted
        (List.filter
           (fun c => negb (xstrcmp (Cluster.name c)
                             (FedMgrJoin.fed_mgr_cluster_name st') =? 0))
           [Sample.local; Sample.sib1]) /\
    Forall (fun c => Cluster.name c <> FedMgrJoin.fed_mgr_cluster_name st') L.
Proof.
  apply (join_revision_update_joins (Sample.E 9 (0, 0))
           [Sample.fedB_without_local] []
           {| Federation.name := Some "fedA"%string;
              Federation.cluster_list := Some [Sample.local; Sample.sib1] |}
           [Sample.local; Sample.sib1] Sample.local FedMgrJoin.initial []);
    reflexivity.
Defined.

(* ------------------------------------------------------------------ *)
(** ** A pass of the ping thread *)

Lemma ping_controller_cases (E : env) (c : slurmdb_cluster_rec_t) (w : world) :
  (fst (slurm_send_recv_msg E w (Cluster.sockfd c)) <> 0 /\
   snd (fst (_ping_controller E c w)) = Cluster.set_sockfd c (-1)) \/
  (fst (slurm_send_recv_msg E w (Cluster.sockfd c)) = 0 /\
   snd (fst (_ping_controller E c w)) = c).
Proof.
  unfold _ping_controller, _send_recv_msg.
  destruct (slurm_send_recv_msg E w (Cluster.sockfd c)) as [rc code]. cbn.
  destruct (rc =? 0) eqn:Hrc; cbn.
  - right. split; [lia | reflexivity].
  - left. split; [lia | reflexivity].
Qed.

Lemma FedMgr_ping_conns_cons (E : env) (cn : option string)
  (conn : slurmdb_cluster_rec_t) (rest : list slurmdb_cluster_rec_t)
  (w : world) :
  FedMgr.ping_conns E cn (conn :: rest) w =
    let '(conn', w1) :=
      if xstrcasecmp (Cluster.name conn) cn =? 0 then (conn, w)
      else ping_one E conn w in
    let '(rest', w') := FedMgr.ping_conns E cn rest w1 in
    (conn' :: rest', w').
Proof. reflexivity. Qed.

Lemma FedMgrJoin_ping_conns_cons (E : env)
  (conn : slurmdb_cluster_rec_t) (rest : list slurmdb_cluster_rec_t)
  (w : world) :
  FedMgrJoin.ping_conns E (conn :: rest) w =
    let '(conn', w1) := ping_one E conn w in
    let '(rest', w') := FedMgrJoin.ping_conns E rest w1 in
    (conn' :: rest', w').
Proof.
  cbn [FedMgrJoin.ping_conns]. unfold ping_one.
  destruct (Cluster.sockfd conn =? -1);
    [destruct (_open_controller_conn E conn w) as [[rc c] w1]|];
    reflexivity.
Qed.

Lemma ping_one_persisted (E : env) (c : slurmdb_cluster_rec_t) (w : world) :
  persisted (fst (ping_one E c w)) = persisted c.
Proof.
  unfold ping_one.
  destruct (Cluster.sockfd c =? -1).
  - pose proof (open_controller_conn_persisted E c w) as Ho.
    destruct (_open_controller_conn E c w) as [[rc c1] w1]. cbn in Ho.
    destruct (Cluster.sockfd c1 =? -1); [exact Ho|].
    destruct (ping_controller_cases E c1 w1) as [[_ H]|[_ H]];
      destruct (_ping_controller E c1 w1) as [[rc2 c2] w2]; cbn in *;
      subst c2; exact Ho.
  - destruct (Cluster.sockfd c =? -1); [reflexivity|].
    destruct (ping_controller_cases E c w) as [[_ H]|[_ H]];
      destruct (_ping_controller E c w) as [[rc2 c2] w2]; cbn in *;
      subst c2; reflexivity.
Qed.

Lemma ping_one_transport_down (E : env) (c : slurmdb_cluster_rec_t)
  (w : world) :
  (forall w fd, fst (slurm_send_recv_msg E w fd) <> 0) ->
  Cluster.sockfd (fst (ping_one E c w)) = -1.
Proof.
  intros Hdown. unfold ping_one.
  assert (Hping : forall c w,
            Cluster.sockfd (snd (fst (_ping_controller E c w))) = -1).
  { intros c0 w0. destruct (ping_controller_cases E c0 w0) as [[_ H]|[H _]];
      [rewrite H; reflexivity | exfalso; exact (Hdown _ _ H)]. }
  destruct (Cluster.sockfd c =? -1) eqn:Hs.
  - destruct (_open_controller_conn E c w) as [[rc c1] w1].
    destruct (Cluster.sockfd c1 =? -1) eqn:Hs1; [cbn; lia|].
    specialize (Hping c1 w1).
    destruct (_ping_controller E c1 w1) as [[rc2 c2] w2]. exact Hping.
  - rewrite Hs. specialize (Hping c w).
    destruct (_ping_controller E c w) as [[rc2 c2] w2]. exact Hping.
Qed.

Lemma ping_one_transport_up (E : env) (c : slurmdb_cluster_rec_t)
  (w : world) :
  (forall w host port, slurm_open_persist_controller_conn E w host port <> -1) ->
  (forall w fd, fst (slurm_send_recv_msg E w fd) = 0) ->
  Cluster.control_host c <> Some EmptyString ->
  Cluster.sockfd (fst (ping_one E c w)) <> -1.
Proof.
  intros Hdial Hup Hh. unfold ping_one.
  assert (Hping : forall c w, snd (fst (_ping_controller E c w)) = c).
  { intros c0 w0. destruct (ping_controller_cases E c0 w0) as [[H _]|[_ H]];
      [exfalso; exact (H (Hup _ _)) | exact H]. }
  destruct (Cluster.sockfd c =? -1) eqn:Hs.
  - assert (Ho : Cluster.sockfd (snd (fst (_open_controller_conn E c w)))
                  <> -1).
    { unfold _open_controller_conn.
      destruct (Cluster.control_host c) as [[|a s]|]; try congruence;
        cbn; apply Hdial. }
    destruct (_open_controller_conn E c w) as [[rc c1] w1]. cbn in Ho.
    apply Z.eqb_neq in Ho. rewrite Ho. specialize (Hping c1 w1).
    destruct (_ping_controller E c1 w1) as [[rc2 c2] w2]. cbn in *. subst c2.
    apply Z.eqb_neq. exact Ho.
  - rewrite Hs. specialize (Hping c w).
    destruct (_ping_controller E c w) as [[rc2 c2] w2]. cbn in *. subst c2.
    apply Z.eqb_neq. exact Hs.
Qed.

Lemma is_local_persisted (cn : option string) (c c' : slurmdb_cluster_rec_t) :
  persisted c' = persisted c -> is_local cn c' = is_local cn c.
Proof.
  intros H. unfold is_local.
  assert (Hn : Cluster.name c' = Cluster.name c)
    by (unfold persisted in H; congruence).
  rewrite Hn. reflexivity.
Qed.

Lemma has_empty_host_persisted (c c' : slurmdb_cluster_rec_t) :
  persisted c' = persisted c -> has_empty_host c' = has_empty_host c.
Proof.
  intros H. unfold has_empty_host.
  assert (Hn : Cluster.control_host c' = Cluster.control_host c)
    by (unfold persisted in H; congruence).
  rewrite Hn. reflexivity.
Qed.

(** X11.  A pass of the ping thread changes handles only: name, host,
    port and identity of every record stay, and in fed_mgr.c the records
    of the local cluster are left as they are, handle included. *)
Theorem ping_pass_changes_only_handles (E : env) (cn : option string)
  (l : list slurmdb_cluster_rec_t) (w : world) :
  map persisted (fst (FedMgr.ping_conns E cn l w)) = map persisted l /\
  List.filter (is_local cn) (fst (FedMgr.ping_conns E cn l w)) =
    List.filter (is_local cn) l /\
  map persisted (fst (FedMgrJoin.ping_conns E l w)) = map persisted l.
Proof.
  split; [|split].
  - revert w. induction l as [|c l IH]; intros w; [reflexivity|].
    rewrite FedMgr_ping_conns_cons.
    destruct (xstrcasecmp (Cluster.name c) cn =? 0).
    + specialize (IH w). destruct (FedMgr.ping_conns E cn l w) as [r w2].
      cbn in *. rewrite IH. reflexivity.
    + pose proof (ping_one_persisted E c w) as Hp.
      destruct (ping_one E c w) as [c' w1]. specialize (IH w1).
      destruct (FedMgr.ping_conns E cn l w1) as [r w2].
      cbn in *. rewrite IH, Hp. reflexivity.
  - revert w. induction l as [|c l IH]; intros w; [reflexivity|].
    rewrite FedMgr_ping_conns_cons. cbn [List.filter].
    destruct (xstrcasecmp (Cluster.name c) cn =? 0) eqn:Hc.
    + specialize (IH w). destruct (FedMgr.ping_conns E cn l w) as [r w2].
      cbn [fst List.filter] in *. change (is_local cn c = true) in Hc.
      rewrite Hc, IH. reflexivity.
    + pose proof (ping_one_persisted E c w) as Hp.
      destruct (ping_one E c w) as [c' w1]. specialize (IH w1).
      destruct (FedMgr.ping_conns E cn l w1) as [r w2].
      cbn [fst List.filter] in *.
      rewrite (is_local_persisted cn c c' Hp).
      change (is_local cn c = false) in Hc. rewrite Hc. exact IH.
  - revert w. induction l as [|c l IH]; intros w; [reflexivity|].
    rewrite FedMgrJoin_ping_conns_cons.
    pose proof (ping_one_persisted E c w) as Hp.
    destruct (ping_one E c w) as [c' w1]. specialize (IH w1).
    destruct (FedMgrJoin.ping_conns E l w1) as [r w2].
    cbn in *. rewrite IH, Hp. reflexivity.
Qed.

(** X12.  When every round trip fails, a pass of the ping thread
    leaves every sibling (in fed_mgr.c: every record but the local
    cluster's) with the handle -1, whether it was connected before or
    has just been dialed. *)
Theorem ping_pass_transport_down (E : env) (cn : option string)
  (l : list slurmdb_cluster_rec_t) (w : world) :
  (forall w fd, fst (slurm_send_recv_msg E w fd) <> 0) ->
  Forall (fun c => Cluster.sockfd c = -1)
    (List.filter (fun c => negb (is_local cn c))
       (fst (FedMgr.ping_conns E cn l w))) /\
  Forall (fun c => Cluster.sockfd c = -1) (fst (FedMgrJoin.ping_conns E l w)).
Proof.
  intros Hdown. split.
  - revert w. induction l as [|c l IH]; intros w; [constructor|].
    rewrite FedMgr_ping_conns_cons.
    destruct (xstrcasecmp (Cluster.name c) cn =? 0) eqn:Hc.
    + specialize (IH w). destruct (FedMgr.ping_conns E cn l w) as [r w2].
      cbn [fst List.filter] in *. change (is_local cn c = true) in Hc.
      rewrite Hc. exact IH.
    + pose proof (ping_one_persisted E c w) as Hp.
      pose proof (ping_one_transport_down E c w Hdown) as Hd.
      destruct (ping_one E c w) as [c' w1]. specialize (IH w1).
      destruct (FedMgr.ping_conns E cn l w1) as [r w2].
      cbn [fst List.filter] in *.
      rewrite (is_local_persisted cn c c' Hp).
      change (is_local cn c = false) in Hc. rewrite Hc. cbn [negb].
      constructor; assumption.
  - revert w. induction l as [|c l IH]; intros w; [constructor|].
    rewrite FedMgrJoin_ping_conns_cons.
    pose proof (ping_one_transport_down E c w Hdown) as Hd.
    destruct (ping_one E c w) as [c' w1]. specialize (IH w1).
    destruct (FedMgrJoin.ping_conns E l w1) as [r w2].
    cbn in *. constructor; assumption.
Qed.

Lemma ping_pass_transport_down_witness :
  Forall (fun c => Cluster.sockfd c = -1)
    (List.filter (fun c => negb (is_local (Some "local"%string) c))
       (fst (FedMgr.ping_conns (Sample.E 9 (-1, 0)) (Some "local"%string)
               [Sample.local; Sample.sib1_connected] []))) /\
  Forall (fun c => Cluster.sockfd c = -1)
    (fst (FedMgrJoin.ping_conns (Sample.E 9 (-1, 0))
            [Sample.local; Sample.sib1_connected] [])).
Proof.
  apply (ping_pass_transport_down (Sample.E 9 (-1, 0)) (Some "local"%string)).
  intros w fd. discriminate.
Defined.

(** X13.  When every dial returns a descriptor and every round trip
    succeeds, a pass of the ping thread leaves every sibling with a
    control host connected, whatever return code the responses carry. *)
Theorem ping_pass_transport_up (E : env) (cn : option string)
  (l : list slurmdb_cluster_rec_t) (w : world) :
  (forall w host port, slurm_open_persist_controller_conn E w host port <> -1) ->
  (forall w fd, fst (slurm_send_recv_msg E w fd) = 0) ->
  Forall (fun c => Cluster.sockfd c <> -1)
    (List.filter (fun c => negb (is_local cn c) && negb (has_empty_host c))
       (fst (FedMgr.ping_conns E cn l w))) /\
  Forall (fun c => Cluster.sockfd c <> -1)
    (List.filter (fun c => negb (has_empty_host c))
       (fst (FedMgrJoin.ping_conns E l w))).
Proof.
  intros Hdial Hup.
  assert (Hone : forall c w, has_empty_host c = false ->
            Cluster.sockfd (fst (ping_one E c w)) <> -1).
  { intros c0 w0 Hh. apply ping_one_transport_up; try assumption.
    unfold has_empty_host in Hh. intros Heq. rewrite Heq in Hh.
    discriminate. }
  split.
  - revert w. induction l as [|c l IH]; intros w; [constructor|].
    rewrite FedMgr_ping_conns_cons.
    destruct (xstrcasecmp (Cluster.name c) cn =? 0) eqn:Hc.
    + specialize (IH w). destruct (FedMgr.ping_conns E cn l w) as [r w2].
      cbn [fst List.filter] in *. change (is_local cn c = true) in Hc.
      rewrite Hc. exact IH.
    + pose proof (ping_one_persisted E c w) as Hp.
      pose proof (Hone c w) as Hd.
      destruct (ping_one E c w) as [c' w1]. specialize (IH w1).
      destruct (FedMgr.ping_conns E cn l w1) as [r w2].
      cbn [fst List.filter] in *.
      rewrite (is_local_persisted cn c c' Hp),
        (has_empty_host_persisted c c' Hp).
      change (is_local cn c = false) in Hc. rewrite Hc. cbn [negb andb].
      destruct (has_empty_host c); cbn [negb]; [exact IH|].
      constructor; [apply Hd; reflexivity | exact IH].
  - revert w. induction l as [|c l IH]; intros w; [constructor|].
    rewrite FedMgrJoin_ping_conns_cons.
    pose proof (ping_one_persisted E c w) as Hp.
    pose proof (Hone c w) as Hd.
    destruct (ping_one E c w) as [c' w1]. specialize (IH w1).
    destruct (FedMgrJoin.ping_conns E l w1) as [r w2].
    cbn [fst List.filter] in *.
    rewrite (has_empty_host_persisted c c' Hp).
    destruct (has_empty_host c); cbn [negb]; [exact IH|].
    constructor; [apply Hd; reflexivity | exact IH].
Qed.

Lemma ping_pass_transport_up_witness :
  Forall (fun c => Cluster.sockfd c <> -1)
    (List.filter
       (fun c => negb (is_local (Some "local"%string) c)
                 && negb (has_empty_host c))
       (fst (FedMgr.ping_conns (Sample.E 9 (0, 1)) (Some "local"%string)
               [Sample.local; Sample.sib1] []))) /\
  Forall (fun c => Cluster.sockfd c <> -1)
    (List.filter (fun c => negb (has_empty_host c))
       (fst (FedMgrJoin.ping_conns (Sample.E 9 (0, 1))
               [Sample.local; Sample.sib1] []))).
Proof.
  apply (ping_pass_transport_up (Sample.E 9 (0, 1)) (Some "local"%string)).
  - intros w host port. discriminate.
  - intros w fd. reflexivity.
Defined.

(* ------------------------------------------------------------------ *)
(** ** Leaving: fed_mgr_fini and _leave_federation *)

(** The closing loop of fed_mgr.c. *)
Lemma FedMgr_close_conns_spec (E : env) (cn : option string)
  (l : list slurmdb_cluster_rec_t) (w : world) :
  exists evs,
    snd (FedMgr.close_conns E cn l w) = evs ++ w /\
    forallb is_close evs = true /\
    (forall c, In c l -> is_local cn c = false -> 0 <= Cluster.sockfd c ->
       exists rc, In (EvClose (Cluster.sockfd c) rc) evs) /\
    map persisted (fst (FedMgr.close_conns E cn l w)) = map persisted l /\
    List.filter (is_local cn) (fst (FedMgr.close_conns E cn l w)) =
      List.filter (is_local cn) l /\
    Forall (fun c => Cluster.sockfd c = -1)
      (List.filter (fun c => negb (is_local cn c))
         (fst (FedMgr.close_conns E cn l w))).
Proof.
  revert w. induction l as [|c l IH]; intros w.
  - exists []. split; [reflexivity|]. split; [reflexivity|].
    split; [intros c0 []|]. repeat split; constructor.

  - cbn [FedMgr.close_conns].
    destruct (xstrcasecmp (Cluster.name c) cn =? 0) eqn:Hc.
    + change (is_local cn c = true) in Hc.
      destruct (IH w) as (evs & Hw & Hcl & Hin & Hp & Hs & Hd).
      destruct (FedMgr.close_conns E cn l w) as [r w2]. cbn [fst snd] in *.
      exists evs. split; [exact Hw|]. split; [exact Hcl|].
      split; [|split; [|split]].
      * intros c0 [<-|Hc0] Hl0 Hs0; [congruence | eauto].
      * cbn. rewrite Hp. reflexivity.
      * cbn [List.filter]. rewrite Hc, Hs. reflexivity.
      * cbn [List.filter]. rewrite Hc. exact Hd.
    + change (is_local cn c = false) in Hc.
      unfold _close_controller_conn.
      destruct (0 <=? Cluster.sockfd c) eqn:Hfd; cbn [fst snd].
      * set (rc := slurm_close_persist_controller_conn E w (Cluster.sockfd c)).
        destruct (IH (EvClose (Cluster.sockfd c) rc :: w))
          as (evs & Hw & Hcl & Hin & Hp & Hs & Hd).
        destruct (FedMgr.close_conns E cn l (EvClose (Cluster.sockfd c) rc :: w))
          as [r w2]. cbn [fst snd] in *.
        exists (evs ++ [EvClose (Cluster.sockfd c) rc]).
        split; [rewrite Hw, <- app_assoc; reflexivity|].
        split; [rewrite forallb_app, Hcl; reflexivity|].
        split; [|split; [|split]].
        -- intros c0 [<-|Hc0] Hl0 Hs0.
           ++ exists rc. apply in_or_app. right. left. reflexivity.
           ++ destruct (Hin c0 Hc0 Hl0 Hs0) as [rc0 Hrc0]. exists rc0.
              apply in_or_app. left. exact Hrc0.
        -- cbn. rewrite Hp. reflexivity.
        -- cbn [List.filter].
           change (is_local cn (Cluster.set_sockfd c (-1)))
             with (is_local cn c). rewrite Hc. exact Hs.
        -- cbn [List.filter].
           change (is_local cn (Cluster.set_sockfd c (-1)))
             with (is_local cn c). rewrite Hc. cbn [negb].
           constructor; [reflexivity | exact Hd].
      * destruct (IH w) as (evs & Hw & Hcl & Hin & Hp & Hs & Hd).
        destruct (FedMgr.close_conns E cn l w) as [r w2]. cbn [fst snd] in *.
        exists evs. split; [exact Hw|]. split; [exact Hcl|].
        split; [|split; [|split]].
        -- intros c0 [<-|Hc0] Hl0 Hs0; [lia | eauto].
        -- cbn. rewrite Hp. reflexivity.
        -- cbn [List.filter].
           change (is_local cn (Cluster.set_sockfd c (-1)))
             with (is_local cn c). rewrite Hc. exact Hs.
        -- cbn [List.filter].
           change (is_local cn (Cluster.set_sockfd c (-1)))
             with (is_local cn c). rewrite Hc. cbn [negb].
           constructor; [reflexivity | exact Hd].
Qed.

(** The closing loop of the other revision. *)
Lemma FedMgrJoin_close_conns_spec (E : env)
  (l : list slurmdb_cluster_rec_t) (w : world) :
  exists evs,
    snd (FedMgrJoin.close_conns E l w) = evs ++ w /\
    forallb is_close evs = true /\
    (forall c, In c l -> 0 <= Cluster.sockfd c ->
       exists rc, In (EvClose (Cluster.sockfd c) rc) evs) /\
    map persisted (fst (FedMgrJoin.close_conns E l w)) = map persisted l /\
    Forall (fun c => Cluster.sockfd c = -1) (fst (FedMgrJoin.close_conns E l w)).
Proof.
  revert w. induction l as [|c l IH]; intros w.
  - exists []. split; [reflexivity|]. split; [reflexivity|].
    split; [intros c0 []|]. repeat split; constructor.

  - cbn [FedMgrJoin.close_conns]. unfold _close_controller_conn.
    destruct (0 <=? Cluster.sockfd c) eqn:Hfd; cbn [fst snd].
    + set (rc := slurm_close_persist_controller_conn E w (Cluster.sockfd c)).
      destruct (IH (EvClose (Cluster.sockfd c) rc :: w))
        as (evs & Hw & Hcl & Hin & Hp & Hd).
      destruct (FedMgrJoin.close_conns E l (EvClose (Cluster.sockfd c) rc :: w))
        as [r w2]. cbn [fst snd] in *.
      exists (evs ++ [EvClose (Cluster.sockfd c) rc]).
      split; [rewrite Hw, <- app_assoc; reflexivity|].
      split; [rewrite forallb_app, Hcl; reflexivity|].
      split; [|split].
      * intros c0 [<-|Hc0] Hs0.
        -- exists rc. apply in_or_app. right. left. reflexivity.
        -- destruct (Hin c0 Hc0 Hs0) as [rc0 Hrc0]. exists rc0.
           apply in_or_app. left. exact Hrc0.
      * cbn. rewrite Hp. reflexivity.
      * constructor; [reflexivity | exact Hd].
    + destruct (IH w) as (evs & Hw & Hcl & Hin & Hp & Hd).
      destruct (FedMgrJoin.close_conns E l w) as [r w2]. cbn [fst snd] in *.
      exists evs. split; [exact Hw|]. split; [exact Hcl|].
      split; [|split].
      * intros c0 [<-|Hc0] Hs0; [lia | eauto].
      * cbn. rewrite Hp. reflexivity.
      * constructor; [reflexivity | exact Hd].
Qed.

(** X14.  fed_mgr_fini of fed_mgr.c closes the descriptor of every
    connected sibling but the local cluster's, cancels the ping thread
    when there is one, and leaves no identity, no roster and no cluster
    name. *)
Theorem fini_closes_every_connection (E : env) (locked : bool)
  (st : FedMgr.state) (w : world) (l : list slurmdb_cluster_rec_t) :
  FedMgr.fed_mgr_siblings st = Some l ->
  exists st' evs,
    FedMgr.fed_mgr_fini E locked st w = (SLURM_SUCCESS, st', evs ++ w) /\
    FedMgr.fed_mgr_is_active st' = false /\
    FedMgr.fed_mgr_siblings st' = None /\
    FedMgr.fed_mgr_cluster_name st' = None /\
    (forall c, In c l ->
       is_local (FedMgr.fed_mgr_cluster_name st) c = false ->
       0 <= Cluster.sockfd c ->
       exists rc, In (EvClose (Cluster.sockfd c) rc) evs) /\
    (FedMgr.ping_thread st <> 0 ->
     In (EvThreadCancel (FedMgr.ping_thread st)) evs).
Proof.
  intros Hl. unfold FedMgr.fed_mgr_fini, FedMgr._close_sibling_conns.
  rewrite Hl.
  destruct (FedMgr_close_conns_spec E (FedMgr.fed_mgr_cluster_name st) l w)
    as (evs & Hw & _ & Hin & _).
  destruct (FedMgr.close_conns E (FedMgr.fed_mgr_cluster_name st) l w)
    as [l' w1]. cbn [fst snd] in *. subst w1.
  cbn [FedMgr.ping_thread FedMgr.set_siblings].
  destruct (FedMgr.ping_thread st =? 0) eqn:Ht; cbn [negb].
  - eexists. exists evs. split; [reflexivity|]. repeat split; auto.
    intros Hne. lia.
  - eexists. exists (EvThreadCancel (FedMgr.ping_thread st) :: evs).
    split; [reflexivity|]. repeat split; auto.
    + intros c Hc Hloc Hs. destruct (Hin c Hc Hloc Hs) as [rc Hrc].
      exists rc. right. exact Hrc.
    + intros _. left. reflexivity.
Qed.

Lemma fini_closes_every_connection_witness :
  exists st' evs,
    FedMgr.fed_mgr_fini (Sample.E 9 (0, 0)) false Sample.federated [] =
      (SLURM_SUCCESS, st', evs ++ []) /\
    FedMgr.fed_mgr_is_active st' = false /\
    FedMgr.fed_mgr_siblings st' = None /\
    FedMgr.fed_mgr_cluster_name st' = None /\
    (forall c, In c [Sample.local; Sample.sib1_connected] ->
       is_local (FedMgr.fed_mgr_cluster_name Sample.federated) c = false ->
       0 <= Cluster.sockfd c ->
       exists rc, In (EvClose (Cluster.sockfd c) rc) evs) /\
    (FedMgr.ping_thread Sample.federated <> 0 ->
     In (EvThreadCancel (FedMgr.ping_thread Sample.federated)) evs).
Proof.
  apply (fini_closes_every_connection (Sample.E 9 (0, 0)) false
           Sample.federated [] [Sample.local; Sample.sib1_connected]).
  reflexivity.
Defined.

(** X15.  _leave_federation, when federated, does nothing to the world
    but close the descriptor of every connected sibling; it clears
    identity, roster and local cluster record, tells the ping thread to
    stop and forgets it, and keeps the cluster name. *)
Theorem leave_closes_every_connection (E : env) (st : FedMgrJoin.state)
  (w : world) (l : list slurmdb_cluster_rec_t) :
  FedMgrJoin.fed_mgr_is_active st = true ->
  FedMgrJoin.fed_mgr_siblings st = Some l ->
  exists st' evs,
    FedMgrJoin._leave_federation E st w = (st', evs ++ w) /\
    FedMgrJoin.fed_mgr_is_active st' = false /\
    FedMgrJoin.fed_mgr_siblings st' = None /\
    FedMgrJoin.fed_mgr_loc_cluster st' = None /\
    FedMgrJoin.stop_pinging st' = true /\
    FedMgrJoin.ping_thread st' = 0 /\
    FedMgrJoin.fed_mgr_cluster_name st' = FedMgrJoin.fed_mgr_cluster_name st /\
    forallb is_close evs = true /\
    (forall c, In c l -> 0 <= Cluster.sockfd c ->
       exists rc, In (EvClose (Cluster.sockfd c) rc) evs).
Proof.
  intros Ha Hl. unfold FedMgrJoin.fed_mgr_is_active in Ha.
  unfold FedMgrJoin._leave_federation, FedMgrJoin._close_sibling_conns.
  destruct (Fed.name (FedMgrJoin.fed_mgr_fed_info st)); [|discriminate].
  rewrite Hl.
  destruct (FedMgrJoin_close_conns_spec E l w) as (evs & Hw & Hcl & Hin & _).
  destruct (FedMgrJoin.close_conns E l w) as [l' w1]. cbn [fst snd] in *.
  subst w1. eexists. exists evs. split; [reflexivity|].
  repeat split; auto.
Qed.

Lemma leave_closes_every_connection_witness :
  exists st' evs,
    FedMgrJoin._leave_federation (Sample.E 9 (0, 0)) Sample.federated_join [] =
      (st', evs ++ []) /\
    FedMgrJoin.fed_mgr_is_active st' = false /\
    FedMgrJoin.fed_mgr_siblings st' = None /\
    FedMgrJoin.fed_mgr_loc_cluster st' = None /\
    FedMgrJoin.stop_pinging st' = true /\
    FedMgrJoin.ping_thread st' = 0 /\
    FedMgrJoin.fed_mgr_cluster_name st' = Some "local"%string /\
    forallb is_close evs = true /\
    (forall c, In c [Sample.sib1_connected] -> 0 <= Cluster.sockfd c ->
       exists rc, In (EvClose (Cluster.sockfd c) rc) evs).
Proof.
  apply (leave_closes_every_connection (Sample.E 9 (0, 0))
           Sample.federated_join [] [Sample.sib1_connected]);
    reflexivity.
Defined.

Lemma FedMgrJoin_add_siblings_events (E : env) (cn : option string)
  (l : list slurmdb_cluster_rec_t) (w : world) :
  exists evs,
    snd (FedMgrJoin.add_siblings E cn l w) = evs ++ w /\
    forallb is_open evs = true.
Proof.
  revert w. induction l as [|c l IH]; intros w.
  - exists []. split; reflexivity.
  - cbn [FedMgrJoin.add_siblings].
    destruct (xstrcmp (Cluster.name c) cn =? 0); [apply IH|].
    unfold _open_controller_conn.
    destruct (Cluster.control_host (slurmdb_copy_cluster_rec c))
      as [[|a s]|];
      match goal with
      | |- context [FedMgrJoin.add_siblings E cn l ?w0] =>
          destruct (IH w0) as (evs & Hw & Ho);
          destruct (FedMgrJoin.add_siblings E cn l w0) as [r w2]
      end; cbn [fst snd] in *.
    + exists evs. split; assumption.
    + eexists (evs ++ [_]). rewrite Hw, <- app_assoc.
      split; [reflexivity|]. rewrite forallb_app, Ho. reflexivity.
    + eexists (evs ++ [_]). rewrite Hw, <- app_assoc.
      split; [reflexivity|]. rewrite forallb_app, Ho. reflexivity.
Qed.

Lemma no_thread_create_among (P : event -> bool) (evs : list event) :
  (forall e, P e = true -> is_thread_create e = false) ->
  forallb P evs = true -> List.filter is_thread_create evs = [].
Proof.
  intros HP. induction evs as [|e evs IH]; cbn; intros H; [reflexivity|].
  apply andb_prop in H as [H1 H2]. rewrite (HP e H1). apply IH. exact H2.
Qed.

(** X16.  _join_federation calls pthread_create once when no ping
    thread is on record and not at all when one is, in which case the
    thread on record stays. *)
Theorem join_starts_prober_once (E : env) (db_cluster : slurmdb_cluster_rec_t)
  (siblings : list slurmdb_cluster_rec_t) (st : FedMgrJoin.state) (w : world) :
  length (List.filter is_thread_create
            (snd (FedMgrJoin._join_federation E db_cluster siblings st w))) =
    ((if (FedMgrJoin.ping_thread st =? 0)%Z then 1 else 0) +
     length (List.filter is_thread_create w))%nat /\
  (FedMgrJoin.ping_thread st =? 0)
  || (FedMgrJoin.ping_thread
        (fst (FedMgrJoin._join_federation E db_cluster siblings st w))
      =? FedMgrJoin.ping_thread st) = true.
Proof.
  unfold FedMgrJoin._join_federation.
  set (w1 := match FedMgrJoin.fed_mgr_siblings st with
             | Some _ => _ | None => _ end).
  assert (H1 : List.filter is_thread_create w1 =
               List.filter is_thread_create w).
  { unfold w1, FedMgrJoin._close_sibling_conns.
    destruct (FedMgrJoin.fed_mgr_siblings st) as [l|]; [|reflexivity].
    destruct (FedMgrJoin_close_conns_spec E l w) as (evs & Hw & Hcl & _).
    destruct (FedMgrJoin.close_conns E l w) as [l' w2]. cbn [fst snd] in *.
    rewrite Hw, List.filter_app.
    rewrite (no_thread_create_among is_close evs); [reflexivity | | exact Hcl].
    intros [] He; try discriminate; reflexivity. }
  destruct (FedMgrJoin_add_siblings_events E
              (FedMgrJoin.fed_mgr_cluster_name st) siblings w1)
    as (evs & Hw & Ho).
  destruct (FedMgrJoin.add_siblings E (FedMgrJoin.fed_mgr_cluster_name st)
              siblings w1) as [L w2]. cbn [fst snd] in *.
  assert (H2 : List.filter is_thread_create w2 =
               List.filter is_thread_create w).
  { rewrite Hw, List.filter_app.
    rewrite (no_thread_create_among is_open evs); [exact H1 | | exact Ho].
    intros [] He; try discriminate; reflexivity. }
  unfold FedMgrJoin._create_ping_thread. cbn -[Z.eqb].
  destruct (FedMgrJoin.ping_thread st =? 0) eqn:Ht.
  - split; [|reflexivity].
    destruct (pthread_create E w2); cbn; rewrite H2; reflexivity.
  - split; [cbn; rewrite H2; reflexivity|].
    cbn. apply Z.eqb_refl.
Qed.

(* ------------------------------------------------------------------ *)
(** ** Replacing a roster *)

Lemma FedMgr_add_clusters_events (E : env) (cn : option string)
  (l : list slurmdb_cluster_rec_t) (w : world) :
  exists evs,
    snd (FedMgr.add_clusters E cn l w) = evs ++ w /\
    forallb is_open evs = true.
Proof.
  revert w. induction l as [|c l IH]; intros w.
  - exists []. split; reflexivity.
  - cbn [FedMgr.add_clusters].
    destruct (negb (xstrcmp (Cluster.name c) cn =? 0)).
    + unfold _open_controller_conn.
      destruct (Cluster.control_host (slurmdb_copy_cluster_rec c))
        as [[|a s]|];
        match goal with
        | |- context [FedMgr.add_clusters E cn l ?w0] =>
            destruct (IH w0) as (evs & Hw & Ho);
            destruct (FedMgr.add_clusters E cn l w0) as [r w2]
        end; cbn [fst snd] in *.
      * exists evs. split; assumption.
      * eexists (evs ++ [_]). rewrite Hw, <- app_assoc.
        split; [reflexivity|]. rewrite forallb_app, Ho. reflexivity.
      * eexists (evs ++ [_]). rewrite Hw, <- app_assoc.
        split; [reflexivity|]. rewrite forallb_app, Ho. reflexivity.
    + destruct (IH w) as (evs & Hw & Ho).
      destruct (FedMgr.add_clusters E cn l w) as [r w2]. cbn [fst snd] in *.
      exists evs. split; assumption.
Qed.

(** X17.  _join_federation closes the descriptor of every connected
    sibling of the roster it replaces. *)
Theorem join_closes_previous_connections (E : env)
  (db_cluster : slurmdb_cluster_rec_t)
  (siblings old : list slurmdb_cluster_rec_t) (st : FedMgrJoin.state)
  (w : world) :
  FedMgrJoin.fed_mgr_siblings st = Some old ->
  exists evs,
    snd (FedMgrJoin._join_federation E db_cluster siblings st w) = evs ++ w /\
    forall c, In c old -> 0 <= Cluster.sockfd c ->
      exists rc, In (EvClose (Cluster.sockfd c) rc) evs.
Proof.
  intros Hold. unfold FedMgrJoin._join_federation.
  rewrite Hold. unfold FedMgrJoin._close_sibling_conns. rewrite Hold.
  destruct (FedMgrJoin_close_conns_spec E old w) as (evs1 & Hw1 & _ & Hin & _).
  destruct (FedMgrJoin.close_conns E old w) as [old' w1]. cbn [fst snd] in *.
  destruct (FedMgrJoin_add_siblings_events E
              (FedMgrJoin.fed_mgr_cluster_name st) siblings w1)
    as (evs2 & Hw2 & _).
  destruct (FedMgrJoin.add_siblings E (FedMgrJoin.fed_mgr_cluster_name st)
              siblings w1) as [L w2]. cbn [fst snd] in *.
  unfold FedMgrJoin._create_ping_thread. cbn -[Z.eqb].
  assert (Hin' : forall pre c, In c old -> 0 <= Cluster.sockfd c ->
            exists rc, In (EvClose (Cluster.sockfd c) rc)
                         (pre ++ evs2 ++ evs1)).
  { intros pre c Hc Hs. destruct (Hin c Hc Hs) as [rc Hrc]. exists rc.
    apply in_or_app. right. apply in_or_app. right. exact Hrc. }
  destruct (FedMgrJoin.ping_thread st =? 0);
    [destruct (pthread_create E w2)|]; cbn [snd].
  - exists ((EvThreadCreate (Some z) :: evs2) ++ evs1). subst w2 w1.
    split; [rewrite <- !app_assoc; reflexivity|].
    intros c Hc Hs. apply (Hin' [EvThreadCreate (Some z)] c Hc Hs).
  - exists ((EvThreadCreate None :: evs2) ++ evs1). subst w2 w1.
    split; [rewrite <- !app_assoc; reflexivity|].
    intros c Hc Hs. apply (Hin' [EvThreadCreate None] c Hc Hs).
  - exists (evs2 ++ evs1). subst w2 w1.
    split; [rewrite <- !app_assoc; reflexivity|].
    intros c Hc Hs. apply (Hin' [] c Hc Hs).
Qed.

Lemma join_closes_previous_connections_witness :
  exists evs,
    snd (FedMgrJoin._join_federation (Sample.E 9 (0, 0)) Sample.local
           [Sample.local; Sample.sib1] Sample.federated_join []) = evs ++ [] /\
    forall c, In c [Sample.sib1_connected] -> 0 <= Cluster.sockfd c ->
      exists rc, In (EvClose (Cluster.sockfd c) rc) evs.
Proof.
  apply (join_closes_previous_connections (Sample.E 9 (0, 0)) Sample.local
           [Sample.local; Sample.sib1] [Sample.sib1_connected]
           Sample.federated_join []).
  reflexivity.
Defined.

(** X18.  The update of fed_mgr.c that joins closes the descriptor of
    every connected sibling of the roster it replaces, the local
    cluster's record apart. *)
Theorem update_closes_previous_connections (E : env)
  (before after : list slurmdb_federation_rec_t)
  (fed : slurmdb_federation_rec_t)
  (clusters old : list slurmdb_cluster_rec_t) (cluster : slurmdb_cluster_rec_t)
  (st : FedMgr.state) (w : world) :
  forallb has_cluster_list before = true ->
  existsb (lists_cluster
             (FedMgr.fed_mgr_cluster_name
                (snd (fst (FedMgr.fed_mgr_init E st w))))) before = false ->
  Federation.cluster_list fed = Some clusters ->
  FedMgr.find_local
    (FedMgr.fed_mgr_cluster_name (snd (fst (FedMgr.fed_mgr_init E st w))))
    clusters = Some cluster ->
  FedMgr.fed_mgr_siblings st = Some old ->
  exists st' evs,
    FedMgr.fed_mgr_update_feds E (Some (before ++ fed :: after)) st w =
      Ret (SLURM_SUCCESS, st', evs ++ w) /\
    forall c, In c old ->
      is_local (FedMgr.fed_mgr_cluster_name st') c = false ->
      0 <= Cluster.sockfd c ->
      exists rc, In (EvClose (Cluster.sockfd c) rc) evs.
Proof.
  intros Hl Hn Hc Hf Hold. unfold FedMgr.fed_mgr_update_feds.
  pose proof (FedMgr_init_keeps_identity E st w) as [_ Hsib].
  assert (Hev : exists ev0, snd (FedMgr.fed_mgr_init E st w) = ev0 ++ w).
  { unfold FedMgr.fed_mgr_init, FedMgr._create_ping_thread.
    destruct (FedMgr.fed_mgr_inited st); [exists []; reflexivity|].
    destruct (pthread_create E w); eexists [_]; reflexivity. }
  destruct Hev as [ev0 Hev].
  destruct (FedMgr.fed_mgr_init E st w) as [[rc st0] w0].
  cbn [fst snd] in Hn, Hf, Hsib, Hev |- *. subst w0.
  rewrite (FedMgr_scan_feds_skip E before (fed :: after) st0 _ Hl Hn).
  cbn [FedMgr.scan_feds]. rewrite Hc, Hf.
  cbn [FedMgr.fed_mgr_siblings FedMgr.fed_mgr_cluster_name FedMgr.set_fed_info].
  rewrite Hsib, Hold.
  destruct (FedMgr_close_conns_spec E (FedMgr.fed_mgr_cluster_name st0) old
              (ev0 ++ w)) as (evs1 & Hw1 & _ & Hin & _).
  destruct (FedMgr.close_conns E (FedMgr.fed_mgr_cluster_name st0) old
              (ev0 ++ w)) as [old' w1]. cbn [fst snd] in *.
  destruct (FedMgr_add_clusters_events E (FedMgr.fed_mgr_cluster_name st0)
              clusters w1) as (evs2 & Hw2 & _).
  destruct (FedMgr.add_clusters E (FedMgr.fed_mgr_cluster_name st0)
              clusters w1) as [L w2]. cbn [fst snd bind negb] in *.
  subst w2 w1. eexists. exists (evs2 ++ evs1 ++ ev0).
  split; [rewrite <- !app_assoc; reflexivity|].
  cbn. intros c Hin_c Hloc Hs. destruct (Hin c Hin_c Hloc Hs) as [rc1 Hrc].
  exists rc1. apply in_or_app. right. apply in_or_app. left. exact Hrc.
Qed.

Lemma update_closes_previous_connections_witness :
  exists st' evs,
    FedMgr.fed_mgr_update_feds (Sample.E 9 (0, 0))
      (Some ([Sample.fedB_without_local] ++
             {| Federation.name := Some "fedA"%string;
                Federation.cluster_list := Some [Sample.local; Sample.sib1] |}
             :: [])) Sample.federated [] =
      Ret (SLURM_SUCCESS, st', evs ++ []) /\
    forall c, In c [Sample.local; Sample.sib1_connected] ->
      is_local (FedMgr.fed_mgr_cluster_name st') c = false ->
      0 <= Cluster.sockfd c ->
      exists rc, In (EvClose (Cluster.sockfd c) rc) evs.
Proof.
  apply (update_closes_previous_connections (Sample.E 9 (0, 0))
           [Sample.fedB_without_local] []
           {| Federation.name := Some "fedA"%string;
              Federation.cluster_list := Some [Sample.local; Sample.sib1] |}
           [Sample.local; Sample.sib1] [Sample.local; Sample.sib1_connected]
           Sample.local Sample.federated []);
    reflexivity.
Defined.

(* ------------------------------------------------------------------ *)
(** ** An invariant of the revision with _join_federation *)

Lemma join_consistent_join (E : env) (db : slurmdb_cluster_rec_t)
  (l : list slurmdb_cluster_rec_t) (st : FedMgrJoin.state) (w : world) :
  join_consistent (fst (FedMgrJoin._join_federation E db l st w)) = true.
Proof.
  pose proof (FedMgrJoin_join_installs E db l st w)
    as (_ & _ & Hloc & _ & L & HL & _).
  unfold join_consistent. cbv zeta in Hloc, HL. rewrite Hloc, HL.
  destruct (Fed.name _); reflexivity.
Qed.

Lemma join_consistent_leave (E : env) (st : FedMgrJoin.state) (w : world) :
  join_consistent st = true ->
  join_consistent (fst (FedMgrJoin._leave_federation E st w)) = true.
Proof.
  intros Hc. unfold FedMgrJoin._leave_federation.
  destruct (Fed.name (FedMgrJoin.fed_mgr_fed_info st)) eqn:Hn; [|exact Hc].
  unfold FedMgrJoin._close_sibling_conns.
  destruct (FedMgrJoin.fed_mgr_siblings st) as [l|];
    [destruct (FedMgrJoin.close_conns E l w)|]; reflexivity.
Qed.

Lemma join_consistent_init (E : env) (st : FedMgrJoin.state) :
  join_consistent (snd (FedMgrJoin.fed_mgr_init E st)) = join_consistent st.
Proof.
  unfold FedMgrJoin.fed_mgr_init.
  destruct (FedMgrJoin.fed_mgr_cluster_name st); reflexivity.
Qed.

Lemma FedMgrJoin_scan_feds_inv (E : env)
  (feds : list slurmdb_federation_rec_t) (st st' : FedMgrJoin.state)
  (w w' : world) (b : bool) :
  FedMgrJoin.scan_feds E feds st w = Ret (b, st', w') ->
  (b = false /\ st' = st /\ w' = w) \/
  (b = true /\ exists db l,
     (st', w') = FedMgrJoin._join_federation E db l st w).
Proof.
  induction feds as [|fed feds IH]; cbn [FedMgrJoin.scan_feds]; intros H.
  - injection H as <- <- <-. left. auto.
  - destruct (Federation.cluster_list fed) as [clusters|]; [|discriminate].
    destruct (FedMgrJoin.find_local _ clusters) as [cluster|]; [|exact (IH H)].
    destruct (FedMgrJoin._join_federation E cluster clusters st w)
      as [s1 w1] eqn:Hj.
    injection H as <- <- <-. right. split; [reflexivity|].
    exists cluster, clusters. rewrite Hj. reflexivity.
Qed.

(** X19.  In the revision with _join_federation, "an identity comes
    with a local cluster record and a sibling list" is kept by
    fed_mgr_update_feds and by fed_mgr_state_load, and in such a state
    fed_mgr_get_fed_info and _make_state_save_siblings dereference no
    NULL. *)
Theorem join_revision_consistency (E : env) (st : FedMgrJoin.state) :
  join_consistent st = true ->
  (forall objects w rc st' w',
     FedMgrJoin.fed_mgr_update_feds E objects st w = Ret (rc, st', w') ->
     join_consistent st' = true) /\
  (forall loc io fs w rc st' w',
     FedMgrJoin.fed_mgr_state_load E loc io st w fs = Ret (rc, st', w') ->
     join_consistent st' = true) /\
  (exists r, FedMgrJoin.fed_mgr_get_fed_info st = Ret r) /\
  (exists l, FedMgrJoin._make_state_save_siblings st = Ret l).
Proof.
  intros Hc. split; [|split; [|split]].
  - intros objects w rc st' w' H. unfold FedMgrJoin.fed_mgr_update_feds in H.
    destruct objects as [feds|]; [|injection H as _ <- _; exact Hc].
    pose proof (join_consistent_init E st) as Hi.
    destruct (FedMgrJoin.fed_mgr_init E st) as [rc0 st0]. cbn [snd] in Hi.
    rewrite Hc in Hi.
    destruct (FedMgrJoin.scan_feds E feds st0 w) as [[[b s1] w1]|f] eqn:Hs;
      cbn [bind] in H; [|discriminate].
    apply FedMgrJoin_scan_feds_inv in Hs
      as [(-> & -> & ->)|(-> & db & l & Hj)]; cbn [negb] in H.
    + pose proof (join_consistent_leave E st0 w Hi) as Hl.
      destruct (FedMgrJoin._leave_federation E st0 w) as [s2 w2].
      injection H as _ <- _. exact Hl.
    + injection H as _ <- _.
      pose proof (join_consistent_join E db l st0 w) as Hjc.
      rewrite <- Hj in Hjc. exact Hjc.
  - intros loc io fs w rc st' w' H.
    unfold FedMgrJoin.fed_mgr_state_load in H.
    destruct (decode_state_file E loc io fs) as [[| |ver|ver t my_list]|f];
      cbn [bind] in H; try discriminate;
      try (injection H as _ <- _; exact Hc).
    pose proof (join_consistent_init E st) as Hi.
    destruct (FedMgrJoin.fed_mgr_init E st) as [rc0 st0]. cbn [snd] in Hi.
    rewrite Hc in Hi.
    destruct my_list as [l|]; [|injection H as _ <- _; exact Hi].
    destruct (list_find_first l _ _) as [c|];
      [|injection H as _ <- _; exact Hi].
    pose proof (join_consistent_join E c l st0 w) as Hjc.
    destruct (FedMgrJoin._join_federation E c l st0 w) as [s1 w1].
    injection H as _ <- _. exact Hjc.
  - unfold join_consistent in Hc. unfold FedMgrJoin.fed_mgr_get_fed_info.
    destruct (Fed.name (FedMgrJoin.fed_mgr_fed_info st)); [|eauto].
    destruct (FedMgrJoin.fed_mgr_loc_cluster st); [|discriminate].
    destruct (FedMgrJoin.fed_mgr_siblings st); [|discriminate].
    cbn. eauto.
  - unfold join_consistent in Hc.
    unfold FedMgrJoin._make_state_save_siblings.
    destruct (Fed.name (FedMgrJoin.fed_mgr_fed_info st)); [|eauto].
    destruct (FedMgrJoin.fed_mgr_loc_cluster st); [|discriminate].
    destruct (FedMgrJoin.fed_mgr_siblings st); [|discriminate].
    eauto.
Qed.

Lemma join_revision_consistency_witness :
  (forall objects w rc st' w',
     FedMgrJoin.fed_mgr_update_feds (Sample.E 9 (0, 0)) objects
       Sample.federated_join w = Ret (rc, st', w') ->
     join_consistent st' = true) /\
  (forall loc io fs w rc st' w',
     FedMgrJoin.fed_mgr_state_load (Sample.E 9 (0, 0)) loc io
       Sample.federated_join w fs = Ret (rc, st', w') ->
     join_consistent st' = true) /\
  (exists r, FedMgrJoin.fed_mgr_get_fed_info Sample.federated_join = Ret r) /\
  (exists l,
     FedMgrJoin._make_state_save_siblings Sample.federated_join = Ret l).
Proof.
  apply (join_revision_consistency (Sample.E 9 (0, 0)) Sample.federated_join).
  reflexivity.
Defined.

(* ------------------------------------------------------------------ *)
(** ** The state load on bad or missing files *)

(** What each outcome of the decoding says about the file. *)
Lemma decode_incompatible_inv (E : env) (loc : string) (io : load_io)
  (fs : filesys) (ver : Z) :
  decode_state_file E loc io fs = Ret (IncompatibleVersion ver) ->
  exists bytes data buffer,
    sys_open (reg_file loc) (io_open io) fs = Some bytes /\
    read_loop E (io_reads io) bytes [] = Ret data /\
    safe_unpack16 data = Some (ver, buffer) /\
    (ver > SLURM_PROTOCOL_VERSION E \/ ver < SLURM_MIN_PROTOCOL_VERSION E).
Proof.
  unfold decode_state_file. fold (reg_file loc).
  destruct (sys_open (reg_file loc) (io_open io) fs) as [bytes|];
    [|discriminate].
  destruct (read_loop E (io_reads io) bytes []) as [data|f] eqn:Hr;
    [|discriminate]. cbn [bind].
  destruct (safe_unpack16 data) as [[v buffer]|] eqn:Hu; [|discriminate].
  destruct ((v >? SLURM_PROTOCOL_VERSION E) || (v <? SLURM_MIN_PROTOCOL_VERSION E))
    eqn:Hb.
  - intros H. injection H as <-. exists bytes, data, buffer.
    repeat split; auto. apply orb_true_iff in Hb. destruct Hb; [left|right]; lia.
  - destruct (safe_unpack_time buffer) as [[t b2]|]; [|discriminate].
    destruct (slurmdbd_unpack_list_msg E v b2); discriminate.
Qed.

(** X20.  A load returns EFAULT for no other reason than the version:
    when it does, in either revision, the file was opened and the
    version read from it is outside the supported range. *)
Theorem load_efault_only_on_version (E : env) (loc : string) (io : load_io)
  (fs : filesys) (st1 st1' : FedMgr.state) (st2 st2' : FedMgrJoin.state)
  (w w1' w2' : world) :
  (FedMgr.fed_mgr_state_load E loc io st1 w fs = Ret (EFAULT, st1', w1') \/
   FedMgrJoin.fed_mgr_state_load E loc io st2 w fs = Ret (EFAULT, st2', w2')) ->
  exists bytes data buffer ver,
    sys_open (reg_file loc) (io_open io) fs = Some bytes /\
    read_loop E (io_reads io) bytes [] = Ret data /\
    safe_unpack16 data = Some (ver, buffer) /\
    (ver > SLURM_PROTOCOL_VERSION E \/ ver < SLURM_MIN_PROTOCOL_VERSION E).
Proof.
  intros H.
  assert (Hdec : exists ver,
            decode_state_file E loc io fs = Ret (IncompatibleVersion ver)).
  { destruct H as [H|H].
    - unfold FedMgr.fed_mgr_state_load in H.
      destruct (decode_state_file E loc io fs) as [[| |ver|ver t my_list]|f];
        cbn [bind] in H; try discriminate; [eauto|].
      exfalso. revert H. cbv zeta.
      destruct (FedMgr.fed_mgr_siblings _) as [l|].
      + destruct (list_find_first l _ _) as [c|]; [|discriminate].
        destruct (FedMgr.fed_mgr_init E _ w) as [[rc s] w2]. discriminate.
      + destruct (FedMgr.fed_mgr_init E _ w) as [[rc s] w2]. discriminate.
    - unfold FedMgrJoin.fed_mgr_state_load in H.
      destruct (decode_state_file E loc io fs) as [[| |ver|ver t my_list]|f];
        cbn [bind] in H; try discriminate; [eauto|].
      exfalso. revert H.
      destruct (FedMgrJoin.fed_mgr_init E st2) as [rc s].
      destruct my_list as [l|]; [|discriminate].
      destruct (list_find_first l _ _) as [c|]; [|discriminate].
      destruct (FedMgrJoin._join_federation E c l s w). discriminate. }
  destruct Hdec as [ver Hdec].
  destruct (decode_incompatible_inv E loc io fs ver Hdec)
    as (bytes & data & buffer & H1 & H2 & H3 & H4).
  exists bytes, data, buffer, ver. auto.
Qed.

Lemma load_efault_only_on_version_witness :
  exists bytes data buffer ver,
    sys_open (reg_file "/var/spool") (io_open Sample.load_ok)
      Sample.fs_version_9999 = Some bytes /\
    read_loop (Sample.E 9 (0, 0)) (io_reads Sample.load_ok) bytes [] =
      Ret data /\
    safe_unpack16 data = Some (ver, buffer) /\
    (ver > SLURM_PROTOCOL_VERSION (Sample.E 9 (0, 0)) \/
     ver < SLURM_MIN_PROTOCOL_VERSION (Sample.E 9 (0, 0))).
Proof.
  apply (load_efault_only_on_version (Sample.E 9 (0, 0)) "/var/spool"
           Sample.load_ok Sample.fs_version_9999
           Sample.federated Sample.federated
           Sample.federated_join Sample.federated_join [] [] []).
  left. reflexivity.
Defined.

(** X21.  In the revision with _join_federation a load that does not
    return SLURM_SUCCESS returns SLURM_ERROR or EFAULT and has changed
    neither the world nor the identity, the roster, the local cluster
    record or the thread state (the cluster name may have been set). *)
Theorem join_revision_load_failure_keeps_state (E : env) (loc : string)
  (io : load_io) (fs : filesys) (st st' : FedMgrJoin.state) (w w' : world)
  (rc : Z) :
  FedMgrJoin.fed_mgr_state_load E loc io st w fs = Ret (rc, st', w') ->
  rc <> SLURM_SUCCESS ->
  w' = w /\
  FedMgrJoin.fed_mgr_fed_info st' = FedMgrJoin.fed_mgr_fed_info st /\
  FedMgrJoin.fed_mgr_siblings st' = FedMgrJoin.fed_mgr_siblings st /\
  FedMgrJoin.fed_mgr_loc_cluster st' = FedMgrJoin.fed_mgr_loc_cluster st /\
  FedMgrJoin.ping_thread st' = FedMgrJoin.ping_thread st /\
  FedMgrJoin.stop_pinging st' = FedMgrJoin.stop_pinging st /\
  (rc = SLURM_ERROR \/ rc = EFAULT).
Proof.
  unfold FedMgrJoin.fed_mgr_state_load. intros H Hrc.
  destruct (decode_state_file E loc io fs) as [[| |ver|ver t my_list]|f];
    cbn [bind] in H; try discriminate.
  - injection H as <- <- <-. contradiction.
  - injection H as <- <- <-. repeat split; auto.
  - injection H as <- <- <-. repeat split; auto.
  - unfold FedMgrJoin.fed_mgr_init in H. cbn in H.
    destruct my_list as [l|].
    + destruct (list_find_first l _ _) as [c|].
      * destruct (FedMgrJoin._join_federation E c l _ w).
        injection H as <- <- <-. contradiction.
      * injection H as <- <- <-.
        destruct (FedMgrJoin.fed_mgr_cluster_name st); repeat split; auto.
    + injection H as <- <- <-. contradiction.
Qed.

Lemma join_revision_load_failure_keeps_state_witness :
  FedMgrJoin.fed_mgr_state_load (Sample.E 9 (0, 0)) "/var/spool"
    Sample.load_ok Sample.federated_join [] Sample.fs_sib1_only =
    Ret (SLURM_ERROR, Sample.federated_join, []) /\
  ([] = @nil event /\
   FedMgrJoin.fed_mgr_fed_info Sample.federated_join = Sample.fedA /\
   FedMgrJoin.fed_mgr_siblings Sample.federated_join =
     Some [Sample.sib1_connected] /\
   FedMgrJoin.fed_mgr_loc_cluster Sample.federated_join = Some Sample.local /\
   FedMgrJoin.ping_thread Sample.federated_join = 1 /\
   FedMgrJoin.stop_pinging Sample.federated_join = false /\
   (SLURM_ERROR = SLURM_ERROR \/ SLURM_ERROR = EFAULT)).
Proof.
  split; [reflexivity|].
  apply (join_revision_load_failure_keeps_state (Sample.E 9 (0, 0))
           "/var/spool" Sample.load_ok Sample.fs_sib1_only
           Sample.federated_join Sample.federated_join [] [] SLURM_ERROR);
    [reflexivity | discriminate].
Defined.

(** X22.  A state file of fewer than ten bytes, the length of the
    header, is refused by both revisions with the state unchanged:
    SLURM_ERROR when there is no room for the version or for the time,
    EFAULT when the two bytes there are give an unsupported version. *)
Theorem load_truncated_file (E : env) (loc : string) (io : load_io)
  (fs : filesys) (bytes data : list Byte.byte)
  (st1 : FedMgr.state) (st2 : FedMgrJoin.state) (w : world) :
  sys_open (reg_file loc) (io_open io) fs = Some bytes ->
  read_loop E (io_reads io) bytes [] = Ret data ->
  (length data < 10)%nat ->
  exists rc,
    (rc = SLURM_ERROR \/ rc = EFAULT) /\
    ((length data < 2)%nat -> rc = SLURM_ERROR) /\
    FedMgr.fed_mgr_state_load E loc io st1 w fs = Ret (rc, st1, w) /\
    FedMgrJoin.fed_mgr_state_load E loc io st2 w fs = Ret (rc, st2, w).
Proof.
  intros Ho Hr Hlen.
  unfold FedMgr.fed_mgr_state_load, FedMgrJoin.fed_mgr_state_load,
    decode_state_file. fold (reg_file loc). rewrite Ho, Hr. cbn [bind].
  unfold safe_unpack16, safe_unpack_time, unpack_n.
  destruct (2 <=? length data)%nat eqn:H2.
  - destruct ((unpack_be 0 (take 2 data) >? SLURM_PROTOCOL_VERSION E)
              || (unpack_be 0 (take 2 data) <? SLURM_MIN_PROTOCOL_VERSION E)).
    + exists EFAULT. repeat split; auto.
      intros Hl. apply Nat.leb_le in H2. lia.
    + assert (H8 : (8 <=? length (drop 2 data))%nat = false).
      { apply Nat.leb_gt. rewrite length_drop. lia. }
      rewrite H8. exists SLURM_ERROR. repeat split; auto.
  - exists SLURM_ERROR. repeat split; auto.
Qed.

Lemma load_truncated_file_witness :
  exists rc,
    (rc = SLURM_ERROR \/ rc = EFAULT) /\
    ((length (pack16 7936) < 2)%nat -> rc = SLURM_ERROR) /\
    FedMgr.fed_mgr_state_load (Sample.E 9 (0, 0)) "/var/spool" Sample.load_ok
      Sample.federated [] Sample.fs_short = Ret (rc, Sample.federated, []) /\
    FedMgrJoin.fed_mgr_state_load (Sample.E 9 (0, 0)) "/var/spool"
      Sample.load_ok Sample.federated_join [] Sample.fs_short =
      Ret (rc, Sample.federated_join, []).
Proof.
  apply (load_truncated_file (Sample.E 9 (0, 0)) "/var/spool" Sample.load_ok
           Sample.fs_short (pack16 7936) (pack16 7936)
           Sample.federated Sample.federated_join []).
  - reflexivity.
  - reflexivity.
  - simpl. lia.
Defined.

(** X23.  Without a state file, or when it cannot be opened, the load
    of both revisions returns SLURM_SUCCESS and changes nothing. *)
Theorem load_without_state_file (E : env) (loc : string) (io : load_io)
  (fs : filesys) (st1 : FedMgr.state) (st2 : FedMgrJoin.state) (w : world) :
  dir fs !! reg_file loc = None \/ io_open io <> None ->
  FedMgr.fed_mgr_state_load E loc io st1 w fs = Ret (SLURM_SUCCESS, st1, w) /\
  FedMgrJoin.fed_mgr_state_load E loc io st2 w fs =
    Ret (SLURM_SUCCESS, st2, w).
Proof.
  intros H.
  assert (Ho : sys_open (reg_file loc) (io_open io) fs = None).
  { unfold sys_open, content. destruct (io_open io); [reflexivity|].
    destruct H as [H|H]; [rewrite H; reflexivity | contradiction]. }
  unfold FedMgr.fed_mgr_state_load, FedMgrJoin.fed_mgr_state_load,
    decode_state_file. fold (reg_file loc). rewrite Ho. split; reflexivity.
Qed.

Lemma load_without_state_file_witness :
  FedMgr.fed_mgr_state_load (Sample.E 9 (0, 0)) "/var/spool" Sample.load_ok
    Sample.federated [] Sample.empty_fs =
    Ret (SLURM_SUCCESS, Sample.federated, []) /\
  FedMgrJoin.fed_mgr_state_load (Sample.E 9 (0, 0)) "/var/spool"
    Sample.load_ok Sample.federated_join [] Sample.empty_fs =
    Ret (SLURM_SUCCESS, Sample.federated_join, []).
Proof.
  apply (load_without_state_file (Sample.E 9 (0, 0)) "/var/spool"
           Sample.load_ok Sample.empty_fs Sample.federated
           Sample.federated_join []).
  left. reflexivity.
Defined.

(* ------------------------------------------------------------------ *)
(** ** The state save: backup and creat failure *)

(** Writes that succeed touch the open file only. *)
Lemma write_loop_other_inodes (ns : list nat) (rest : list write_result)
  (i : nat) (data : list Byte.byte) :
  forall (pos nwrite : Z) (fs fs1 : filesys) (rc : Z),
    write_loop (map Written ns ++ rest) i data pos nwrite fs = Ret (rc, fs1) ->
    nwrite <= Z.of_nat (sum_list ns) ->
    forall j, j <> i -> inodes fs1 !! j = inodes fs !! j.
Proof.
  induction ns as [|n ns IH]; intros pos nwrite fs fs1 rc Hw Hsum j Hj.
  - cbn in Hsum. rewrite write_loop_done in Hw by lia.
    injection Hw as _ <-. reflexivity.
  - destruct (Z_le_gt_dec nwrite 0) as [Hle|Hgt].
    + rewrite write_loop_done in Hw by lia. injection Hw as _ <-. reflexivity.
    + cbn in Hsum. cbn [map app write_loop] in Hw.
      assert (H1 : (nwrite <=? 0) = false) by lia. rewrite H1 in Hw.
      destruct (pos <? 0); [discriminate|].
      apply IH with (j := j) in Hw; [|lia|exact Hj].
      rewrite Hw. cbn. apply lookup_insert_ne. congruence.
Qed.

(** X24.  A save whose system calls all succeed leaves the new buffer
    under the canonical name, the previous canonical file under the .old
    name, and no .new name (the .new name must not have been another
    name of the canonical file). *)
Theorem save_keeps_backup (loc : string) (io : save_io)
  (buffer old_bytes : list Byte.byte) (fs : filesys) (ns : list nat)
  (rest : list write_result) :
  io_creat io = None ->
  io_writes io = map Written ns ++ rest ->
  (length buffer <= sum_list ns)%nat ->
  io_unlink_old io = None ->
  io_link_old io = None ->
  io_unlink_reg io = None ->
  io_link_new io = None ->
  io_unlink_new io = None ->
  content fs (reg_file loc) = Some old_bytes ->
  dir fs !! new_file loc <> dir fs !! reg_file loc ->
  exists fs',
    write_state_file loc io buffer fs = Ret (0, fs') /\
    content fs' (reg_file loc) = Some buffer /\
    content fs' (old_file loc) = Some old_bytes /\
    dir fs' !! new_file loc = None.
Proof.
  intros Hcreat Hwrites Hsum Huo Hlo Hur Hln Hun Hold Halias.
  destruct (state_file_names (reg_file loc)) as (Hnr & Hor & Hno).
  fold (new_file loc) in Hnr, Hno. fold (old_file loc) in Hor, Hno.
  unfold write_state_file.
  fold (reg_file loc). fold (new_file loc). fold (old_file loc).
  rewrite Hcreat, Hwrites, Huo, Hlo, Hur, Hln, Hun.
  destruct (sys_creat_ok (new_file loc) fs)
    as (i & Hfst & Hdi & Hii & Hdo & Hio & Hfresh & _).
  destruct (sys_creat (new_file loc) None fs) as [r fs0]. cbn [fst snd] in *.
  subst r.
  destruct (write_loop_completes ns rest i buffer 0
              (Z.of_nat (length buffer)) fs0 []) as (fs1 & Hw & Hd & Hi);
    [lia | lia | lia | exact Hii |].
  pose proof (write_loop_other_inodes ns rest i buffer 0
                (Z.of_nat (length buffer)) fs0 fs1 0 Hw ltac:(lia)) as Hoth.
  rewrite Hw. cbn [bind]. change (negb (0 =? 0)) with false. cbv iota.
  set (fs2 := called SysClose _).
  assert (Hd2 : dir fs2 = dir fs0) by (unfold fs2; cbn; exact Hd).
  assert (Hi2 : inodes fs2 = inodes fs1) by reflexivity.
  unfold content in Hold.
  destruct (dir fs !! reg_file loc) as [j|] eqn:Hj; [|discriminate].
  assert (Hji : j <> i).
  { apply Hfresh; [rewrite Hold; eauto | exact Halias]. }
  set (fsa := snd (sys_unlink (old_file loc) None fs2)).
  set (fsb := snd (sys_link (reg_file loc) (old_file loc) None fsa)).
  set (fsc := snd (sys_unlink (reg_file loc) None fsb)).
  set (fsd := snd (sys_link (new_file loc) (reg_file loc) None fsc)).
  set (fse := snd (sys_unlink (new_file loc) None fsd)).
  assert (Ha_old : dir fsa !! old_file loc = None)
    by apply sys_unlink_gone.
  assert (Ha_reg : dir fsa !! reg_file loc = Some j).
  { unfold fsa. rewrite sys_unlink_other by congruence.
    rewrite Hd2, Hdo by congruence. exact Hj. }
  assert (Ha_new : dir fsa !! new_file loc = Some i).
  { unfold fsa. rewrite sys_unlink_other by congruence.
    rewrite Hd2. exact Hdi. }
  assert (Hb_old : dir fsb !! old_file loc = Some j)
    by (apply sys_link_done; assumption).
  assert (Hb_new : dir fsb !! new_file loc = Some i).
  { unfold fsb. rewrite sys_link_other by congruence. exact Ha_new. }
  assert (Hc_reg : dir fsc !! reg_file loc = None)
    by apply sys_unlink_gone.
  assert (Hc_old : dir fsc !! old_file loc = Some j).
  { unfold fsc. rewrite sys_unlink_other by congruence. exact Hb_old. }
  assert (Hc_new : dir fsc !! new_file loc = Some i).
  { unfold fsc. rewrite sys_unlink_other by congruence. exact Hb_new. }
  assert (Hd_reg : dir fsd !! reg_file loc = Some i)
    by (apply sys_link_done; assumption).
  assert (Hd_old : dir fsd !! old_file loc = Some j).
  { unfold fsd. rewrite sys_link_other by congruence. exact Hc_old. }
  assert (Hino : inodes fse = inodes fs1).
  { unfold fse, fsd, fsc, fsb, fsa.
    rewrite sys_unlink_inodes, sys_link_inodes, sys_unlink_inodes,
      sys_link_inodes, sys_unlink_inodes. exact Hi2. }
  exists fse. split; [reflexivity|]. unfold content.
  split; [|split].
  - unfold fse at 1. rewrite sys_unlink_other by congruence.
    rewrite Hd_reg, Hino, Hi. rewrite Nat2Z.id.
    change (Z.to_nat 0) with 0%nat. rewrite drop_0, firstn_all. reflexivity.
  - unfold fse at 1. rewrite sys_unlink_other by congruence.
    rewrite Hd_old, Hino, (Hoth j Hji), (Hio j Hji). exact Hold.
  - apply sys_unlink_gone.
Qed.

Lemma save_keeps_backup_witness :
  exists fs',
    write_state_file "/var/spool" Sample.save_ok (pack16 7424) Sample.fs_short =
      Ret (0, fs') /\
    content fs' (reg_file "/var/spool") = Some (pack16 7424) /\
    content fs' (old_file "/var/spool") = Some (pack16 7936) /\
    dir fs' !! new_file "/var/spool" = None.
Proof.
  apply (save_keeps_backup "/var/spool" Sample.save_ok (pack16 7424)
           (pack16 7936) Sample.fs_short [4096%nat] []);
    try reflexivity.
  - simpl. lia.
  - vm_compute. discriminate.
Defined.

(** X25.  When the creat of the .new file fails, the save returns its
    errno after two system calls, the creat and an unlink of the .new
    name: no file content changes and no other name is touched. *)
Theorem save_creat_failure (loc : string) (io : save_io)
  (buffer : list Byte.byte) (fs : filesys) (errno : Z) :
  io_creat io = Some errno ->
  errno <> 0 ->
  exists fs',
    write_state_file loc io buffer fs = Ret (errno, fs') /\
    calls fs' = SysUnlink (new_file loc) :: SysCreat (new_file loc) :: calls fs /\
    inodes fs' = inodes fs /\
    (forall p, p <> new_file loc -> dir fs' !! p = dir fs !! p).
Proof.
  intros Hcreat H0. unfold write_state_file.
  fold (reg_file loc). fold (new_file loc). fold (old_file loc).
  rewrite Hcreat. unfold sys_creat. cbn [bind].
  apply Z.eqb_neq in H0. rewrite H0. cbn [negb].
  eexists. split; [reflexivity|].
  split; [rewrite sys_unlink_calls; reflexivity|].
  split; [rewrite sys_unlink_inodes; reflexivity|].
  intros p Hp. rewrite sys_unlink_other by exact Hp. reflexivity.
Qed.

Lemma save_creat_failure_witness :
  exists fs',
    write_state_file "/var/spool" Sample.save_creat_fails (pack16 7424) Sample.fs_short =
      Ret (13, fs') /\
    calls fs' =
      SysUnlink (new_file "/var/spool") :: SysCreat (new_file "/var/spool")
        :: calls Sample.fs_short /\
    inodes fs' = inodes Sample.fs_short /\
    (forall p, p <> new_file "/var/spool" ->
               dir fs' !! p = dir Sample.fs_short !! p).
Proof.
  apply (save_creat_failure "/var/spool" Sample.save_creat_fails (pack16 7424)
           Sample.fs_short 13).
  - reflexivity.
  - discriminate.
Defined.

(* ------------------------------------------------------------------ *)
(** ** Save, then load, in the revision with _join_federation *)

Lemma filter_not_named_persisted (cn : option string)
  (l l' : list slurmdb_cluster_rec_t) :
  map persisted l' = map persisted l ->
  map persisted
    (List.filter (fun c => negb (xstrcmp (Cluster.name c) cn =? 0)) l') =
  map persisted
    (List.filter (fun c => negb (xstrcmp (Cluster.name c) cn =? 0)) l).
Proof.
  revert l'. induction l as [|x l IH]; intros [|x' l'] Hm;
    try discriminate; [reflexivity|].
  cbn [map] in Hm.
  assert (Hx : persisted x' = persisted x) by congruence.
  assert (Hm' : map persisted l' = map persisted l) by congruence.
  assert (Hn : Cluster.name x' = Cluster.name x)
    by (unfold persisted in Hx; congruence).
  cbn [List.filter]. rewrite Hn.
  destruct (xstrcmp (Cluster.name x) cn =? 0); cbn [negb map];
    [apply IH; exact Hm' | rewrite Hx, (IH l' Hm'); reflexivity].
Qed.

Lemma filter_not_named_all (cn : option string)
  (l : list slurmdb_cluster_rec_t) :
  Forall (fun c => Cluster.name c <> cn) l ->
  List.filter (fun c => negb (xstrcmp (Cluster.name c) cn =? 0)) l = l.
Proof.
  induction 1 as [|c l Hc Hl IH]; cbn [List.filter]; [reflexivity|].
  destruct (xstrcmp (Cluster.name c) cn =? 0) eqn:Hx; cbn [negb].
  - apply Z.eqb_eq, xstrcmp_eq in Hx. contradiction.
  - rewrite IH. reflexivity.
Qed.

Lemma map_persisted_copy (l : list slurmdb_cluster_rec_t) :
  map persisted (map slurmdb_copy_cluster_rec l) = map persisted l.
Proof. induction l as [|c l IH]; cbn; [reflexivity | rewrite IH; reflexivity]. Qed.

(** X26.  The round trip of the revision with _join_federation: the
    save writes the local cluster record followed by the siblings, and
    the load brings back the identity, a local cluster record and a
    sibling list with the same names, hosts, ports and identities.  The
    local cluster record carries the identity in memory and the local
    name, no sibling carries that name, the codec of the list message
    gives the list back up to the handles, and the system calls go
    through. *)
Theorem join_revision_save_load_round_trip (E : env) (loc : string) (now : Z)
  (io_s : save_io) (io_l : load_io) (fs : filesys)
  (st st0 : FedMgrJoin.state) (w0 : world)
  (fname : string) (loc_cluster : slurmdb_cluster_rec_t)
  (L saved : list slurmdb_cluster_rec_t)
  (ns : list nat) (rest : list write_result) :
  Fed.name (FedMgrJoin.fed_mgr_fed_info st) = Some fname ->
  FedMgrJoin.fed_mgr_loc_cluster st = Some loc_cluster ->
  FedMgrJoin.fed_mgr_siblings st = Some L ->
  Cluster.fed loc_cluster = FedMgrJoin.fed_mgr_fed_info st ->
  Cluster.name loc_cluster =
    local_name E (FedMgrJoin.fed_mgr_cluster_name st0) ->
  Forall (fun c => Cluster.name c <>
                   local_name E (FedMgrJoin.fed_mgr_cluster_name st0)) L ->
  0 <= SLURM_PROTOCOL_VERSION E < 2 ^ 16 ->
  SLURM_MIN_PROTOCOL_VERSION E <= SLURM_PROTOCOL_VERSION E ->
  slurmdbd_unpack_list_msg E (SLURM_PROTOCOL_VERSION E)
    (slurmdbd_pack_list_msg E
       (Some (slurmdb_copy_cluster_rec loc_cluster ::
              map slurmdb_copy_cluster_rec L))
       (SLURM_PROTOCOL_VERSION E)) = Some (Some saved) ->
  map persisted saved = map persisted (loc_cluster :: L) ->
  io_creat io_s = None ->
  io_writes io_s = map Written ns ++ rest ->
  (length (save_buffer E
             (Some (slurmdb_copy_cluster_rec loc_cluster ::
                    map slurmdb_copy_cluster_rec L)) now)
   <= sum_list ns)%nat ->
  io_unlink_reg io_s = None ->
  io_link_new io_s = None ->
  io_open io_l = None ->
  read_loop E (io_reads io_l)
    (save_buffer E
       (Some (slurmdb_copy_cluster_rec loc_cluster ::
              map slurmdb_copy_cluster_rec L)) now) [] =
    Ret (save_buffer E
           (Some (slurmdb_copy_cluster_rec loc_cluster ::
                  map slurmdb_copy_cluster_rec L)) now) ->
  exists fs' st' w' loc' L',
    FedMgrJoin.fed_mgr_state_save E loc now io_s st fs = Ret (0, fs') /\
    FedMgrJoin.fed_mgr_state_load E loc io_l st0 w0 fs' =
      Ret (SLURM_SUCCESS, st', w') /\
    FedMgrJoin.fed_mgr_fed_info st' = FedMgrJoin.fed_mgr_fed_info st /\
    FedMgrJoin.fed_mgr_loc_cluster st' = Some loc' /\
    persisted loc' = persisted loc_cluster /\
    FedMgrJoin.fed_mgr_siblings st' = Some L' /\
    map persisted L' = map persisted L.
Proof.
  intros Hname Hloc HL Hfed Hcn Hothers Hv Hmin Hcodec Hper
    Hcreat Hwrites Hsum Hu Hl Ho Hr.
  set (my_list := Some (slurmdb_copy_cluster_rec loc_cluster ::
                        map slurmdb_copy_cluster_rec L)) in *.
  assert (Hmk : FedMgrJoin._make_state_save_siblings st = Ret my_list).
  { unfold FedMgrJoin._make_state_save_siblings.
    rewrite Hname, Hloc, HL. reflexivity. }
  rewrite (FedMgrJoin_state_save_buffer E loc now io_s st fs my_list Hmk).
  destruct (write_state_file_ok loc io_s (save_buffer E my_list now) fs ns
              rest Hcreat Hwrites Hsum Hu Hl) as (fs' & Hsave & Hcontent).
  destruct (decode_saved_file E loc io_l fs' my_list (Some saved) now
              Hcontent Ho Hr Hv Hmin Hcodec) as (buf_time & Hdec).
  set (cn := local_name E (FedMgrJoin.fed_mgr_cluster_name st0)) in *.
  assert (Hfirst : list_find_first (loc_cluster :: L)
                     slurmdb_find_cluster_in_list cn = Some loc_cluster).
  { unfold list_find_first, slurmdb_find_cluster_in_list. cbn [List.find].
    apply xstrcmp_eq in Hcn. rewrite Hcn. reflexivity. }
  destruct (list_find_first_persisted cn (loc_cluster :: L) saved loc_cluster
              Hper Hfirst) as (self & Hself & Hps).
  cut (exists st' w' loc' L',
         FedMgrJoin.fed_mgr_state_load E loc io_l st0 w0 fs' =
           Ret (SLURM_SUCCESS, st', w') /\
         FedMgrJoin.fed_mgr_fed_info st' = FedMgrJoin.fed_mgr_fed_info st /\
         FedMgrJoin.fed_mgr_loc_cluster st' = Some loc' /\
         persisted loc' = persisted loc_cluster /\
         FedMgrJoin.fed_mgr_siblings st' = Some L' /\
         map persisted L' = map persisted L).
  { intros (st' & w' & loc' & L' & H). exists fs', st', w', loc', L'.
    split; [exact Hsave | exact H]. }
  unfold FedMgrJoin.fed_mgr_state_load. rewrite Hdec. cbn [bind].
  assert (Hinit : FedMgrJoin.fed_mgr_cluster_name
                    (snd (FedMgrJoin.fed_mgr_init E st0)) = cn).
  { unfold FedMgrJoin.fed_mgr_init, cn, local_name.
    destruct (FedMgrJoin.fed_mgr_cluster_name st0) eqn:Hn; cbn;
      [exact Hn | reflexivity]. }
  destruct (FedMgrJoin.fed_mgr_init E st0) as [rc st1]. cbn [snd] in Hinit.
  rewrite Hinit, Hself.
  pose proof (FedMgrJoin_join_installs E self saved st1 w0)
    as (_ & Hid & Hlc & _ & L' & HL' & Hp').
  destruct (FedMgrJoin._join_federation E self saved st1 w0) as [st' w'].
  cbn [fst] in *.
  exists st', w', (slurmdb_copy_cluster_rec self), L'.
  split; [reflexivity|].
  split; [rewrite Hid, <- Hfed; unfold persisted in Hps; congruence|].
  split; [exact Hlc|]. split; [exact Hps|]. split; [exact HL'|].
  rewrite Hp', Hinit.
  rewrite (filter_not_named_persisted cn (loc_cluster :: L) saved Hper).
  cbn [List.filter]. apply xstrcmp_eq in Hcn. rewrite Hcn. cbn [negb].
  rewrite (filter_not_named_all cn L Hothers). reflexivity.
Qed.

Lemma join_revision_save_load_round_trip_witness :
  exists fs' st' w' loc' L',
    FedMgrJoin.fed_mgr_state_save (Sample.E 9 (0, 0)) "/var/spool" 1000
      Sample.save_ok Sample.federated_join Sample.empty_fs = Ret (0, fs') /\
    FedMgrJoin.fed_mgr_state_load (Sample.E 9 (0, 0)) "/var/spool"
      Sample.load_ok FedMgrJoin.initial [] fs' =
      Ret (SLURM_SUCCESS, st', w') /\
    FedMgrJoin.fed_mgr_fed_info st' = Sample.fedA /\
    FedMgrJoin.fed_mgr_loc_cluster st' = Some loc' /\
    persisted loc' = persisted Sample.local /\
    FedMgrJoin.fed_mgr_siblings st' = Some L' /\
    map persisted L' = map persisted [Sample.sib1_connected].
Proof.
  apply (join_revision_save_load_round_trip (Sample.E 9 (0, 0)) "/var/spool"
           1000 Sample.save_ok Sample.load_ok Sample.empty_fs
           Sample.federated_join FedMgrJoin.initial [] "fedA"%string
           Sample.local [Sample.sib1_connected]
           [Sample.local; Sample.sib1] [4096%nat] []);
    try reflexivity.
  - repeat constructor. discriminate.
  - simpl. lia.
  - simpl. lia.
  - apply Nat.leb_le. vm_compute. reflexivity.
Defined.
